(** * Asset depreciation schedules (erpnext/assets/doctype/asset_depreciation_schedule)

    A shallow embedding of [asset_depreciation_schedule.py] and the properties
    of its schedule generator, its accumulated-depreciation reconciler and its
    uniqueness validation.

    Conventions of the embedding.
    - Amounts are Python floats in the source.  They are embedded as exact
      rationals ([Q], compared with [==]); rounding to a field precision
      ([flt(x, precision)]) is a function of the environment.  Where a branch
      of the code depends on the rounding of a float operation (the quotient
      [12 / frequency] and its remainder), the operation is embedded with its
      rounding to the nearest binary64 number ([float64]).
    - Python exceptions are values of [exn]; a function that can raise returns
      [result].
    - [frappe.utils] (calendar arithmetic, [flt]) and the collaborators of the
      engine (the asset's own validation, the regional rate hook) are not part
      of this module: they are the fields of the class [Frappe].  A concrete
      instance, used for the worked examples, is given in [Module Shipped]. *)

From Stdlib Require Import ZArith QArith Qround Qabs Qpower List String Bool
  Lia Lqa.
Import ListNotations.

Open Scope Z_scope.

(** ** Python results *)

Inductive exn : Type :=
| ZeroDivisionError
| IndexError
| UnboundLocalError
| TypeError
| OverflowError
| ValidationError (template : string) (args : list string).

Inductive result (A : Type) : Type :=
| Ok (a : A)
| Raise (e : exn).

Arguments Ok {A} a.
Arguments Raise {A} e.

Definition bind {A B : Type} (m : result A) (k : A -> result B) : result B :=
  match m with
  | Ok a => k a
  | Raise e => Raise e
  end.

Notation "x <- m ;; k" := (bind m (fun x => k))
  (at level 100, m at next level, right associativity).
Notation "' p <- m ;; k" := (bind m (fun x => let p := x in k))
  (at level 100, p pattern, m at next level, right associativity).

(** ** Numbers *)

(** Truthiness of a Python number: [0] (and [None], embedded as [0]) is false. *)
Definition truthy (x : Q) : bool := negb (Qeq_bool x 0).

Definition Qltb (x y : Q) : bool := negb (Qle_bool y x).

(** Python [x / y] on floats. *)
Definition py_div (x y : Q) : result Q :=
  if Qeq_bool y 0 then Raise ZeroDivisionError else Ok (x / y)%Q.

(** The remainder of the floored quotient, [x - y * floor(x / y)], for a
    nonzero [y]: what Python's [x % y] is in exact arithmetic. *)
Definition py_mod (x y : Q) : Q := (x - y * inject_Z (Qfloor (x / y)))%Q.

(** [m] returns a number equal to [q]. *)
Definition returns (m : result Q) (q : Q) : Prop :=
  exists q', m = Ok q' /\ (q' == q)%Q.

(** [x] leaves the remainder [r] modulo [y]: the remainder has the sign of
    [y], as in Python. *)
Definition remainder_is (x y r : Q) : Prop :=
  exists k : Z,
    (x == inject_Z k * y + r)%Q
    /\ ((0 <= r /\ r < y) \/ (y < r /\ r <= 0))%Q.

(** ** Floating-point numbers *)

(** [floor (log2 x)] for a positive [x]. *)
Definition Qlog2 (x : Q) : Z :=
  let k := Z.log2 (Qnum x) - Z.log2 (Zpos (Qden x)) in
  if Qle_bool (2 ^ k) x then k else k - 1.

(** The integer nearest to [t], the even one of two at the same distance. *)
Definition nearest_even (t : Q) : Z :=
  let f := Qfloor t in
  match Qcompare (t - inject_Z f) (1 # 2) with
  | Lt => f
  | Gt => f + 1
  | Eq => if Z.even f then f else f + 1
  end.

(** The binary64 number nearest to [x], ties to even: 53 significant bits,
    the last one weighing [2 ^ -1074] at least (given in lowest terms). *)
Definition float64 (x : Q) : Q :=
  if Qeq_bool x 0 then 0%Q
  else
    let a := Qabs x in
    let e := Z.max (Qlog2 a - 52) (-1074) in
    let m := inject_Z (nearest_even (a / 2 ^ e)) in
    Qred (if Qle_bool 0 x then m * 2 ^ e else - (m * 2 ^ e)).

(** The float of an exact result; OverflowError past the largest float. *)
Definition to_float (x : Q) : result Q :=
  let y := float64 x in
  if Qle_bool (2 ^ 1024) (Qabs y) then Raise OverflowError else Ok y.

(** Python [float(n)] of an int, as the mixed operations convert it. *)
Definition py_float (n : Z) : result Q := to_float (inject_Z n).

(** Python [n / m] on ints: the float nearest to the quotient. *)
Definition py_truediv_int (n m : Z) : result Q :=
  if m =? 0 then Raise ZeroDivisionError
  else to_float (inject_Z n / inject_Z m).

Definition Qtrunc (q : Q) : Z :=
  if Qle_bool 0 q then Qfloor q else Qceiling q.

(** C [fmod]: the remainder of the truncated quotient, which is exact. *)
Definition fmod (x y : Q) : Q := (x - y * inject_Z (Qtrunc (x / y)))%Q.

(** Python [x % y] on floats: [fmod], moved by [y] (a float addition) when
    its sign is not the sign of [y]. *)
Definition py_float_mod (x y : Q) : result Q :=
  if Qeq_bool y 0 then Raise ZeroDivisionError
  else
    let m := fmod x y in
    if negb (Qeq_bool m 0) && negb (Bool.eqb (Qltb y 0) (Qltb m 0))
    then Ok (float64 (m + y))
    else Ok m.

Definition is_truthy_str (s : option string) : bool :=
  match s with
  | Some s => negb (String.eqb s "")
  | None => false
  end.

(** ** Dates *)

Record date : Type := mkdate { year : Z; month : Z; day : Z }.

Definition date_eqb (a b : date) : bool :=
  (year a =? year b) && (month a =? month b) && (day a =? day b).

(** ** Documents *)

Module SRow.
(** A row of the child table [depreciation_schedule]. [idx] is the row
    number kept by the document model; [accumulated_depreciation_amount] is
    [None] on a row that was appended and never reconciled. *)
Record t : Type := mk {
  idx : Z;
  schedule_date : date;
  depreciation_amount : Q;
  accumulated_depreciation_amount : option Q;
  journal_entry : option string
}.

Definition set_amounts (d : t) (amount : Q) (accumulated : Q) : t :=
  mk (idx d) (schedule_date d) amount (Some accumulated) (journal_entry d).
End SRow.

Module Flags.
Record t : Type := mk {
  increase_in_asset_life : bool;
  increase_in_asset_value_due_to_repair : bool;
  decrease_in_asset_value_due_to_value_adjustment : bool
}.
End Flags.

Module Asset.
Record t : Type := mk {
  name : string;
  docstatus : Z;
  gross_purchase_amount : Q;
  opening_accumulated_depreciation : Q;
  number_of_depreciations_booked : Z;
  available_for_use_date : option date;
  to_date : option date;
  flags : Flags.t
}.

Definition set_to_date (a : t) (d : date) : t :=
  mk (name a) (docstatus a) (gross_purchase_amount a)
     (opening_accumulated_depreciation a) (number_of_depreciations_booked a)
     (available_for_use_date a) (Some d) (flags a).
End Asset.

Module FB.
(** A row of the asset's finance books (the depreciation policy). *)
Record t : Type := mk {
  finance_book : string;
  depreciation_method : string;
  total_number_of_depreciations : Z;
  frequency_of_depreciation : Z;
  rate_of_depreciation : Q;
  expected_value_after_useful_life : Q;
  daily_prorata_based : bool;
  depreciation_start_date : date;
  value_after_depreciation : Q
}.

Definition set_value_after_depreciation (r : t) (v : Q) : t :=
  mk (finance_book r) (depreciation_method r) (total_number_of_depreciations r)
     (frequency_of_depreciation r) (rate_of_depreciation r)
     (expected_value_after_useful_life r) (daily_prorata_based r)
     (depreciation_start_date r) v.
End FB.

Module Schedule.
(** The Asset Depreciation Schedule document ([self] in the source). *)
Record t : Type := mk {
  name : string;
  asset : string;
  finance_book : string;
  docstatus : Z;
  opening_accumulated_depreciation : Q;
  number_of_depreciations_booked : Z;
  depreciation_method : string;
  depreciation_schedule : list SRow.t
}.

Definition set_depreciation_schedule (s : t) (rows : list SRow.t) : t :=
  mk (name s) (asset s) (finance_book s) (docstatus s)
     (opening_accumulated_depreciation s) (number_of_depreciations_booked s)
     (depreciation_method s) rows.
End Schedule.

(** ** The environment: [frappe.utils] and the engine's collaborators *)

Class Frappe : Type := {
  (** [getdate(None)] is the current date. *)
  today : date;
  add_days : date -> Z -> date;
  add_months : date -> Z -> date;
  (** [date_diff a b] is the number of days from [b] to [a]. *)
  date_diff : date -> date -> Z;
  month_diff : date -> date -> Z;
  get_first_day : date -> date;
  get_last_day : date -> date;
  is_last_day_of_the_month : date -> bool;
  (** [rounded x p]: [x] rounded to [p] decimal places. *)
  rounded : Q -> Z -> Q;
  (** [doc.precision(fieldname)], by doctype and field name. *)
  precision : string -> string -> Z;
  (** [Asset.validate_asset_finance_books]: may raise, may change both
      documents. *)
  validate_asset_finance_books : Asset.t -> FB.t -> result (Asset.t * FB.t);
  (** The regional override registered through [erpnext.allow_regional], if
      any. *)
  regional_rate_of_depreciation : option (Asset.t -> Q -> FB.t -> Q)
}.

Section Engine.
Context {F : Frappe}.

(** [getdate]: a date is itself, an unset date is the current date.  The
    calendar functions of [frappe.utils] apply it to their arguments. *)
Definition getdate (d : option date) : date :=
  match d with
  | Some d => d
  | None => today
  end.

Definition flt (x : Q) (prec : option Z) : Q :=
  match prec with
  | Some p => rounded x p
  | None => x
  end.

Definition gross_precision : Z := precision "Asset" "gross_purchase_amount".
Definition amount_precision : Z :=
  precision "Depreciation Schedule" "depreciation_amount".
Definition accumulated_precision : Z :=
  precision "Depreciation Schedule" "accumulated_depreciation_amount".

Definition is_first_day_of_the_month (d : date) : bool :=
  date_eqb (get_first_day d) d.

(** ** Pro-rata calculator *)

Definition get_total_days (d : date) (frequency : Z) : Z :=
  let period_start_date := add_months d (frequency * -1) in
  let period_start_date :=
    if is_last_day_of_the_month d then get_last_day period_start_date
    else period_start_date in
  date_diff d period_start_date.

Definition _get_pro_rata_amt (row : FB.t) (depreciation_amount : Q)
    (from_date to_date : date) (has_wdv_or_dd_non_yearly_pro_rata : bool)
  : result (Q * Z * Z) :=
  let days := date_diff to_date from_date in
  let months := month_diff to_date from_date in
  let total_days :=
    if has_wdv_or_dd_non_yearly_pro_rata then get_total_days to_date 12
    else get_total_days to_date (FB.frequency_of_depreciation row) in
  amount <- py_div (depreciation_amount * inject_Z days)%Q (inject_Z total_days);;
  Ok (amount, days, months).

Definition _get_modified_available_for_use_date (asset_doc : Asset.t)
    (row : FB.t) (wdv_or_dd_non_yearly : bool) : date :=
  if wdv_or_dd_non_yearly then
    add_months (getdate (Asset.available_for_use_date asset_doc))
               (Asset.number_of_depreciations_booked asset_doc * 12)
  else
    add_months (getdate (Asset.available_for_use_date asset_doc))
               (Asset.number_of_depreciations_booked asset_doc
                * FB.frequency_of_depreciation row).

Definition _check_is_pro_rata (asset_doc : Asset.t) (row : FB.t)
    (wdv_or_dd_non_yearly : bool) : bool :=
  let from_date :=
    _get_modified_available_for_use_date asset_doc row wdv_or_dd_non_yearly in
  let days := date_diff (FB.depreciation_start_date row) from_date + 1 in
  let total_days :=
    if wdv_or_dd_non_yearly then
      get_total_days (FB.depreciation_start_date row) 12
    else
      get_total_days (FB.depreciation_start_date row)
                     (FB.frequency_of_depreciation row) in
  days <? total_days.

(** ** Period amount calculator *)

Definition is_sl_or_manual (method : string) : bool :=
  String.eqb method "Straight Line" || String.eqb method "Manual".

Definition is_wdv_or_dd (method : string) : bool :=
  String.eqb method "Written Down Value"
  || String.eqb method "Double Declining Balance".

Definition get_updated_rate_of_depreciation_for_wdv_and_dd
    (asset : Asset.t) (depreciable_value : Q) (fb_row : FB.t) : Q :=
  match regional_rate_of_depreciation with
  | Some override => override asset depreciable_value fb_row
  | None => FB.rate_of_depreciation fb_row
  end.

(** The day-count of period [schedule_idx] in daily pro-rata mode. *)
Definition daily_period_days (row : FB.t) (schedule_idx : Z) : Z :=
  let freq := FB.frequency_of_depreciation row in
  let start := FB.depreciation_start_date row in
  let to_date := get_last_day (add_months start (schedule_idx * freq)) in
  let from_date :=
    add_days (get_last_day (add_months start ((schedule_idx - 1) * freq))) 1 in
  date_diff to_date from_date + 1.

Definition get_straight_line_or_manual_depr_amount (asset : Asset.t)
    (row : FB.t) (schedule_idx : Z) (number_of_pending_depreciations : Z)
  : result Q :=
  let fl := Asset.flags asset in
  let freq := FB.frequency_of_depreciation row in
  let start := FB.depreciation_start_date row in
  let total := FB.total_number_of_depreciations row in
  let booked := Asset.number_of_depreciations_booked asset in
  let remaining :=
    (FB.value_after_depreciation row - FB.expected_value_after_useful_life row)%Q in
  let last_period_end := get_last_day (add_months start ((total - booked - 1) * freq)) in
  if Flags.increase_in_asset_life fl then
    py_div remaining
      (inject_Z (date_diff (getdate (Asset.to_date asset))
                           (getdate (Asset.available_for_use_date asset))) / 365)%Q
  else if Flags.increase_in_asset_value_due_to_repair fl then
    py_div remaining (inject_Z total)
  else if Flags.decrease_in_asset_value_due_to_value_adjustment fl then
    if FB.daily_prorata_based row then
      daily_depr_amount <-
        py_div remaining
          (inject_Z
             (date_diff last_period_end
                (add_days
                   (get_last_day
                      (add_months start
                         ((total - booked - number_of_pending_depreciations - 1)
                          * freq)))
                   1)));;
      Ok (daily_depr_amount * inject_Z (daily_period_days row schedule_idx))%Q
    else
      py_div remaining (inject_Z number_of_pending_depreciations)
  else
    let depreciable :=
      (Asset.gross_purchase_amount asset
       - Asset.opening_accumulated_depreciation asset
       - FB.expected_value_after_useful_life row)%Q in
    if FB.daily_prorata_based row then
      daily_depr_amount <-
        py_div depreciable
          (inject_Z
             (date_diff last_period_end
                (add_days (get_last_day (add_months start (-1 * freq))) 1)));;
      Ok (daily_depr_amount * inject_Z (daily_period_days row schedule_idx))%Q
    else
      py_div depreciable (inject_Z (total - booked)).

(** [schedule_idx % (12 / cint(frequency_of_depreciation))] is a float
    operation: the quotient of the two ints is rounded to a float, the index
    is converted to one, and the remainder is the float remainder. *)
Definition get_wdv_or_dd_depr_amount (depreciable_value rate_of_depreciation : Q)
    (frequency_of_depreciation schedule_idx : Z) (prev_depreciation_amount : Q)
    (has_wdv_or_dd_non_yearly_pro_rata : bool) : result Q :=
  if frequency_of_depreciation =? 12 then
    Ok (depreciable_value * (rate_of_depreciation / 100))%Q
  else if has_wdv_or_dd_non_yearly_pro_rata then
    if schedule_idx =? 0 then
      Ok (depreciable_value * (rate_of_depreciation / 100))%Q
    else
      periods_per_year <- py_truediv_int 12 frequency_of_depreciation;;
      idx <- py_float schedule_idx;;
      remainder <- py_float_mod idx periods_per_year;;
      if Qeq_bool remainder 1 then
        Ok (depreciable_value * inject_Z frequency_of_depreciation
            * (rate_of_depreciation / 1200))%Q
      else Ok prev_depreciation_amount
  else
    periods_per_year <- py_truediv_int 12 frequency_of_depreciation;;
    idx <- py_float schedule_idx;;
    remainder <- py_float_mod idx periods_per_year;;
    if Qeq_bool remainder 0 then
      Ok (depreciable_value * inject_Z frequency_of_depreciation
          * (rate_of_depreciation / 1200))%Q
    else Ok prev_depreciation_amount.

Definition get_depreciation_amount (asset : Asset.t) (depreciable_value : Q)
    (fb_row : FB.t) (schedule_idx : Z) (prev_depreciation_amount : Q)
    (has_wdv_or_dd_non_yearly_pro_rata : bool)
    (number_of_pending_depreciations : Z) : result Q :=
  if is_sl_or_manual (FB.depreciation_method fb_row) then
    get_straight_line_or_manual_depr_amount
      asset fb_row schedule_idx number_of_pending_depreciations
  else
    let rate_of_depreciation :=
      get_updated_rate_of_depreciation_for_wdv_and_dd
        asset depreciable_value fb_row in
    get_wdv_or_dd_depr_amount depreciable_value rate_of_depreciation
      (FB.frequency_of_depreciation fb_row) schedule_idx
      prev_depreciation_amount has_wdv_or_dd_non_yearly_pro_rata.

(** ** Schedule generator *)

Definition _get_value_after_depreciation_for_making_schedule
    (asset_doc : Asset.t) (fb_row : FB.t) : Q :=
  if (Asset.docstatus asset_doc =? 1) && truthy (FB.value_after_depreciation fb_row)
  then FB.value_after_depreciation fb_row
  else (Asset.gross_purchase_amount asset_doc
        - Asset.opening_accumulated_depreciation asset_doc)%Q.

(** [clear_depr_schedule]: keeps the leading rows that carry a journal entry
    and returns them with [start].  [start] is only assigned when an unbooked
    row is met. *)
Fixpoint clear_loop (rows : list SRow.t) (num_of_depreciations_completed : Z)
    (depr_schedule : list SRow.t) : Z * list SRow.t :=
  match rows with
  | [] => (0, depr_schedule)
  | schedule :: rest =>
      if is_truthy_str (SRow.journal_entry schedule) then
        clear_loop rest (num_of_depreciations_completed + 1)
                   (depr_schedule ++ [schedule])
      else (num_of_depreciations_completed, depr_schedule)
  end.

Definition clear_depr_schedule (self : Schedule.t) : Z * Schedule.t :=
  let '(start, depr_schedule) :=
    clear_loop (Schedule.depreciation_schedule self) 0 [] in
  (start, Schedule.set_depreciation_schedule self depr_schedule).

(** [self.append("depreciation_schedule", {...})]: the document model numbers
    the new row [len + 1]; every other field is unset. *)
Definition add_depr_schedule_row (rows : list SRow.t) (schedule_date : date)
    (depreciation_amount : Q) : list SRow.t :=
  rows ++ [SRow.mk (Z.of_nat (List.length rows) + 1) schedule_date
                  depreciation_amount None None].

Definition get_depreciation_amount_for_first_row (rows : list SRow.t)
  : result Q :=
  match rows with
  | d :: _ => Ok (SRow.depreciation_amount d)
  | [] => Raise IndexError
  end.

Definition get_adjusted_depreciation_amount (self : Schedule.t)
    (rows : list SRow.t) (depreciation_amount_without_pro_rata : Q)
    (depreciation_amount_for_last_row : Q) : result Q :=
  if negb (truthy (Schedule.opening_accumulated_depreciation self)) then
    depreciation_amount_for_first_row <-
      get_depreciation_amount_for_first_row rows;;
    if negb (Qeq_bool (depreciation_amount_for_first_row
                       + depreciation_amount_for_last_row)%Q
                      depreciation_amount_without_pro_rata)
    then Ok (depreciation_amount_without_pro_rata
             - depreciation_amount_for_first_row)%Q
    else Ok depreciation_amount_for_last_row
  else Ok depreciation_amount_for_last_row.

(** The variables of [_make_depr_schedule] that change in its loop: the rows
    of [self], [asset_doc] (its [to_date] is assigned), and the locals. *)
Record Locals : Type := mkLocals {
  rows : list SRow.t;
  asset_doc : Asset.t;
  value_after_depreciation : Q;
  skip_row : bool;
  depreciation_amount : Q;
  schedule_date : option date
}.

Inductive control : Type := Next | Break.

Definition read_schedule_date (sd : option date) : result date :=
  match sd with
  | Some d => Ok d
  | None => Raise UnboundLocalError
  end.

(** The constants of the loop, computed before it. *)
Record LoopEnv : Type := mkLoopEnv {
  self : Schedule.t;
  row : FB.t;
  date_of_disposal : option date;
  final_number_of_depreciations : Z;
  has_pro_rata : bool;
  has_wdv_or_dd_non_yearly_pro_rata : bool;
  should_get_last_day : bool;
  number_of_pending_depreciations : Z
}.

(** Lines "For first row" / "For last row": the pro-rata treatment of the
    boundary periods.  Returns the amount, the asset and the schedule date. *)
Definition boundary_pro_rata (E : LoopEnv) (n : Z) (st : Locals)
  : result (Q * Asset.t * option date) :=
  let s := self E in
  let r := row E in
  let a := asset_doc st in
  let freq := FB.frequency_of_depreciation r in
  let wdv := has_wdv_or_dd_non_yearly_pro_rata E in
  let opening := truthy (Schedule.opening_accumulated_depreciation s) in
  if (n =? 0) && (has_pro_rata E || wdv) && negb opening then
    let from_date := add_days (getdate (Asset.available_for_use_date a)) (-1) in
    '(amount, _, _) <-
      _get_pro_rata_amt r (depreciation_amount st) from_date
                        (FB.depreciation_start_date r) wdv;;
    Ok (amount, a, schedule_date st)
  else if (n =? 0) && wdv && opening then
    let from_date :=
      if negb (is_first_day_of_the_month
                 (getdate (Asset.available_for_use_date a)))
      then get_last_day
             (add_months (getdate (Asset.available_for_use_date a))
                ((Schedule.number_of_depreciations_booked s - 1) * freq))
      else add_months
             (add_days (getdate (Asset.available_for_use_date a)) (-1))
             (Schedule.number_of_depreciations_booked s * freq) in
    '(amount, _, _) <-
      _get_pro_rata_amt r (depreciation_amount st) from_date
                        (FB.depreciation_start_date r) wdv;;
    Ok (amount, a, schedule_date st)
  else if has_pro_rata E && (n =? final_number_of_depreciations E - 1) then
    let a :=
      if negb (Flags.increase_in_asset_life (Asset.flags a)) then
        Asset.set_to_date a
          (add_months (getdate (Asset.available_for_use_date a))
             ((n + Schedule.number_of_depreciations_booked s) * freq))
      else a in
    let depreciation_amount_without_pro_rata := depreciation_amount st in
    sd <- read_schedule_date (schedule_date st);;
    '(amount, days, _) <-
      _get_pro_rata_amt r (depreciation_amount st) sd
                        (getdate (Asset.to_date a)) wdv;;
    amount <-
      get_adjusted_depreciation_amount s (rows st)
        depreciation_amount_without_pro_rata amount;;
    Ok (amount, a, Some (add_days sd days))
  else Ok (depreciation_amount st, a, schedule_date st).

(** The amount of the previous row, as read at the top of the loop. *)
Definition prev_depreciation_amount (n : Z) (rows : list SRow.t) : Q :=
  if (0 <? n) && (n - 1 <? Z.of_nat (List.length rows)) then
    match nth_error rows (Z.to_nat (n - 1)) with
    | Some d => SRow.depreciation_amount d
    | None => 0%Q
    end
  else 0%Q.

(** The nominal schedule date of period [n]; kept from the previous iteration
    for the extra pro-rata period. *)
Definition nominal_schedule_date (E : LoopEnv) (n : Z) (previous : option date)
  : option date :=
  let final := final_number_of_depreciations E in
  if negb (has_pro_rata E) || ((n <? final - 1) || (final =? 2)) then
    let d := add_months (FB.depreciation_start_date (row E))
                        (n * FB.frequency_of_depreciation (row E)) in
    Some (if should_get_last_day E then get_last_day d else d)
  else previous.

(** "if asset is being sold or scrapped": one pro-rata row, then [break]. *)
Definition disposal_from_date (E : LoopEnv) (st : Locals) : date :=
  match rev (rows st) with
  | last :: _ => SRow.schedule_date last
  | [] =>
      add_months (getdate (Asset.available_for_use_date (asset_doc st)))
        (Asset.number_of_depreciations_booked (asset_doc st)
         * FB.frequency_of_depreciation (row E))
  end.

Definition dispose (E : LoopEnv) (disposal : date) (st : Locals)
  : result Locals :=
  '(amount, _, _) <-
    _get_pro_rata_amt (row E) (depreciation_amount st)
                      (disposal_from_date E st) disposal false;;
  let rows' :=
    if Qltb 0 amount then add_depr_schedule_row (rows st) disposal amount
    else rows st in
  Ok (mkLocals rows' (asset_doc st) (value_after_depreciation st)
               (skip_row st) amount (schedule_date st)).

(** The end of the loop body: skip a zero amount, reduce the running value,
    adjust the amount to the expected value after useful life, append. *)
Definition append_period (E : LoopEnv) (n : Z) (st : Locals) : result Locals :=
  let amount := depreciation_amount st in
  if negb (truthy amount) then Ok st
  else
    let value := (value_after_depreciation st
                  - flt amount (Some gross_precision))%Q in
    let expected := FB.expected_value_after_useful_life (row E) in
    let adjust :=
      truthy expected
      && (((n =? final_number_of_depreciations E - 1)
           && negb (Qeq_bool value expected))
          || Qltb value expected) in
    let amount := if adjust then (amount + (value - expected))%Q else amount in
    let skip := if adjust then true else skip_row st in
    if Qltb 0 (flt amount (Some gross_precision)) then
      sd <- read_schedule_date (schedule_date st);;
      Ok (mkLocals (add_depr_schedule_row (rows st) sd amount) (asset_doc st)
                   value skip amount (schedule_date st))
    else Ok (mkLocals (rows st) (asset_doc st) value skip amount
                      (schedule_date st)).

(** One iteration of [for n in range(start, final_number_of_depreciations)]. *)
Definition loop_body (E : LoopEnv) (n : Z) (st : Locals)
  : result (control * Locals) :=
  if skip_row st then Ok (Next, st) else
  amount <-
    get_depreciation_amount (asset_doc st) (value_after_depreciation st) (row E)
      n (prev_depreciation_amount n (rows st))
      (has_wdv_or_dd_non_yearly_pro_rata E)
      (number_of_pending_depreciations E);;
  let st := mkLocals (rows st) (asset_doc st) (value_after_depreciation st)
                     (skip_row st) amount
                     (nominal_schedule_date E n (schedule_date st)) in
  match date_of_disposal E with
  | Some disposal =>
      st' <- dispose E disposal st;;
      Ok (Break, st')
  | None =>
      '(amount, a, sd) <- boundary_pro_rata E n st;;
      st' <- append_period E n
               (mkLocals (rows st) a (value_after_depreciation st)
                         (skip_row st) amount sd);;
      Ok (Next, st')
  end.

Fixpoint run_loop (E : LoopEnv) (ns : list Z) (st : Locals) : result Locals :=
  match ns with
  | [] => Ok st
  | n :: ns' =>
      '(c, st') <- loop_body E n st;;
      match c with
      | Break => Ok st'
      | Next => run_loop E ns' st'
      end
  end.

(** [range(start, stop)]. *)
Definition range (start stop : Z) : list Z :=
  map (fun k => start + Z.of_nat k) (seq 0 (Z.to_nat (stop - start))).

(** The documents a generation call works on: [asset_doc], [row], [self]. *)
Record World : Type := mkWorld {
  w_asset : Asset.t;
  w_row : FB.t;
  w_self : Schedule.t
}.

Definition make_loop_env (asset_doc : Asset.t) (row : FB.t) (self : Schedule.t)
    (start : Z) (date_of_disposal : option date) : LoopEnv :=
  let final_number_of_depreciations :=
    FB.total_number_of_depreciations row
    - Schedule.number_of_depreciations_booked self in
  let has_pro_rata := _check_is_pro_rata asset_doc row false in
  let final_number_of_depreciations :=
    if has_pro_rata then final_number_of_depreciations + 1
    else final_number_of_depreciations in
  let has_wdv_or_dd_non_yearly_pro_rata :=
    if is_wdv_or_dd (FB.depreciation_method row)
       && negb (FB.frequency_of_depreciation row =? 12)
    then _check_is_pro_rata asset_doc row true
    else false in
  mkLoopEnv self row date_of_disposal final_number_of_depreciations
    has_pro_rata has_wdv_or_dd_non_yearly_pro_rata
    (is_last_day_of_the_month (FB.depreciation_start_date row))
    (final_number_of_depreciations - start).

Definition is_truthy_opt (v : option Q) : bool :=
  match v with
  | Some v => truthy v
  | None => false
  end.

(** "if not value_after_depreciation: value_after_depreciation = ...". *)
Definition starting_value (value_after_depreciation : option Q)
    (asset_doc : Asset.t) (row : FB.t) : Q :=
  if is_truthy_opt value_after_depreciation
  then match value_after_depreciation with Some v => v | None => 0%Q end
  else _get_value_after_depreciation_for_making_schedule asset_doc row.

(** [_make_depr_schedule].  [row.db_update()] writes [row] to the database
    and has no effect on the documents in memory. *)
Definition _make_depr_schedule (w : World) (start : Z)
    (date_of_disposal : option date) (update_asset_finance_book_row : bool)
    (value_after_depreciation : option Q) : result World :=
  '(asset, fb_row) <- validate_asset_finance_books (w_asset w) (w_row w);;
  let value := starting_value value_after_depreciation asset fb_row in
  let fb_row := FB.set_value_after_depreciation fb_row value in
  let E := make_loop_env asset fb_row (w_self w) start date_of_disposal in
  st <- run_loop E (range start (final_number_of_depreciations E))
          (mkLocals (Schedule.depreciation_schedule (w_self w)) asset value
                    false 0%Q None);;
  Ok (mkWorld (asset_doc st) fb_row
              (Schedule.set_depreciation_schedule (w_self w) (rows st))).

Definition make_depr_schedule (w : World) (date_of_disposal : option date)
    (update_asset_finance_book_row : bool) (value_after_depreciation : option Q)
  : result World :=
  match Asset.available_for_use_date (w_asset w) with
  | None => Ok w
  | Some _ =>
      let '(start, self) := clear_depr_schedule (w_self w) in
      _make_depr_schedule (mkWorld (w_asset w) (w_row w) self) start
        date_of_disposal update_asset_finance_book_row value_after_depreciation
  end.

(** ** Accumulated-depreciation reconciler *)

Definition straight_line_idx (self : Schedule.t) : list Z :=
  if is_sl_or_manual (Schedule.depreciation_method self)
  then map SRow.idx (Schedule.depreciation_schedule self)
  else [].

(** [max] of a non-empty list. *)
Definition list_max (l : list Z) : Z :=
  match l with
  | [] => 0
  | x :: l' => fold_left Z.max l' x
  end.

Definition is_none {A : Type} (o : option A) : bool :=
  match o with
  | Some _ => false
  | None => true
  end.

(** [not accumulated_depreciation]: the running total is [None] or zero. *)
Definition not_accumulated (acc : option Q) : bool :=
  match acc with
  | Some a => negb (truthy a)
  | None => true
  end.

(** The constants of the reconciler's loop. *)
Record ReconcileEnv : Type := mkReconcileEnv {
  r_opening : Q;
  r_expected : Q;
  r_decrease_flag : bool;
  r_ignore_booked_entry : bool;
  (** [Some (max(straight_line_idx) - 1)] when the adjustment applies *)
  r_adjusted_index : option Z
}.

(** The body of [for i, d in enumerate(...)], on the rows [done] already
    visited (as the loop left them) and the rows [todo] still to visit. *)
Fixpoint reconcile_loop (R : ReconcileEnv) (i : Z) (done todo : list SRow.t)
    (accumulated_depreciation : option Q) (value_after_depreciation : Q)
  : result (list SRow.t) :=
  match todo with
  | [] => Ok done
  | d :: rest =>
      if r_ignore_booked_entry R && is_truthy_str (SRow.journal_entry d) then
        reconcile_loop R (i + 1) (done ++ [d]) rest
                       accumulated_depreciation value_after_depreciation
      else
        let accumulated_depreciation :=
          if not_accumulated accumulated_depreciation then
            if (0 <? i) && r_decrease_flag R then
              match nth_error done (Z.to_nat (i - 1)) with
              | Some prev => SRow.accumulated_depreciation_amount prev
              | None => None
              end
            else Some (flt (r_opening R) None)
          else accumulated_depreciation in
        let depreciation_amount :=
          flt (SRow.depreciation_amount d) (Some amount_precision) in
        let value_after_depreciation :=
          (value_after_depreciation - flt depreciation_amount None)%Q in
        let depreciation_amount :=
          match r_adjusted_index R with
          | Some k =>
              if i =? k then
                (depreciation_amount
                 + flt (value_after_depreciation - flt (r_expected R) None)
                       (Some amount_precision))%Q
              else depreciation_amount
          | None => depreciation_amount
          end in
        match accumulated_depreciation with
        | None => Raise TypeError
        | Some acc =>
            let acc := (acc + depreciation_amount)%Q in
            reconcile_loop R (i + 1)
              (done ++ [SRow.set_amounts d depreciation_amount
                          (flt acc (Some accumulated_precision))])
              rest (Some acc) value_after_depreciation
        end
  end.

Definition make_reconcile_env (asset_doc : Asset.t) (row : FB.t)
    (self : Schedule.t) (date_of_disposal date_of_return : option date)
    (ignore_booked_entry : bool) : ReconcileEnv :=
  mkReconcileEnv
    (Schedule.opening_accumulated_depreciation self)
    (FB.expected_value_after_useful_life row)
    (Flags.decrease_in_asset_value_due_to_value_adjustment
       (Asset.flags asset_doc))
    ignore_booked_entry
    (match straight_line_idx self with
     | [] => None
     | l => if is_none date_of_disposal && is_none date_of_return
            then Some (list_max l - 1) else None
     end).

Definition set_accumulated_depreciation (w : World)
    (date_of_disposal date_of_return : option date)
    (ignore_booked_entry : bool) : result World :=
  let R := make_reconcile_env (w_asset w) (w_row w) (w_self w)
             date_of_disposal date_of_return ignore_booked_entry in
  rows' <- reconcile_loop R 0 [] (Schedule.depreciation_schedule (w_self w))
             None (flt (FB.value_after_depreciation (w_row w)) None);;
  Ok (mkWorld (w_asset w) (w_row w)
              (Schedule.set_depreciation_schedule (w_self w) rows')).

(** [make_depr_schedule] followed by [set_accumulated_depreciation], as in
    [prepare_draft_asset_depr_schedule_data] and
    [make_new_active_asset_depr_schedules_and_cancel_current_ones]. *)
Definition regenerate (w : World) (date_of_disposal date_of_return : option date)
    (value_after_depreciation : option Q) (ignore_booked_entry : bool)
  : result World :=
  w' <- make_depr_schedule w date_of_disposal true value_after_depreciation;;
  set_accumulated_depreciation w' date_of_disposal date_of_return
                               ignore_booked_entry.

(** ** Vocabulary of the properties *)

(** The reconciler passes over a row: [ignore_booked_entry and d.journal_entry]. *)
Definition skipped (R : ReconcileEnv) (d : SRow.t) : bool :=
  r_ignore_booked_entry R && is_truthy_str (SRow.journal_entry d).

(** What the reconciler may change in a row: nothing in a row it passes
    over, only the two amounts in the others. *)
Definition reconciled_from (R : ReconcileEnv) (d d' : SRow.t) : Prop :=
  SRow.idx d' = SRow.idx d
  /\ SRow.schedule_date d' = SRow.schedule_date d
  /\ SRow.journal_entry d' = SRow.journal_entry d
  /\ (skipped R d = true -> d' = d).

(** The running total of the amounts of [rows], from [b]. *)
Definition running_total (b : Q) (rows : list SRow.t) : Q :=
  fold_left (fun s d => (s + SRow.depreciation_amount d)%Q) rows b.

(** The reconciler's [value_after_depreciation] after visiting [rows], from [v]. *)
Definition running_value (v : Q) (rows : list SRow.t) : Q :=
  fold_left
    (fun v d => (v - rounded (SRow.depreciation_amount d) amount_precision)%Q)
    rows v.

Definition sum_amounts (rows : list SRow.t) : Q := running_total 0 rows.

(** Rows numbered 1, 2, ... as the document model numbers them. *)
Definition numbered (rows : list SRow.t) : Prop :=
  forall j d, nth_error rows j = Some d -> SRow.idx d = Z.of_nat j + 1.

(** The value the running total is resumed from at row [i]: "if not
    accumulated_depreciation: ...". *)
Definition resume_from (R : ReconcileEnv) (i : Z) (done : list SRow.t)
    (acc : option Q) : option Q :=
  if not_accumulated acc then
    if (0 <? i) && r_decrease_flag R then
      match nth_error done (Z.to_nat (i - 1)) with
      | Some prev => SRow.accumulated_depreciation_amount prev
      | None => None
      end
    else Some (flt (r_opening R) None)
  else acc.

(** [rows'] is [rows] followed by rows numbered on from it. *)
Definition appended (rows rows' : list SRow.t) : Prop :=
  exists extra,
    rows' = rows ++ extra
    /\ forall j d, nth_error extra j = Some d ->
                   SRow.idx d = Z.of_nat (List.length rows + j) + 1.

End Engine.

(** ** The environment as shipped

    A concrete [Frappe]: the proleptic Gregorian calendar of Python's
    [datetime], month arithmetic that clamps the day to the end of the month
    (dateutil's [relativedelta]), rounding half to even at two decimal places,
    a validation that accepts every document and no regional override. *)

Module Shipped.

Definition is_leap (y : Z) : bool :=
  ((y mod 4 =? 0) && negb (y mod 100 =? 0)) || (y mod 400 =? 0).

Definition days_in_month (y m : Z) : Z :=
  if m =? 2 then (if is_leap y then 29 else 28)
  else if (m =? 4) || (m =? 6) || (m =? 9) || (m =? 11) then 30
  else 31.

(** Days since 1970-01-01. *)
Definition days_from_civil (d : date) : Z :=
  let y := if month d <=? 2 then year d - 1 else year d in
  let era := y / 400 in
  let yoe := y - era * 400 in
  let mp := if 2 <? month d then month d - 3 else month d + 9 in
  let doy := (153 * mp + 2) / 5 + day d - 1 in
  let doe := yoe * 365 + yoe / 4 - yoe / 100 + doy in
  era * 146097 + doe - 719468.

Definition civil_from_days (z : Z) : date :=
  let z := z + 719468 in
  let era := z / 146097 in
  let doe := z - era * 146097 in
  let yoe := (doe - doe / 1460 + doe / 36524 - doe / 146096) / 365 in
  let doy := doe - (365 * yoe + yoe / 4 - yoe / 100) in
  let mp := (5 * doy + 2) / 153 in
  let d := doy - (153 * mp + 2) / 5 + 1 in
  let m := if mp <? 10 then mp + 3 else mp - 9 in
  mkdate (if m <=? 2 then yoe + era * 400 + 1 else yoe + era * 400) m d.

Definition add_days (d : date) (n : Z) : date :=
  civil_from_days (days_from_civil d + n).

Definition add_months (d : date) (n : Z) : date :=
  let total := year d * 12 + (month d - 1) + n in
  let y := total / 12 in
  let m := total mod 12 + 1 in
  mkdate y m (Z.min (day d) (days_in_month y m)).

Definition date_diff (a b : date) : Z := days_from_civil a - days_from_civil b.

Definition month_diff (a b : date) : Z :=
  (year a - year b) * 12 + month a - month b + 1.

Definition get_first_day (d : date) : date := mkdate (year d) (month d) 1.

Definition get_last_day (d : date) : date :=
  mkdate (year d) (month d) (days_in_month (year d) (month d)).

Definition is_last_day_of_the_month (d : date) : bool :=
  days_in_month (year d) (month d) =? day d.

(** Round half to even. *)
Definition round_half_even (t : Q) : Z :=
  let f := Qfloor t in
  let frac := (t - inject_Z f)%Q in
  match (frac ?= 1 # 2)%Q with
  | Lt => f
  | Gt => f + 1
  | Eq => if Z.even f then f else f + 1
  end.

Definition rounded (x : Q) (p : Z) : Q :=
  let scale := Qpower (inject_Z 10) p in
  Qred (inject_Z (round_half_even (x * scale)) / scale)%Q.

#[export] Instance frappe : Frappe :=
  Build_Frappe (mkdate 2024 1 1) add_days add_months date_diff month_diff
    get_first_day get_last_day is_last_day_of_the_month rounded
    (fun _ _ => 2) (fun a r => Ok (a, r)) None.

End Shipped.

(** ** Uniqueness validation

    The stored Asset Depreciation Schedule documents are a list, in the order
    in which the database returns them. *)

Module Lifecycle.

Definition store : Type := list Schedule.t.

(** A filter triple [[field, operator, value]] of [frappe.db.exists]. *)
Inductive operator : Type :=
| OpEq (value : string)
| OpIsNotSet
| OpLt (value : Z).

Definition filter : Type := (string * operator)%type.

Definition satisfies (doc : Schedule.t) (f : filter) : bool :=
  let '(field, op) := f in
  if String.eqb field "asset" then
    match op with
    | OpEq v => String.eqb (Schedule.asset doc) v
    | _ => false
    end
  else if String.eqb field "finance_book" then
    match op with
    | OpEq v => String.eqb (Schedule.finance_book doc) v
    | OpIsNotSet => String.eqb (Schedule.finance_book doc) ""
    | OpLt _ => false
    end
  else if String.eqb field "docstatus" then
    match op with
    | OpLt n => Schedule.docstatus doc <? n
    | _ => false
    end
  else false.

(** Modelled from the spec: [frappe.db.exists] is not among the sources.  Its
    result is the name of a stored document that satisfies every filter (the
    first one the database returns), or [None].  The spec only fixes what it
    is used for: finding another non-cancelled schedule of the same
    (asset, finance-book) pair. *)
Definition db_exists (db : store) (filters : list filter) : option string :=
  match List.filter (fun doc => forallb (satisfies doc) filters) db with
  | doc :: _ => Some (Schedule.name doc)
  | [] => None
  end.

Definition duplicate_with_finance_book : string :=
  "Asset Depreciation Schedule {0} for Asset {1} and Finance Book {2} already exists.".

Definition duplicate_without_finance_book : string :=
  "Asset Depreciation Schedule {0} for Asset {1} already exists.".

Definition validate_another_asset_depr_schedule_does_not_exist
    (db : store) (self : Schedule.t) : result unit :=
  let has_finance_book := negb (String.eqb (Schedule.finance_book self) "") in
  let finance_book_filter :=
    if has_finance_book
    then ("finance_book"%string, OpEq (Schedule.finance_book self))
    else ("finance_book"%string, OpIsNotSet) in
  let asset_depr_schedule :=
    db_exists db [("asset"%string, OpEq (Schedule.asset self));
                  finance_book_filter;
                  ("docstatus"%string, OpLt 2)] in
  match asset_depr_schedule with
  | Some found =>
      if negb (String.eqb found "") && negb (String.eqb found (Schedule.name self))
      then
        if has_finance_book then
          Raise (ValidationError duplicate_with_finance_book
                   [found; Schedule.asset self; Schedule.finance_book self])
        else
          Raise (ValidationError duplicate_without_finance_book
                   [found; Schedule.asset self])
      else Ok tt
  | None => Ok tt
  end.

Definition validate (db : store) (self : Schedule.t) : result unit :=
  validate_another_asset_depr_schedule_does_not_exist db self.

Definition set_docstatus (s : Schedule.t) (n : Z) : Schedule.t :=
  Schedule.mk (Schedule.name s) (Schedule.asset s) (Schedule.finance_book s) n
    (Schedule.opening_accumulated_depreciation s)
    (Schedule.number_of_depreciations_booked s)
    (Schedule.depreciation_method s) (Schedule.depreciation_schedule s).

(** Replace the stored document named like [self] by [self]. *)
Definition db_update (db : store) (self : Schedule.t) : store :=
  map (fun doc =>
         if String.eqb (Schedule.name doc) (Schedule.name self) then self
         else doc) db.

(** Modelled from the spec: [Document.insert] is not among the sources.
    "Uniqueness invariant enforced before any Draft is persisted": [validate]
    runs first, and only then are the document and its rows written, as a
    draft. *)
Definition insert (db : store) (self : Schedule.t) : result store :=
  _ <- validate db self;;
  Ok (db ++ [set_docstatus self 0]).

(** Modelled from the spec: [Document.save] is not among the sources.  "Draft
    may be recomputed in place any number of times": [validate] runs, then
    the stored draft is replaced. *)
Definition save (db : store) (self : Schedule.t) : result store :=
  _ <- validate db self;;
  Ok (db_update db (set_docstatus self 0)).

(** Modelled from the spec: [Document.submit] is not among the sources.
    "Draft -> Active (submit)": [validate] runs, then the document is stored
    with docstatus 1 ([on_submit] sets its status to Active). *)
Definition submit (db : store) (self : Schedule.t) : result store :=
  _ <- validate db self;;
  Ok (db_update db (set_docstatus self 1)).

(** Modelled from the spec: [Document.cancel] is not among the sources.
    "Active -> Cancelled (cancel)": the document is stored with docstatus 2
    ([on_cancel] sets its status to Cancelled). *)
Definition cancel (db : store) (self : Schedule.t) : store :=
  db_update db (set_docstatus self 2).

Definition stored (db : store) (name : string) : Prop :=
  exists doc, In doc db /\ Schedule.name doc = name.

(** The stores the lifecycle operations can produce from an empty one. *)
Inductive reachable : store -> Prop :=
| reach_empty : reachable []
| reach_insert db self db' :
    reachable db -> Schedule.name self <> ""%string ->
    ~ stored db (Schedule.name self) ->
    insert db self = Ok db' -> reachable db'
| reach_save db self db' :
    reachable db -> save db self = Ok db' -> reachable db'
| reach_submit db self db' :
    reachable db -> submit db self = Ok db' -> reachable db'
| reach_cancel db self :
    reachable db -> reachable (cancel db self).

Definition same_pair (a b : Schedule.t) : Prop :=
  Schedule.asset a = Schedule.asset b
  /\ Schedule.finance_book a = Schedule.finance_book b.

Definition non_cancelled (a : Schedule.t) : Prop := Schedule.docstatus a < 2.

(** At most one non-cancelled schedule per (asset, finance-book) pair. *)
Definition unique (db : store) : Prop :=
  forall a b, In a db -> In b db -> non_cancelled a -> non_cancelled b ->
              same_pair a b -> Schedule.name a = Schedule.name b.

Definition matches (self doc : Schedule.t) : Prop :=
  Schedule.asset doc = Schedule.asset self
  /\ Schedule.finance_book doc = Schedule.finance_book self
  /\ Schedule.docstatus doc < 2.

Definition pair_filters (self : Schedule.t) : list filter :=
  [("asset"%string, OpEq (Schedule.asset self));
   (if negb (String.eqb (Schedule.finance_book self) "")
    then ("finance_book"%string, OpEq (Schedule.finance_book self))
    else ("finance_book"%string, OpIsNotSet));
   ("docstatus"%string, OpLt 2)].

Definition named (db : store) : Prop :=
  forall doc, In doc db -> Schedule.name doc <> ""%string.

Definition is_duplicate_error (r : result unit) : Prop :=
  exists template args, r = Raise (ValidationError template args).

End Lifecycle.

(** * Worked schedules in the shipped environment *)

Module Examples.
Import Shipped.

Definition no_flags : Flags.t := Flags.mk false false false.

Definition amounts (r : result World) : option (list Q) :=
  match r with
  | Ok w => Some (map (fun d => Qred (SRow.depreciation_amount d))
                      (Schedule.depreciation_schedule (w_self w)))
  | Raise _ => None
  end.

Definition accumulated (r : result World) : option (list (option Q)) :=
  match r with
  | Ok w => Some (map (fun d => option_map Qred
                                  (SRow.accumulated_depreciation_amount d))
                      (Schedule.depreciation_schedule (w_self w)))
  | Raise _ => None
  end.

Definition dates (r : result World) : option (list (date * option string)) :=
  match r with
  | Ok w => Some (map (fun d => (SRow.schedule_date d, SRow.journal_entry d))
                      (Schedule.depreciation_schedule (w_self w)))
  | Raise _ => None
  end.

Definition world_of (r : result World) (otherwise : World) : World :=
  match r with
  | Ok w => w
  | Raise _ => otherwise
  end.

(** Straight line, 1000 over three months from 2020-01-31, asset available
    from 2020-01-01: no partial period. *)
Definition sl3 : World :=
  mkWorld
    (Asset.mk "ASSET-1" 0 1000 0 0 (Some (mkdate 2020 1 1)) None no_flags)
    (FB.mk "" "Straight Line" 3 1 0 0 false (mkdate 2020 1 31) 0)
    (Schedule.mk "ADS-1" "ASSET-1" "" 0 0 0 "Straight Line" []).

Definition sl3_reconciled : World :=
  Eval vm_compute in world_of (regenerate sl3 None None None false) sl3.

(** The written-down-value case of the specification: 120000 at 20% a year
    over five years, no expected value after useful life. *)
Definition wdv5 : World :=
  mkWorld
    (Asset.mk "ASSET-2" 0 120000 0 0 (Some (mkdate 2020 1 1)) None no_flags)
    (FB.mk "" "Written Down Value" 5 12 20 0 false (mkdate 2020 12 31) 0)
    (Schedule.mk "ADS-2" "ASSET-2" "" 0 0 0 "Written Down Value" []).

(** A submitted straight-line asset, 300 over three months, whose first
    depreciation is booked; [decrease] sets the
    decrease-in-asset-value-due-to-value-adjustment flag. *)
Definition booked_first (decrease : bool) : World :=
  mkWorld
    (Asset.mk "ASSET-3" 1 300 0 0 (Some (mkdate 2020 1 1)) None
              (Flags.mk false false decrease))
    (FB.mk "" "Straight Line" 3 1 0 0 false (mkdate 2020 1 31) 200)
    (Schedule.mk "ADS-3" "ASSET-3" "" 1 0 0 "Straight Line"
       [SRow.mk 1 (mkdate 2020 1 31) 100 (Some 100%Q) (Some "JE-1"%string);
        SRow.mk 2 (mkdate 2020 2 29) 100 (Some 200%Q) None;
        SRow.mk 3 (mkdate 2020 3 31) 100 (Some 300%Q) None]).

Definition booked_first_generated : World :=
  Eval vm_compute in
    world_of (make_depr_schedule (booked_first true) None true None)
             (booked_first true).

(** A draft straight-line schedule whose second row is booked and whose
    first row is not. *)
Definition booked_second : World :=
  mkWorld
    (Asset.mk "ASSET-4" 0 300 0 0 (Some (mkdate 2020 1 1)) None no_flags)
    (FB.mk "" "Straight Line" 3 1 0 0 false (mkdate 2020 1 31) 0)
    (Schedule.mk "ADS-4" "ASSET-4" "" 0 0 0 "Straight Line"
       [SRow.mk 1 (mkdate 2020 1 31) 100 (Some 100%Q) None;
        SRow.mk 2 (mkdate 2020 2 15) 150 (Some 250%Q) (Some "JE-2"%string);
        SRow.mk 3 (mkdate 2020 3 31) 50 (Some 300%Q) None]).

(** Double declining balance over one yearly period: the rate is 200%. *)
Definition ddb1 : World :=
  mkWorld
    (Asset.mk "ASSET-5" 0 1000 0 0 (Some (mkdate 2020 1 1)) None no_flags)
    (FB.mk "" "Double Declining Balance" 1 12 200 0 false (mkdate 2020 12 31) 0)
    (Schedule.mk "ADS-5" "ASSET-5" "" 0 0 0 "Double Declining Balance" []).

(** An asset without an available-for-use date. *)
Definition undated : World :=
  mkWorld
    (Asset.mk "ASSET-6" 0 1000 0 0 None None no_flags)
    (FB.mk "" "Straight Line" 3 1 0 0 false (mkdate 2020 1 31) 0)
    (Schedule.mk "ADS-6" "ASSET-6" "" 0 0 0 "Straight Line" []).

(** A policy whose method is none of the four. *)
Definition unknown_method : World :=
  mkWorld
    (Asset.mk "ASSET-7" 0 1000 0 0 (Some (mkdate 2020 1 1)) None no_flags)
    (FB.mk "" "Sum of Years Digits" 2 12 20 0 false (mkdate 2020 12 31) 0)
    (Schedule.mk "ADS-7" "ASSET-7" "" 0 0 0 "Sum of Years Digits" []).

(** An existing asset, one depreciation booked before (opening accumulated
    depreciation 100), available from 2020-01-15, twelve monthly periods
    left from 2020-02-29: the first period is partial. *)
Definition opening_partial : World :=
  mkWorld
    (Asset.mk "ASSET-8" 0 1300 100 1 (Some (mkdate 2020 1 15)) None no_flags)
    (FB.mk "" "Straight Line" 13 1 0 0 false (mkdate 2020 2 29) 0)
    (Schedule.mk "ADS-8" "ASSET-8" "" 0 100 1 "Straight Line" []).

(** Straight line, 12000 over twelve months, available from 2020-01-17. *)
Definition sl12 : World :=
  mkWorld
    (Asset.mk "ASSET-9" 0 12000 0 0 (Some (mkdate 2020 1 17)) None no_flags)
    (FB.mk "" "Straight Line" 12 1 0 0 false (mkdate 2020 1 31) 0)
    (Schedule.mk "ADS-9" "ASSET-9" "" 0 0 0 "Straight Line" []).

(** A written-down-value policy at 90% a year with an expected value of 20,
    and the loop state in which the running value is 100. *)
Definition steep_env : LoopEnv :=
  mkLoopEnv (Schedule.mk "ADS-15" "ASSET-15" "" 0 0 0 "Written Down Value" [])
    (FB.mk "" "Written Down Value" 5 12 90 20 false (mkdate 2020 12 31) 100)
    None 5 false false true 5.

Definition steep_state : Locals :=
  mkLocals [] (Asset.mk "ASSET-15" 0 1000 0 0 (Some (mkdate 2020 1 1)) None
                        no_flags)
           100 false 0 None.

(** An existing asset written down at 90% a year to an expected value of
    1000: 2200 with an opening accumulated depreciation of 1000, one
    depreciation booked before, available from 2020-01-15, two yearly
    periods left from 2021-12-31 (the first one is partial). *)
Definition opening_steep : World :=
  mkWorld
    (Asset.mk "ASSET-16" 0 2200 1000 1 (Some (mkdate 2020 1 15)) None no_flags)
    (FB.mk "" "Written Down Value" 3 12 90 1000 false (mkdate 2021 12 31) 0)
    (Schedule.mk "ADS-16" "ASSET-16" "" 0 1000 1 "Written Down Value" []).

Definition stored_draft : Schedule.t :=
  Schedule.mk "ADS-11" "ASSET-11" "" 0 0 0 "Straight Line" [].

Definition second_draft : Schedule.t :=
  Schedule.mk "ADS-12" "ASSET-11" "" 0 0 0 "Straight Line" [].

(** Written down at 20% a year over three years to an expected value of
    500: 200, 160, and 140 for the last year. *)
Definition wdv3_expected : World :=
  mkWorld
    (Asset.mk "ASSET-17" 0 1000 0 0 (Some (mkdate 2020 1 1)) None no_flags)
    (FB.mk "" "Written Down Value" 3 12 20 500 false (mkdate 2020 12 31) 0)
    (Schedule.mk "ADS-17" "ASSET-17" "" 0 0 0 "Written Down Value" []).

Definition wdv3_expected_reconciled : World :=
  Eval vm_compute in
    world_of (regenerate wdv3_expected None None None false) wdv3_expected.

Definition sl3_generated : World :=
  Eval vm_compute in world_of (make_depr_schedule sl3 None true None) sl3.

Definition booked_first_regenerated : World :=
  Eval vm_compute in
    world_of (regenerate (booked_first true) None None None true)
             (booked_first true).

End Examples.

(** * Further examples *)

Module FurtherExamples.
Import Shipped Examples.


(** The schedule of [booked_first] with the decrease flag, whose booked
    first row has no accumulated amount. *)
Definition booked_unset : World :=
  mkWorld
    (w_asset (booked_first true)) (w_row (booked_first true))
    (Schedule.mk "ADS-3" "ASSET-3" "" 1 0 0 "Straight Line"
       [SRow.mk 1 (mkdate 2020 1 31) 100 None (Some "JE-1"%string);
        SRow.mk 2 (mkdate 2020 2 29) 100 None None;
        SRow.mk 3 (mkdate 2020 3 31) 100 None None]).

(** Straight line, 3000 over three months from 2020-01-31, available from
    2020-01-17: the first period is partial and a fourth one is added; the
    three rows present are booked. *)
Definition partial_left : World :=
  mkWorld
    (Asset.mk "ASSET-13" 1 3000 0 0 (Some (mkdate 2020 1 17)) None no_flags)
    (FB.mk "" "Straight Line" 3 1 0 0 false (mkdate 2020 1 31) 0)
    (Schedule.mk "ADS-13" "ASSET-13" "" 1 0 0 "Straight Line"
       [SRow.mk 1 (mkdate 2020 1 31) 500 (Some 500%Q) (Some "JE-1"%string);
        SRow.mk 2 (mkdate 2020 2 29) 1000 (Some 1500%Q) (Some "JE-2"%string);
        SRow.mk 3 (mkdate 2020 3 31) 1000 (Some 2500%Q) (Some "JE-3"%string)]).

(** [partial_left] followed by the unbooked row of the fourth period. *)
Definition partial_left_draft : World :=
  mkWorld (w_asset partial_left) (w_row partial_left)
    (Schedule.set_depreciation_schedule (w_self partial_left)
       (Schedule.depreciation_schedule (w_self partial_left)
        ++ [SRow.mk 4 (mkdate 2020 4 16) 500 (Some 3000%Q) None])).

(** [booked_first] without the flag, cleared down to its booked row. *)
Definition booked_first_cleared : World :=
  mkWorld (w_asset (booked_first false)) (w_row (booked_first false))
    (snd (clear_depr_schedule (w_self (booked_first false)))).

(** Straight line in the daily pro-rata mode, 9100 over three months from
    2020-01-31, available from 2020-01-01. *)
Definition daily3 : World :=
  mkWorld
    (Asset.mk "ASSET-14" 0 9100 0 0 (Some (mkdate 2020 1 1)) None no_flags)
    (FB.mk "" "Straight Line" 3 1 0 0 true (mkdate 2020 1 31) 0)
    (Schedule.mk "ADS-14" "ASSET-14" "" 0 0 0 "Straight Line" []).

End FurtherExamples.

(** * Vocabulary of the further properties *)

Section FurtherVocabulary.
Context {F : Frappe}.

(** The leading rows of a schedule that carry a journal entry. *)
Fixpoint leading_booked (rows : list SRow.t) : list SRow.t :=
  match rows with
  | d :: rest =>
      if is_truthy_str (SRow.journal_entry d) then d :: leading_booked rest
      else []
  | [] => []
  end.

(** [a'] is [a] up to its [to_date]. *)
Definition same_but_to_date (a a' : Asset.t) : Prop :=
  Asset.name a' = Asset.name a
  /\ Asset.docstatus a' = Asset.docstatus a
  /\ Asset.gross_purchase_amount a' = Asset.gross_purchase_amount a
  /\ Asset.opening_accumulated_depreciation a'
     = Asset.opening_accumulated_depreciation a
  /\ Asset.number_of_depreciations_booked a'
     = Asset.number_of_depreciations_booked a
  /\ Asset.available_for_use_date a' = Asset.available_for_use_date a
  /\ Asset.flags a' = Asset.flags a.

(** A row as the generator appends it under [E]: not booked, not reconciled,
    with a positive amount; dated at the disposal date when there is one. *)
Definition generated_row (E : LoopEnv) (d : SRow.t) : Prop :=
  SRow.journal_entry d = None
  /\ SRow.accumulated_depreciation_amount d = None
  /\ match date_of_disposal E with
     | Some disposal =>
         SRow.schedule_date d = disposal /\ (0 < SRow.depreciation_amount d)%Q
     | None =>
         (0 < rounded (SRow.depreciation_amount d) gross_precision)%Q
     end.

(** [rows'] is [rows] followed by at most [k] rows appended under [E]. *)
Definition grown (E : LoopEnv) (k : nat) (rows rows' : list SRow.t) : Prop :=
  exists extra,
    rows' = rows ++ extra
    /\ (List.length extra <= k)%nat
    /\ Forall (generated_row E) extra.

(** The nominal schedule date of period [n] of the policy [fb]. *)
Definition nominal_date (fb : FB.t) (n : Z) : date :=
  let d := add_months (FB.depreciation_start_date fb)
                      (n * FB.frequency_of_depreciation fb) in
  if is_last_day_of_the_month (FB.depreciation_start_date fb)
  then get_last_day d else d.


(** The end of period [k] in the daily pro-rata mode. *)
Definition period_end (fb : FB.t) (k : Z) : date :=
  get_last_day (add_months (FB.depreciation_start_date fb)
                           (k * FB.frequency_of_depreciation fb)).

Definition Qsum (l : list Q) : Q := fold_right Qplus 0%Q l.


(** The rows of a reducing-balance schedule booked once a year: from the
    value [v] at period [n], [k] rows, each taking [rate] percent of the
    value left by the rounded amounts before it. *)
Fixpoint reducing_rows (fb : FB.t) (rate : Q -> Q) (v : Q) (n : Z) (k : nat)
  : list SRow.t :=
  match k with
  | O => []
  | S k' =>
      let a := (v * (rate v / 100))%Q in
      SRow.mk (n + 1) (nominal_date fb n) a None None
      :: reducing_rows fb rate (v - rounded a gross_precision)%Q (n + 1) k'
  end.

(** Every one of these [k] amounts is nonzero and rounds to a positive
    value. *)
Fixpoint reducing_amounts_positive (rate : Q -> Q) (v : Q) (k : nat) : Prop :=
  match k with
  | O => True
  | S k' =>
      let a := (v * (rate v / 100))%Q in
      truthy a = true
      /\ (0 < rounded a gross_precision)%Q
      /\ reducing_amounts_positive rate (v - rounded a gross_precision)%Q k'
  end.


(** The loop state [st] with [a] for its asset. *)
Definition with_asset (st : Locals) (a : Asset.t) : Locals :=
  mkLocals (rows st) a (value_after_depreciation st) (skip_row st)
           (depreciation_amount st) (schedule_date st).


End FurtherVocabulary.

(** * Properties *)

(** ** Python's modulo on rationals *)

Lemma Qfloor_unique (q : Q) (k : Z) :
  (inject_Z k <= q)%Q -> (q < inject_Z (k + 1))%Q -> Qfloor q = k.
Proof.
  intros Hle Hlt.
  pose proof (Qfloor_le q) as F1.
  pose proof (Qlt_floor q) as F2.
  assert (A : (inject_Z k < inject_Z (Qfloor q + 1))%Q)
    by (eapply Qle_lt_trans; eauto).
  assert (B : (inject_Z (Qfloor q) < inject_Z (k + 1))%Q)
    by (eapply Qle_lt_trans; eauto).
  rewrite <- Zlt_Qlt in A, B. lia.
Qed.

Lemma py_mod_remainder (x y : Q) :
  ~ (y == 0)%Q -> remainder_is x y (py_mod x y).
Proof.
  intros Hy. exists (Qfloor (x / y)). unfold py_mod.
  split; [ring|].
  pose proof (Qfloor_le (x / y)) as F1.
  pose proof (Qlt_floor (x / y)) as F2.
  rewrite inject_Z_plus in F2. change (inject_Z 1) with 1%Q in F2.
  set (k := inject_Z (Qfloor (x / y))) in *.
  assert (X : (x == (x / y) * y)%Q) by (field; exact Hy).
  destruct (Qlt_le_dec 0 y) as [Pos|Neg].
  - left. split.
    + assert ((k * y <= (x / y) * y)%Q) by (apply Qmult_le_compat_r; lra). lra.
    + assert (((x / y) * y < (k + 1) * y)%Q) by (apply Qmult_lt_compat_r; lra).
      lra.
  - right. assert (Neg' : (0 < - y)%Q) by (destruct (Qeq_dec y 0); [tauto|lra]).
    split.
    + assert (((x / y) * (- y) < (k + 1) * (- y))%Q)
        by (apply Qmult_lt_compat_r; lra). lra.
    + assert ((k * (- y) <= (x / y) * (- y))%Q)
        by (apply Qmult_le_compat_r; lra). lra.
Qed.

Lemma remainder_py_mod (x y r : Q) :
  remainder_is x y r -> (py_mod x y == r)%Q.
Proof.
  intros (k & Hx & Hr). unfold py_mod.
  assert (Hy : ~ (y == 0)%Q) by (destruct Hr; lra).
  assert (D : (x / y == inject_Z k + r / y)%Q) by (rewrite Hx; field; exact Hy).
  assert (Fl : Qfloor (x / y) = k).
  { apply Qfloor_unique; rewrite D.
    - assert ((0 <= r / y)%Q); [|lra].
      destruct Hr as [[H1 H2]|[H1 H2]].
      + apply Qle_shift_div_l; lra.
      + setoid_replace (r / y)%Q with ((- r) / (- y))%Q by (field; exact Hy).
        apply Qle_shift_div_l; lra.
    - rewrite inject_Z_plus. change (inject_Z 1) with 1%Q.
      assert ((r / y < 1)%Q); [|lra].
      destruct Hr as [[H1 H2]|[H1 H2]].
      + apply Qlt_shift_div_r; lra.
      + setoid_replace (r / y)%Q with ((- r) / (- y))%Q by (field; exact Hy).
        apply Qlt_shift_div_r; lra. }
  rewrite Fl, Hx. ring.
Qed.

(** ** Floats *)

Lemma nearest_even_comp (t t' : Q) :
  (t == t')%Q -> nearest_even t = nearest_even t'.
Proof.
  intros E. unfold nearest_even.
  rewrite (Qfloor_comp _ _ E).
  assert (C : ((t - inject_Z (Qfloor t') ?= 1 # 2)
               = (t' - inject_Z (Qfloor t') ?= 1 # 2))%Q).
  { apply Qcompare_comp; [rewrite E; reflexivity|reflexivity]. }
  rewrite C. reflexivity.
Qed.

Lemma nearest_even_Z (z : Z) : nearest_even (inject_Z z) = z.
Proof.
  unfold nearest_even. rewrite Qfloor_Z.
  assert (C : ((inject_Z z - inject_Z z ?= 1 # 2) = Lt)%Q).
  { rewrite <- Qlt_alt.
    assert (E : (inject_Z z - inject_Z z == 0)%Q) by ring.
    rewrite E. reflexivity. }
  rewrite C. reflexivity.
Qed.

Lemma Qred_inject_Z (n : Z) : Qred (inject_Z n) = inject_Z n.
Proof.
  unfold Qred, inject_Z.
  pose proof (Z.ggcd_gcd n 1) as G.
  pose proof (Z.ggcd_correct_divisors n 1) as D.
  destruct (Z.ggcd n 1) as [g [aa bb]]. cbn in *.
  rewrite Z.gcd_1_r in G. subst g. destruct D as [D1 D2].
  replace aa with n by lia. replace bb with 1 by lia. reflexivity.
Qed.

Lemma Qpower_2_nonpos (e : Z) : e <= 0 -> (2 ^ e == / inject_Z (2 ^ (- e)))%Q.
Proof.
  intros H. replace e with (- (- e)) at 1 by lia.
  rewrite Qpower_opp. rewrite (Zpower_Qpower 2 (- e)) by lia. reflexivity.
Qed.

Lemma Qlog2_inject_Z_le (n : Z) : 0 < n -> Qlog2 (inject_Z n) <= Z.log2 n.
Proof.
  intros H. unfold Qlog2. cbn [Qnum Qden inject_Z].
  change (Z.log2 1) with 0.
  destruct (Qle_bool _ _); lia.
Qed.

Lemma float64_small_int (n : Z) :
  0 <= n < 2 ^ 53 -> float64 (inject_Z n) = inject_Z n.
Proof.
  intros [H0 H1]. unfold float64.
  destruct (Qeq_bool (inject_Z n) 0) eqn:Ez.
  { apply Qeq_bool_iff in Ez.
    apply (proj1 (inject_Z_injective n 0)) in Ez. subst n. reflexivity. }
  assert (Hn : 0 < n).
  { destruct (Z.eq_dec n 0) as [->|]; [|lia]. discriminate. }
  assert (Hp : (0 <= inject_Z n)%Q)
    by (change (inject_Z 0 <= inject_Z n)%Q; rewrite <- Zle_Qle; lia).
  rewrite (proj2 (Qle_bool_iff 0 (inject_Z n)) Hp).
  set (e := Z.max (Qlog2 (Qabs (inject_Z n)) - 52) (-1074)).
  assert (Ha : Qabs (inject_Z n) = inject_Z n).
  { unfold Qabs, inject_Z. rewrite Z.abs_eq by lia. reflexivity. }
  assert (He : e <= 0).
  { unfold e. rewrite Ha. pose proof (Qlog2_inject_Z_le n Hn).
    assert (Z.log2 n < 53) by (apply Z.log2_lt_pow2; lia). lia. }
  assert (He' : -1074 <= e) by (unfold e; lia).
  rewrite Ha.
  assert (Hpow : (0 < inject_Z (2 ^ (- e)))%Q).
  { change (inject_Z 0 < inject_Z (2 ^ (- e)))%Q. rewrite <- Zlt_Qlt.
    apply Z.pow_pos_nonneg; lia. }
  assert (Es : (inject_Z n / 2 ^ e == inject_Z (n * 2 ^ (- e)))%Q).
  { rewrite (Qpower_2_nonpos e He). rewrite inject_Z_mult. field. lra. }
  rewrite (nearest_even_comp _ _ Es), nearest_even_Z.
  transitivity (Qred (inject_Z n)); [apply Qred_complete|apply Qred_inject_Z].
  rewrite (Qpower_2_nonpos e He). rewrite inject_Z_mult. field. lra.
Qed.

Lemma py_float_small (n : Z) : 0 <= n < 2 ^ 53 -> py_float n = Ok (inject_Z n).
Proof.
  intros H. unfold py_float, to_float. rewrite (float64_small_int n H).
  destruct (Qle_bool (2 ^ 1024) (Qabs (inject_Z n))) eqn:E; [|reflexivity].
  exfalso. apply Qle_bool_iff in E.
  assert (Ha : Qabs (inject_Z n) = inject_Z n).
  { unfold Qabs, inject_Z. rewrite Z.abs_eq by lia. reflexivity. }
  rewrite Ha in E.
  rewrite <- (Zpower_Qpower 2 1024) in E by lia.
  rewrite <- Zle_Qle in E.
  assert (2 ^ 53 <= 2 ^ 1024) by (apply Z.pow_le_mono_r; lia). lia.
Qed.

Lemma py_float_mod_positive (x y : Q) :
  (0 <= x)%Q -> (0 < y)%Q -> py_float_mod x y = Ok (py_mod x y).
Proof.
  intros Hx Hy. unfold py_float_mod.
  destruct (Qeq_bool y 0) eqn:Ey.
  { apply Qeq_bool_iff in Ey. lra. }
  assert (Hq : (0 <= x / y)%Q).
  { apply Qle_shift_div_l; [exact Hy|lra]. }
  assert (Hm : fmod x y = py_mod x y).
  { unfold fmod, py_mod, Qtrunc.
    rewrite (proj2 (Qle_bool_iff 0 (x / y)) Hq). reflexivity. }
  rewrite Hm.
  assert (Hnn : (0 <= py_mod x y)%Q).
  { unfold py_mod. pose proof (Qfloor_le (x / y)) as Hf.
    assert (E : (x == y * (x / y))%Q) by (field; lra).
    assert (y * inject_Z (Qfloor (x / y)) <= y * (x / y))%Q.
    { apply Qmult_le_l; [exact Hy|exact Hf]. }
    lra. }
  assert (S1 : Qltb y 0 = false).
  { unfold Qltb. rewrite (proj2 (Qle_bool_iff 0 y)) by lra. reflexivity. }
  assert (S2 : Qltb (py_mod x y) 0 = false).
  { unfold Qltb. rewrite (proj2 (Qle_bool_iff 0 (py_mod x y)) Hnn). reflexivity. }
  rewrite S1, S2. cbn. rewrite andb_false_r. reflexivity.
Qed.

Section Properties.
Context {F : Frappe}.

(** ** The written-down-value amount *)

(** C6 (as the code has it). For a Written Down Value or Double Declining
    Balance policy whose frequency [f] is not 12, let [per_year] be the
    quotient [12 / f] as the code computes it: the float nearest to 12 / f,
    taken to be positive.  At a period index from 0 to [2 ^ 53] the amount is
    [depreciable_value * f * rate / 1200] exactly at the indices that are
    integer multiples of [per_year], and the previous period's amount at
    every other index.  With the non-yearly pro-rata flag, index 0 is its own
    case ([depreciable_value * rate / 100]), the amount is recomputed at the
    indices that leave the remainder 1 modulo [per_year], and is the previous
    period's amount elsewhere.  When [f] divides 12, [per_year] is 12 / f
    itself, and these indices are the year boundaries. *)
Theorem wdv_amount_recomputed_once_a_year
    (depreciable_value rate prev : Q) (f idx : Z) (per_year : Q) :
  f <> 12 ->
  py_truediv_int 12 f = Ok per_year ->
  (0 < per_year)%Q ->
  0 <= idx < 2 ^ 53 ->
  let recomputed :=
    (depreciable_value * inject_Z f * rate / 1200)%Q in
  let amount flag :=
    get_wdv_or_dd_depr_amount depreciable_value rate f idx prev flag in
  per_year = float64 (12 / inject_Z f)
  /\ ((exists k : Z, inject_Z idx == inject_Z k * per_year)%Q ->
      returns (amount false) recomputed)
  /\ (~ (exists k : Z, inject_Z idx == inject_Z k * per_year)%Q ->
      amount false = Ok prev)
  /\ (idx = 0 -> returns (amount true) (depreciable_value * rate / 100)%Q)
  /\ (idx <> 0 -> remainder_is (inject_Z idx) per_year 1 ->
      returns (amount true) recomputed)
  /\ (idx <> 0 -> ~ remainder_is (inject_Z idx) per_year 1 ->
      amount true = Ok prev)
  /\ (0 < f -> (f | 12) -> (per_year == 12 / inject_Z f)%Q).
Proof.
  intros H12 Hdiv Hpos Hidx recomputed amount.
  assert (Hp : ~ (per_year == 0)%Q) by lra.
  assert (Hfl : py_float idx = Ok (inject_Z idx))
    by (apply py_float_small; exact Hidx).
  assert (Hi0 : (0 <= inject_Z idx)%Q)
    by (change (inject_Z 0 <= inject_Z idx)%Q; rewrite <- Zle_Qle; lia).
  assert (Hmod : py_float_mod (inject_Z idx) per_year
                 = Ok (py_mod (inject_Z idx) per_year))
    by (apply py_float_mod_positive; assumption).
  assert (Hne : (f =? 12) = false) by (apply Z.eqb_neq; exact H12).
  assert (Hrec : (depreciable_value * inject_Z f * (rate / 1200)
                  == recomputed)%Q)
    by (unfold recomputed; field).
  split.
  { unfold py_truediv_int, to_float in Hdiv.
    destruct (f =? 0); [discriminate|].
    destruct (Qle_bool _ _); [discriminate|].
    inversion Hdiv. reflexivity. }
  unfold amount, get_wdv_or_dd_depr_amount. rewrite Hne, Hdiv. cbn [bind].
  rewrite Hfl. cbn [bind]. rewrite Hmod. cbn [bind].
  repeat split.
  - intros (k & Hk).
    assert (R : remainder_is (inject_Z idx) per_year 0).
    { exists k. split; [rewrite Hk; ring|]. left. lra. }
    apply remainder_py_mod in R. apply Qeq_bool_iff in R. rewrite R.
    eexists; split; [reflexivity|exact Hrec].
  - intros Hn.
    destruct (Qeq_bool (py_mod (inject_Z idx) per_year) 0) eqn:E; [|reflexivity].
    exfalso. apply Hn. apply Qeq_bool_iff in E.
    destruct (py_mod_remainder (inject_Z idx) per_year Hp) as (k & Hk & _).
    exists k. rewrite Hk at 1. rewrite E. ring.
  - intros ->. cbn [Z.eqb]. eexists; split; [reflexivity|field].
  - intros Hi R. apply Z.eqb_neq in Hi. rewrite Hi.
    apply remainder_py_mod in R. apply Qeq_bool_iff in R. rewrite R.
    eexists; split; [reflexivity|exact Hrec].
  - intros Hi Hn. apply Z.eqb_neq in Hi. rewrite Hi.
    destruct (Qeq_bool (py_mod (inject_Z idx) per_year) 1) eqn:E; [|reflexivity].
    exfalso. apply Hn. apply Qeq_bool_iff in E.
    destruct (py_mod_remainder (inject_Z idx) per_year Hp) as (k & Hk & Hr).
    exists k. split; [rewrite Hk at 1; rewrite E; ring|].
    rewrite E in Hr. exact Hr.
  - intros Hf Hd.
    assert (Hle : f <= 12) by (apply Z.divide_pos_le; [lia|exact Hd]).
    assert (Hc : f = 1 \/ f = 2 \/ f = 3 \/ f = 4 \/ f = 6).
    { destruct Hd as (z & Hz).
      assert (f = 1 \/ f = 2 \/ f = 3 \/ f = 4 \/ f = 5 \/ f = 6 \/ f = 7
              \/ f = 8 \/ f = 9 \/ f = 10 \/ f = 11) as Hall by lia.
      repeat (destruct Hall as [-> | Hall]); try subst f; try lia; auto 10. }
    destruct Hc as [-> | [-> | [-> | [-> | ->]]]];
      vm_compute in Hdiv; inversion Hdiv; vm_compute; reflexivity.
Qed.

(** ** Generation without an available-for-use date, or with another method *)

(** C7 (as the code has it). A generation call on an asset without an
    available-for-use date returns normally and leaves the documents as they
    were, rows included; and a policy whose method is neither Straight Line nor
    Manual is given the Written Down Value / Double Declining Balance amount,
    whatever the method's name is.  Neither case raises an error. *)
Theorem generation_without_date_or_known_method :
  (forall (w : World) (date_of_disposal : option date) (update : bool)
          (value : option Q),
      Asset.available_for_use_date (w_asset w) = None ->
      make_depr_schedule w date_of_disposal update value = Ok w)
  /\ (forall (asset : Asset.t) (depreciable_value : Q) (fb_row : FB.t) (idx : Z)
             (prev : Q) (flag : bool) (pending : Z),
      FB.depreciation_method fb_row <> "Straight Line"%string ->
      FB.depreciation_method fb_row <> "Manual"%string ->
      get_depreciation_amount asset depreciable_value fb_row idx prev flag
                              pending
      = get_wdv_or_dd_depr_amount depreciable_value
          (get_updated_rate_of_depreciation_for_wdv_and_dd
             asset depreciable_value fb_row)
          (FB.frequency_of_depreciation fb_row) idx prev flag).
Proof.
  split.
  - intros w d u v H. unfold make_depr_schedule. rewrite H. reflexivity.
  - intros asset dv fb idx prev flag pending H1 H2.
    unfold get_depreciation_amount, is_sl_or_manual.
    apply String.eqb_neq in H1, H2. rewrite H1, H2. reflexivity.
Qed.

(** ** The first period of a schedule with opening accumulated depreciation *)

(** One iteration without a disposal date: the period amount, the boundary
    pro-rata, then the end of the loop body. *)
Lemma loop_body_without_disposal (E : LoopEnv) (n : Z) (st : Locals)
    (computed amount : Q) (asset : Asset.t) (sd : option date) :
  date_of_disposal E = None ->
  skip_row st = false ->
  get_depreciation_amount (asset_doc st) (value_after_depreciation st) (row E)
    n (prev_depreciation_amount n (rows st))
    (has_wdv_or_dd_non_yearly_pro_rata E)
    (number_of_pending_depreciations E) = Ok computed ->
  boundary_pro_rata E n
    (mkLocals (rows st) (asset_doc st) (value_after_depreciation st) false
              computed (nominal_schedule_date E n (schedule_date st)))
  = Ok (amount, asset, sd) ->
  loop_body E n st
  = (st' <- append_period E n
              (mkLocals (rows st) asset (value_after_depreciation st) false
                        amount sd);;
     Ok (Next, st')).
Proof.
  intros Hd Hs Hc Hb. unfold loop_body. rewrite Hs, Hc. cbn [bind].
  rewrite Hd. cbn [rows asset_doc value_after_depreciation skip_row].
  rewrite Hb. reflexivity.
Qed.

(** The end of the loop body on a nonzero amount with a schedule date: the
    amount assigned to the period is the amount, less the shortfall when the
    expected value after useful life calls for it. *)
Lemma append_period_assigns (E : LoopEnv) (n : Z) (st : Locals) (sd : date) :
  let amount := depreciation_amount st in
  let expected := FB.expected_value_after_useful_life (row E) in
  let value :=
    (value_after_depreciation st - rounded amount gross_precision)%Q in
  let shortfall :=
    truthy expected
    && (((n =? final_number_of_depreciations E - 1)
         && negb (Qeq_bool value expected))
        || Qltb value expected) in
  let assigned :=
    if shortfall then (amount + (value - expected))%Q else amount in
  truthy amount = true ->
  schedule_date st = Some sd ->
  append_period E n st
  = Ok (mkLocals
          (rows st
           ++ (if Qltb 0 (rounded assigned gross_precision)
               then [SRow.mk (Z.of_nat (List.length (rows st)) + 1) sd assigned
                            None None]
               else []))
          (asset_doc st) value (if shortfall then true else skip_row st)
          assigned (Some sd)).
Proof.
  intros amount expected value shortfall assigned Ha Hsd.
  unfold append_period. fold amount expected. rewrite Ha. cbn [negb flt].
  fold value. fold shortfall. fold assigned. rewrite Hsd.
  destruct (Qltb 0 (rounded assigned gross_precision));
    cbn [read_schedule_date bind]; [reflexivity|].
  rewrite app_nil_r. reflexivity.
Qed.

(** C10 (as the code has it). When a partial first period is detected
    ([has_pro_rata]) on a schedule with a nonzero opening accumulated
    depreciation, outside the WDV/DDB non-yearly pro-rata case and with at
    least one nominal period left, one more period is added to
    [final_number_of_depreciations] and period 0 is given the amount the
    period amount calculator returns for it, without pro-rata.  Only the
    adjustment to the expected value after useful life can change it: when
    that value is not zero and the rounded amount takes the running value
    below it, the shortfall is taken from the amount.  A row with the amount
    so assigned is appended at the nominal date of period 0 if the amount
    rounds to a positive value. *)
Theorem first_period_unprorated_with_opening
    (asset : Asset.t) (fb_row : FB.t) (doc : Schedule.t) (start : Z)
    (st : Locals) (amount : Q) :
  let E := make_loop_env asset fb_row doc start None in
  let expected := FB.expected_value_after_useful_life fb_row in
  let value :=
    (value_after_depreciation st - rounded amount gross_precision)%Q in
  let shortfall := truthy expected && Qltb value expected in
  let assigned :=
    if shortfall then (amount + (value - expected))%Q else amount in
  let first_date :=
    let d := add_months (FB.depreciation_start_date fb_row)
                        (0 * FB.frequency_of_depreciation fb_row) in
    if is_last_day_of_the_month (FB.depreciation_start_date fb_row)
    then get_last_day d else d in
  has_pro_rata E = true ->
  has_wdv_or_dd_non_yearly_pro_rata E = false ->
  truthy (Schedule.opening_accumulated_depreciation doc) = true ->
  0 < FB.total_number_of_depreciations fb_row
      - Schedule.number_of_depreciations_booked doc ->
  skip_row st = false ->
  get_depreciation_amount (asset_doc st) (value_after_depreciation st) fb_row
    0 (prev_depreciation_amount 0 (rows st)) false
    (number_of_pending_depreciations E) = Ok amount ->
  truthy amount = true ->
  final_number_of_depreciations E
  = FB.total_number_of_depreciations fb_row
    - Schedule.number_of_depreciations_booked doc + 1
  /\ exists st',
       loop_body E 0 st = Ok (Next, st')
       /\ depreciation_amount st' = assigned
       /\ value_after_depreciation st' = value
       /\ rows st'
          = rows st
            ++ (if Qltb 0 (rounded assigned gross_precision)
                then [SRow.mk (Z.of_nat (List.length (rows st)) + 1)
                              first_date assigned None None]
                else []).
Proof.
  intros E expected value shortfall assigned first_date Hp Hw Ho Hn Hs Ha Ht.
  assert (Hf : final_number_of_depreciations E
               = FB.total_number_of_depreciations fb_row
                 - Schedule.number_of_depreciations_booked doc + 1).
  { unfold E, make_loop_env in *. simpl in *. rewrite Hp. reflexivity. }
  split; [exact Hf|].
  assert (Hdate : nominal_schedule_date E 0 (schedule_date st)
                  = Some first_date).
  { unfold nominal_schedule_date. rewrite Hp, Hf. cbn [negb orb].
    replace (0 <? _ + 1 - 1) with true by (symmetry; apply Z.ltb_lt; lia).
    reflexivity. }
  assert (Hb : boundary_pro_rata E 0
                 (mkLocals (rows st) (asset_doc st)
                    (value_after_depreciation st) false amount
                    (nominal_schedule_date E 0 (schedule_date st)))
               = Ok (amount, asset_doc st, Some first_date)).
  { unfold boundary_pro_rata.
    replace (self E) with doc by reflexivity.
    rewrite Ho, Hp, Hw, Hf.
    replace (0 =? _ + 1 - 1) with false by (symmetry; apply Z.eqb_neq; lia).
    cbn [Z.eqb andb orb negb depreciation_amount asset_doc schedule_date].
    rewrite Hdate. reflexivity. }
  rewrite (loop_body_without_disposal E 0 st amount amount (asset_doc st)
             (Some first_date)); [|reflexivity|exact Hs| |exact Hb].
  2:{ rewrite Hw. exact Ha. }
  rewrite (append_period_assigns E 0 _ first_date); [|exact Ht|reflexivity].
  cbn [bind depreciation_amount value_after_depreciation rows].
  replace (row E) with fb_row by reflexivity. fold expected value.
  rewrite Hf.
  replace (0 =? _ + 1 - 1) with false by (symmetry; apply Z.eqb_neq; lia).
  cbn [andb orb]. fold shortfall. fold assigned.
  eexists. split; [reflexivity|]. cbn [depreciation_amount
    value_after_depreciation rows]. repeat split; reflexivity.
Qed.

(** ** Disposal *)

Lemma range_cons (start stop : Z) :
  start < stop -> range start stop = start :: range (start + 1) stop.
Proof.
  intros H. unfold range.
  replace (Z.to_nat (stop - start)) with (S (Z.to_nat (stop - (start + 1))))
    by lia.
  cbn [seq map]. f_equal; [lia|].
  rewrite <- seq_shift, map_map. apply map_ext. intros k. lia.
Qed.

(** C5. A generation call with a disposal date, with a period still to
    generate ([start] below the final number of depreciations) and whose
    amounts can be computed, appends one row, and only if its amount is
    positive: the row is dated at the disposal date and carries the pro-rata
    share of the period amount for the days from the last existing row's
    schedule date (from the available-for-use date shifted by the booked
    periods times the frequency when there is no row) to the disposal date.
    Nothing else is appended, whatever the number of remaining periods. *)
Theorem disposal_appends_one_pro_rata_row
    (w : World) (start : Z) (disposal : date) (update : bool)
    (value : option Q) (asset : Asset.t) (fb : FB.t) (amount : Q) :
  validate_asset_finance_books (w_asset w) (w_row w) = Ok (asset, fb) ->
  let value0 := starting_value value asset fb in
  let fb_row := FB.set_value_after_depreciation fb value0 in
  let E := make_loop_env asset fb_row (w_self w) start (Some disposal) in
  let rows0 := Schedule.depreciation_schedule (w_self w) in
  let from_date :=
    match rev rows0 with
    | last :: _ => SRow.schedule_date last
    | [] => add_months (getdate (Asset.available_for_use_date asset))
              (Asset.number_of_depreciations_booked asset
               * FB.frequency_of_depreciation fb)
    end in
  let total_days := get_total_days disposal (FB.frequency_of_depreciation fb) in
  let share :=
    (amount * inject_Z (date_diff disposal from_date) / inject_Z total_days)%Q in
  start < final_number_of_depreciations E ->
  get_depreciation_amount asset value0 fb_row start
    (prev_depreciation_amount start rows0)
    (has_wdv_or_dd_non_yearly_pro_rata E)
    (number_of_pending_depreciations E) = Ok amount ->
  total_days <> 0 ->
  exists w',
    _make_depr_schedule w start (Some disposal) update value = Ok w'
    /\ Schedule.depreciation_schedule (w_self w')
       = rows0 ++ (if Qltb 0 share
                   then [SRow.mk (Z.of_nat (List.length rows0) + 1) disposal
                                share None None]
                   else []).
Proof.
  intros Hv value0 fb_row E rows0 from_date total_days share Hlt Ha Ht.
  unfold _make_depr_schedule. rewrite Hv. cbn [bind].
  fold value0 fb_row E rows0.
  rewrite (range_cons _ _ Hlt). cbn [run_loop].
  unfold loop_body. cbn [skip_row asset_doc value_after_depreciation rows].
  replace (row E) with fb_row by reflexivity.
  rewrite Ha. cbn [bind].
  replace (date_of_disposal E) with (Some disposal) by reflexivity.
  unfold dispose, _get_pro_rata_amt, disposal_from_date.
  cbn [rows depreciation_amount asset_doc].
  replace (row E) with fb_row by reflexivity.
  replace (FB.frequency_of_depreciation fb_row)
    with (FB.frequency_of_depreciation fb) by reflexivity.
  fold from_date total_days.
  unfold py_div.
  destruct (Qeq_bool (inject_Z total_days) 0) eqn:Ez.
  { exfalso. apply Ht. apply Qeq_bool_iff in Ez.
    apply (proj1 (inject_Z_injective total_days 0)). exact Ez. }
  cbn [bind]. fold share.
  eexists. split; [reflexivity|].
  cbn [w_self rows Schedule.set_depreciation_schedule
       Schedule.depreciation_schedule].
  destruct (Qltb 0 share); [reflexivity|].
  symmetry. apply app_nil_r.
Qed.

(** ** The reconciler *)

Ltac reconcile_step H :=
  cbn [reconcile_loop] in H;
  match type of H with
  | (if ?c then _ else _) = Ok _ => destruct c eqn:?
  end;
  [|match type of H with
    | match ?x with Some _ => _ | None => _ end = Ok _ =>
        destruct x eqn:?; [|discriminate H]
    end].

Lemma reconcile_loop_shape (R : ReconcileEnv) (todo : list SRow.t) :
  forall (i : Z) (done : list SRow.t) (acc : option Q) (v : Q) (out : list SRow.t),
    reconcile_loop R i done todo acc v = Ok out ->
    exists todo', out = done ++ todo' /\ Forall2 (reconciled_from R) todo todo'.
Proof.
  induction todo as [|d rest IH]; intros i done acc v out H.
  - cbn in H. inversion H. exists []. split; [symmetry; apply app_nil_r|constructor].
  - reconcile_step H.
    + apply IH in H. destruct H as (todo' & -> & HF).
      exists (d :: todo'). rewrite <- app_assoc. split; [reflexivity|].
      constructor; [|exact HF]. repeat split; reflexivity.
    + apply IH in H. destruct H as (todo' & -> & HF).
      eexists (_ :: todo'). rewrite <- app_assoc. split; [reflexivity|].
      constructor; [|exact HF].
      repeat split; try reflexivity.
      unfold skipped. intros E. congruence.
Qed.

Lemma Forall2_nth_error_l {A B : Type} (P : A -> B -> Prop) (l : list A)
    (l' : list B) :
  Forall2 P l l' ->
  forall j a, nth_error l j = Some a ->
              exists b, nth_error l' j = Some b /\ P a b.
Proof.
  induction 1 as [|a0 b0 l l' H0 H IH]; intros j a Hj.
  - destruct j; discriminate.
  - destruct j as [|j]; cbn in *.
    + inversion Hj; subst. eauto.
    + eauto.
Qed.

Lemma nth_error_app_shift {A : Type} (l l' : list A) (j : nat) :
  nth_error (l ++ l') (List.length l + j) = nth_error l' j.
Proof.
  rewrite nth_error_app2 by lia. f_equal. lia.
Qed.

(** The reconciler does not fail when it visits every row. *)
Lemma reconcile_loop_total (R : ReconcileEnv) (todo : list SRow.t) :
  Forall (fun d => skipped R d = false) todo ->
  forall (i : Z) (done : list SRow.t) (acc : option Q) (v : Q),
    i = Z.of_nat (List.length done) ->
    Forall (fun d => SRow.accumulated_depreciation_amount d <> None) done ->
    exists out, reconcile_loop R i done todo acc v = Ok out.
Proof.
  induction 1 as [|d rest Hd Hrest IH]; intros i done acc v Hi Hdone.
  - eexists. reflexivity.
  - cbn [reconcile_loop]. unfold skipped in Hd. rewrite Hd.
    assert (Hnext : forall d', SRow.accumulated_depreciation_amount d' <> None ->
              i + 1 = Z.of_nat (List.length (done ++ [d']))
              /\ Forall (fun d => SRow.accumulated_depreciation_amount d <> None)
                        (done ++ [d'])).
    { intros d' Hd'. split.
      - rewrite length_app. cbn. lia.
      - apply Forall_app. split; [exact Hdone|]. constructor; [exact Hd'|constructor]. }
    match goal with
    | |- exists out, match ?x with Some _ => _ | None => _ end = Ok out =>
        assert (Hx : x <> None)
    end.
    { destruct (not_accumulated acc) eqn:Hna.
      - destruct ((0 <? i) && r_decrease_flag R) eqn:Hc; [|discriminate].
        apply andb_prop in Hc. destruct Hc as [Hpos _]. apply Z.ltb_lt in Hpos.
        destruct (nth_error done (Z.to_nat (i - 1))) as [prev|] eqn:Hn.
        + apply nth_error_In in Hn.
          rewrite Forall_forall in Hdone. apply Hdone. exact Hn.
        + apply nth_error_None in Hn. lia.
      - destruct acc; [discriminate|]. cbn in Hna. discriminate. }
    match goal with
    | |- exists out, match ?x with Some _ => _ | None => _ end = Ok out =>
        destruct x as [a|]; [|contradiction]
    end.
    match goal with
    | |- exists out, reconcile_loop R _ (done ++ [?d']) _ _ _ = Ok out =>
        destruct (Hnext d') as [H1 H2]; [discriminate|]
    end.
    apply IH; assumption.
Qed.

(** The amount the reconciler leaves in a row it visits: the amount rounded
    to the field's precision, plus, in the adjusted row, the rounded
    difference between the running value and the expected value. *)
Lemma reconcile_loop_amounts (R : ReconcileEnv) (todo : list SRow.t) :
  forall (i : Z) (done : list SRow.t) (acc : option Q) (v : Q) (out : list SRow.t),
    reconcile_loop R i done todo acc v = Ok out ->
    Forall (fun d => skipped R d = false) todo ->
    forall j d, nth_error todo j = Some d ->
      exists d',
        nth_error out (List.length done + j) = Some d'
        /\ SRow.depreciation_amount d'
           = let r := rounded (SRow.depreciation_amount d) amount_precision in
             match r_adjusted_index R with
             | Some k =>
                 if i + Z.of_nat j =? k then
                   (r + rounded (running_value v (firstn (S j) todo)
                                 - r_expected R) amount_precision)%Q
                 else r
             | None => r
             end.
Proof.
  induction todo as [|d0 rest IH]; intros i done acc v out H Hvis j d Hj.
  - destruct j; discriminate.
  - inversion Hvis as [|? ? Hd0 Hrest]; subst.
    reconcile_step H.
    + unfold skipped in Hd0. congruence.
    + destruct j as [|j].
      * cbn in Hj. inversion Hj; subst d0. clear Hj.
        destruct (reconcile_loop_shape _ _ _ _ _ _ _ H) as (todo' & -> & _).
        eexists. split.
        { rewrite <- app_assoc. rewrite Nat.add_0_r.
          rewrite nth_error_app2 by lia. rewrite Nat.sub_diag. reflexivity. }
        cbn. rewrite Z.add_0_r. reflexivity.
      * cbn in Hj.
        destruct (IH _ _ _ _ _ H Hrest j d Hj) as (d' & Hn & Ha).
        exists d'. split.
        { rewrite length_app in Hn. cbn in Hn.
          replace (List.length done + S j)%nat
            with (List.length done + 1 + j)%nat by lia. exact Hn. }
        rewrite Ha.
        replace (i + 1 + Z.of_nat j) with (i + Z.of_nat (S j)) by lia.
        reflexivity.
Qed.

Lemma running_total_app (b : Q) (l l' : list SRow.t) :
  running_total b (l ++ l') = running_total (running_total b l) l'.
Proof. apply fold_left_app. Qed.

Lemma running_total_shift (l : list SRow.t) (b : Q) :
  (running_total b l == b + running_total 0 l)%Q.
Proof.
  revert b. induction l as [|d l IH]; intros b; cbn.
  - ring.
  - change (fold_left _ l ?x) with (running_total x l).
    rewrite (IH (b + _)%Q), (IH (0 + _)%Q). ring.
Qed.

(** The sum of the amounts after reconciliation, when every row is visited
    and the adjusted row is the last one: it is the starting value less the
    expected value, up to the rounding of one amount. *)
Lemma reconcile_loop_sum (R : ReconcileEnv) (u : Q) (todo : list SRow.t) :
  (forall x, Qabs (rounded x amount_precision - x) <= u)%Q ->
  forall (i : Z) (done : list SRow.t) (acc : option Q) (v : Q) (out : list SRow.t),
    reconcile_loop R i done todo acc v = Ok out ->
    Forall (fun d => skipped R d = false) todo ->
    todo <> [] ->
    r_adjusted_index R = Some (i + Z.of_nat (List.length todo) - 1) ->
    (Qabs (sum_amounts out - sum_amounts done - (v - r_expected R)) <= u)%Q.
Proof.
  intros Hu. induction todo as [|d rest IH]; intros i done acc v out H Hvis Hne Hk.
  - contradiction.
  - inversion Hvis as [|? ? Hd Hrest]; subst.
    reconcile_step H.
    + unfold skipped in Hd. congruence.
    + rewrite Hk in H.
      destruct rest as [|d1 rest].
      * cbn [List.length] in H. replace (i =? i + Z.of_nat 1 - 1) with true in H
          by (symmetry; apply Z.eqb_eq; lia).
        cbn [reconcile_loop] in H. inversion H; subst out. clear H.
        unfold sum_amounts. rewrite running_total_app.
        cbn [running_total fold_left SRow.set_amounts SRow.depreciation_amount flt].
        fold (running_total 0 done).
        set (r := rounded (SRow.depreciation_amount d) amount_precision).
        specialize (Hu (v - r - r_expected R)%Q).
        apply Qabs_Qle_condition in Hu. apply Qabs_Qle_condition.
        lra.
      * replace (i =? i + Z.of_nat (List.length (d :: d1 :: rest)) - 1)
          with false in H
          by (symmetry; apply Z.eqb_neq; cbn [List.length]; lia).
        apply IH in H; [|exact Hrest|discriminate|].
        2:{ rewrite Hk. f_equal. cbn [List.length]. lia. }
        unfold sum_amounts in *. rewrite running_total_app in H.
        cbn [running_total fold_left SRow.set_amounts SRow.depreciation_amount flt]
          in H.
        fold (running_total 0 done) in H.
        apply Qabs_Qle_condition in H. apply Qabs_Qle_condition.
        lra.
Qed.

Lemma not_accumulated_pos (a : Q) : (0 < a)%Q -> not_accumulated (Some a) = false.
Proof.
  intros H. cbn. unfold truthy.
  destruct (Qeq_bool a 0) eqn:E; [|reflexivity].
  apply Qeq_bool_iff in E. lra.
Qed.

(** The accumulated amounts the reconciler writes in the rows it visits, when
    the running total does not come back to zero: the running total of the
    amounts, from the value it is resumed from, rounded to the precision of
    the field. *)
Lemma reconcile_loop_accumulated (R : ReconcileEnv) (todo : list SRow.t) :
  forall (i : Z) (done : list SRow.t) (acc : option Q) (v b : Q),
    Forall (fun d => skipped R d = false) todo ->
    resume_from R i done acc = Some b -> (0 <= b)%Q ->
    Forall (fun d => (0 < rounded (SRow.depreciation_amount d) amount_precision)%Q)
           todo ->
    (forall k, r_adjusted_index R = Some k ->
               i + Z.of_nat (List.length todo) - 1 <= k) ->
    exists todo',
      reconcile_loop R i done todo acc v = Ok (done ++ todo')
      /\ List.length todo' = List.length todo
      /\ forall j d', nth_error todo' j = Some d' ->
           SRow.accumulated_depreciation_amount d'
           = Some (rounded (running_total b (firstn (S j) todo'))
                           accumulated_precision).
Proof.
  induction todo as [|d rest IH]; intros i done acc v b Hvis Hb Hpos Hamt Hk.
  - exists []. cbn. rewrite app_nil_r. repeat split. intros [|j] d'; discriminate.
  - inversion Hvis as [|? ? Hd Hrest]; subst.
    inversion Hamt as [|? ? Hd0 Hamt']; subst.
    cbn [reconcile_loop]. unfold skipped in Hd. rewrite Hd.
    unfold resume_from in Hb. rewrite Hb.
    set (r := flt (SRow.depreciation_amount d) (Some amount_precision)) in *.
    destruct rest as [|d1 rest].
    + cbn [reconcile_loop]. eexists [_]. split; [reflexivity|]. split; [reflexivity|].
      intros [|[|j]] d' Hj; try discriminate. cbn in Hj. inversion Hj; subst d'.
      reflexivity.
    + assert (Hnk : match r_adjusted_index R with
                    | Some k =>
                        if i =? k
                        then (r + flt (v - flt r None - flt (r_expected R) None)
                                      (Some amount_precision))%Q
                        else r
                    | None => r
                    end = r).
      { destruct (r_adjusted_index R) as [k|] eqn:Ek; [|reflexivity].
        specialize (Hk k eq_refl). cbn [List.length] in Hk.
        replace (i =? k) with false by (symmetry; apply Z.eqb_neq; lia).
        reflexivity. }
      rewrite Hnk.
      set (d' := SRow.set_amounts d r (flt (b + r) (Some accumulated_precision))).
      assert (Hr : (0 < b + r)%Q) by (unfold r, flt; lra).
      destruct (IH (i + 1) (done ++ [d']) (Some (b + r)%Q)
                   (v - flt r None)%Q (b + r)%Q Hrest)
        as (todo' & Hrun & Hlen & Hacc).
      * unfold resume_from. rewrite (not_accumulated_pos _ Hr). reflexivity.
      * lra.
      * exact Hamt'.
      * intros k Ek. specialize (Hk k Ek). cbn [List.length] in *. lia.
      * exists (d' :: todo'). split; [|split].
        -- rewrite Hrun. rewrite <- app_assoc. reflexivity.
        -- cbn [List.length]. rewrite Hlen. reflexivity.
        -- intros [|j] e Hj.
           ++ cbn in Hj. inversion Hj; subst e. reflexivity.
           ++ cbn in Hj. rewrite (Hacc j e Hj). reflexivity.
Qed.

Lemma reconcile_loop_skip (R : ReconcileEnv) (pre : list SRow.t) :
  Forall (fun d => skipped R d = true) pre ->
  forall (i : Z) (done post : list SRow.t) (acc : option Q) (v : Q),
    reconcile_loop R i done (pre ++ post) acc v
    = reconcile_loop R (i + Z.of_nat (List.length pre)) (done ++ pre) post acc v.
Proof.
  induction 1 as [|d pre Hd Hpre IH]; intros i done post acc v.
  - cbn. rewrite Z.add_0_r, app_nil_r. reflexivity.
  - cbn [app reconcile_loop]. unfold skipped in Hd. rewrite Hd.
    rewrite IH. rewrite <- app_assoc. cbn [app List.length].
    f_equal. lia.
Qed.

Lemma fold_max_numbered (l : list Z) :
  forall x, (forall j y, nth_error l j = Some y -> y = x + 1 + Z.of_nat j) ->
            fold_left Z.max l x = x + Z.of_nat (List.length l).
Proof.
  induction l as [|y l IH]; intros x H.
  - cbn. lia.
  - cbn [fold_left List.length]. rewrite (H 0%nat y eq_refl).
    replace (Z.max x (x + 1 + Z.of_nat 0)) with (x + 1) by lia.
    rewrite IH; [lia|].
    intros j z Hj. rewrite (H (S j) z Hj). lia.
Qed.

(** In a schedule whose rows are numbered from 1, the largest row number is
    the number of rows. *)
Lemma list_max_numbered (rows : list SRow.t) :
  numbered rows -> rows <> [] ->
  list_max (map SRow.idx rows) = Z.of_nat (List.length rows).
Proof.
  intros Hn Hne. destruct rows as [|d rows]; [contradiction|].
  cbn [map list_max List.length]. rewrite (Hn 0%nat d eq_refl).
  rewrite fold_max_numbered with (x := Z.of_nat 0 + 1).
  - rewrite length_map. lia.
  - intros j y Hj. rewrite nth_error_map in Hj.
    destruct (nth_error rows j) as [e|] eqn:He; [|discriminate].
    cbn in Hj. inversion Hj. rewrite (Hn (S j) e He). lia.
Qed.

Lemma adjusted_index_numbered (asset : Asset.t) (fb : FB.t) (doc : Schedule.t)
    (disposal ret : option date) (ignore : bool) (k : Z) :
  numbered (Schedule.depreciation_schedule doc) ->
  r_adjusted_index (make_reconcile_env asset fb doc disposal ret ignore) = Some k ->
  k = Z.of_nat (List.length (Schedule.depreciation_schedule doc)) - 1.
Proof.
  intros Hn. unfold make_reconcile_env, straight_line_idx. cbn [r_adjusted_index].
  destruct (is_sl_or_manual _); [|discriminate].
  destruct (Schedule.depreciation_schedule doc) as [|d rows] eqn:E; [discriminate|].
  cbn [map]. destruct (is_none disposal && is_none ret); [|discriminate].
  intros H. inversion H as [H1]. clear H H1.
  change (fold_left Z.max (map SRow.idx rows) (SRow.idx d))
    with (list_max (map SRow.idx (d :: rows))).
  rewrite list_max_numbered; [reflexivity|exact Hn|discriminate].
Qed.

Lemma nth_error_last {A : Type} (l : list A) (x : A) (l' : list A) :
  rev l = x :: l' ->
  nth_error l (Z.to_nat (Z.of_nat (List.length l) - 1)) = Some x.
Proof.
  intros H. apply (f_equal (@rev A)) in H. rewrite rev_involutive in H.
  cbn in H. subst l. rewrite length_app. cbn [List.length].
  replace (Z.to_nat _) with (List.length (rev l') + 0)%nat by lia.
  rewrite nth_error_app_shift. reflexivity.
Qed.

(** C2 (as the code has it). Let the schedule be a run [pre] of rows the
    reconciler passes over (booked rows, with [ignore_booked_entry]) followed
    by rows [post] it visits; [pre] is empty when [ignore_booked_entry] is not
    passed.  With rows numbered from 1, amounts that round to positive values
    and a non-negative starting total, the reconciler returns, leaves [pre]
    as it is, and the accumulated amount of every visited row is the running
    total of the amounts up to that row, rounded to the precision of the
    field.  The running total starts from the opening accumulated
    depreciation; only when rows were passed over and the
    decrease-in-asset-value flag is set does it start from the accumulated
    amount stored in the last of them. *)
Theorem accumulated_is_rounded_running_total
    (w : World) (disposal ret : option date) (ignore : bool)
    (pre post : list SRow.t) (b : Q) :
  Schedule.depreciation_schedule (w_self w) = pre ++ post ->
  Forall (fun d => ignore && is_truthy_str (SRow.journal_entry d) = true) pre ->
  Forall (fun d => ignore && is_truthy_str (SRow.journal_entry d) = false) post ->
  numbered (pre ++ post) ->
  match rev pre with
  | last :: _ =>
      if Flags.decrease_in_asset_value_due_to_value_adjustment
           (Asset.flags (w_asset w))
      then SRow.accumulated_depreciation_amount last
      else Some (Schedule.opening_accumulated_depreciation (w_self w))
  | [] => Some (Schedule.opening_accumulated_depreciation (w_self w))
  end = Some b ->
  (0 <= b)%Q ->
  Forall (fun d => (0 < rounded (SRow.depreciation_amount d) amount_precision)%Q)
         post ->
  exists post',
    set_accumulated_depreciation w disposal ret ignore
    = Ok (mkWorld (w_asset w) (w_row w)
            (Schedule.set_depreciation_schedule (w_self w) (pre ++ post')))
    /\ List.length post' = List.length post
    /\ forall j d', nth_error post' j = Some d' ->
         SRow.accumulated_depreciation_amount d'
         = Some (rounded (running_total b (firstn (S j) post'))
                         accumulated_precision).
Proof.
  intros Hrows Hpre Hpost Hnum Hbase Hb Hamt.
  unfold set_accumulated_depreciation.
  set (R := make_reconcile_env _ _ _ _ _ _).
  assert (Hig : r_ignore_booked_entry R = ignore) by reflexivity.
  rewrite Hrows.
  rewrite (reconcile_loop_skip R pre)
    by (unfold skipped; rewrite Hig; exact Hpre).
  cbn [app Z.add].
  destruct (reconcile_loop_accumulated R post (Z.of_nat (List.length pre)) pre
              None (flt (FB.value_after_depreciation (w_row w)) None) b)
    as (post' & Hrun & Hlen & Hacc).
  - unfold skipped. rewrite Hig. exact Hpost.
  - unfold resume_from. cbn [not_accumulated].
    replace (r_decrease_flag R)
      with (Flags.decrease_in_asset_value_due_to_value_adjustment
              (Asset.flags (w_asset w))) by reflexivity.
    replace (r_opening R)
      with (Schedule.opening_accumulated_depreciation (w_self w)) by reflexivity.
    destruct (rev pre) as [|last l'] eqn:Er.
    + assert (pre = []) by (destruct pre; [reflexivity|];
                            apply (f_equal (@List.length SRow.t)) in Er;
                            rewrite length_rev in Er; discriminate).
      subst pre. cbn. exact Hbase.
    + assert (0 < Z.of_nat (List.length pre)).
      { destruct pre; [discriminate|]. cbn [List.length]. lia. }
      replace (0 <? Z.of_nat (List.length pre)) with true
        by (symmetry; apply Z.ltb_lt; assumption).
      cbn [andb].
      destruct (Flags.decrease_in_asset_value_due_to_value_adjustment _);
        [|exact Hbase].
      rewrite (nth_error_last pre last l' Er). exact Hbase.
  - exact Hb.
  - exact Hamt.
  - intros k Ek. apply adjusted_index_numbered in Ek.
    + rewrite Ek, Hrows, length_app. lia.
    + rewrite Hrows. exact Hnum.
  - exists post'. rewrite Hrun. repeat split; assumption.
Qed.

(** C8 (as the code has it). In a Straight Line or Manual schedule whose
    rows are numbered from 1, reconciled with no disposal and no return date
    and with every row visited, the reconciler returns and exactly one row
    receives the residual: the last row, whose amount becomes its rounded
    amount plus the rounded difference between the running value after
    depreciation and the expected value after useful life.  The amount of
    every other row is rounded to the precision of the field and nothing is
    added to it. *)
Theorem residual_is_added_to_the_last_row (w : World) (ignore : bool) :
  let rows := Schedule.depreciation_schedule (w_self w) in
  let last := Z.of_nat (List.length rows) - 1 in
  is_sl_or_manual (Schedule.depreciation_method (w_self w)) = true ->
  numbered rows ->
  Forall (fun d => ignore && is_truthy_str (SRow.journal_entry d) = false) rows ->
  exists w',
    set_accumulated_depreciation w None None ignore = Ok w'
    /\ List.length (Schedule.depreciation_schedule (w_self w'))
       = List.length rows
    /\ forall j d, nth_error rows j = Some d ->
         exists d',
           nth_error (Schedule.depreciation_schedule (w_self w')) j = Some d'
           /\ SRow.depreciation_amount d'
              = if Z.of_nat j =? last then
                  (rounded (SRow.depreciation_amount d) amount_precision
                   + rounded
                       (running_value (FB.value_after_depreciation (w_row w))
                                      rows
                        - FB.expected_value_after_useful_life (w_row w))
                       amount_precision)%Q
                else rounded (SRow.depreciation_amount d) amount_precision.
Proof.
  intros rows last Hsl Hnum Hvis.
  unfold set_accumulated_depreciation.
  set (R := make_reconcile_env _ _ _ _ _ _).
  fold rows.
  assert (Hvis' : Forall (fun d => skipped R d = false) rows) by exact Hvis.
  destruct (reconcile_loop_total R rows Hvis' 0 [] None
              (flt (FB.value_after_depreciation (w_row w)) None) eq_refl
              (Forall_nil _)) as (out & Hout).
  rewrite Hout. cbn [bind]. eexists. split; [reflexivity|].
  cbn [w_self Schedule.set_depreciation_schedule Schedule.depreciation_schedule].
  destruct (reconcile_loop_shape _ _ _ _ _ _ _ Hout) as (todo' & Eo & HF).
  split.
  - rewrite Eo. cbn [app]. symmetry. eapply Forall2_length; eauto.
  - intros j d Hj.
    destruct (reconcile_loop_amounts _ _ _ _ _ _ _ Hout Hvis' j d Hj)
      as (d' & Hn & Ha).
    exists d'. split; [exact Hn|]. rewrite Ha. cbn zeta.
    assert (Hk : r_adjusted_index R = Some last).
    { unfold R, make_reconcile_env, straight_line_idx. cbn [r_adjusted_index].
      rewrite Hsl. fold rows.
      destruct rows as [|d0 rows0] eqn:Er; [destruct j; discriminate|].
      cbn [map is_none andb]. f_equal.
      change (SRow.idx d0 :: map SRow.idx rows0)
        with (map SRow.idx (d0 :: rows0)).
      rewrite list_max_numbered; [reflexivity|exact Hnum|discriminate]. }
    rewrite Hk. cbn [Z.add].
    destruct (Z.of_nat j =? last) eqn:Ej; [|reflexivity].
    apply Z.eqb_eq in Ej. unfold last in Ej.
    rewrite firstn_all2 by lia. reflexivity.
Qed.

(** ** The generator only appends *)

Lemma appended_refl (rows : list SRow.t) : appended rows rows.
Proof.
  exists []. split; [symmetry; apply app_nil_r|]. intros [|j] d; discriminate.
Qed.

Lemma appended_trans (r1 r2 r3 : list SRow.t) :
  appended r1 r2 -> appended r2 r3 -> appended r1 r3.
Proof.
  intros (e1 & -> & H1) (e2 & -> & H2). exists (e1 ++ e2).
  split; [symmetry; apply app_assoc|].
  intros j d Hj. destruct (Nat.lt_ge_cases j (List.length e1)) as [L|G].
  - rewrite nth_error_app1 in Hj by exact L. eauto.
  - rewrite nth_error_app2 in Hj by exact G.
    rewrite (H2 _ _ Hj), length_app. f_equal. lia.
Qed.

Lemma appended_add (rows : list SRow.t) (sd : date) (amount : Q) :
  appended rows (add_depr_schedule_row rows sd amount).
Proof.
  eexists. split; [reflexivity|].
  intros [|[|j]] d Hj; try discriminate.
  cbn in Hj. inversion Hj. cbn. f_equal. lia.
Qed.

Lemma appended_numbered (rows rows' : list SRow.t) :
  appended rows rows' -> numbered rows -> numbered rows'.
Proof.
  intros (extra & -> & He) Hn j d Hj.
  destruct (Nat.lt_ge_cases j (List.length rows)) as [L|G].
  - rewrite nth_error_app1 in Hj by exact L. eauto.
  - rewrite nth_error_app2 in Hj by exact G.
    rewrite (He _ _ Hj). f_equal. lia.
Qed.

Lemma append_period_appended (E : LoopEnv) (n : Z) (st st' : Locals) :
  append_period E n st = Ok st' -> appended (rows st) (rows st').
Proof.
  unfold append_period. intros H.
  destruct (negb (truthy (depreciation_amount st))).
  { inversion H. apply appended_refl. }
  destruct (Qltb 0 _).
  - destruct (read_schedule_date (schedule_date st)); [|discriminate].
    cbn in H. inversion H. apply appended_add.
  - inversion H. apply appended_refl.
Qed.

Lemma dispose_appended (E : LoopEnv) (disposal : date) (st st' : Locals) :
  dispose E disposal st = Ok st' -> appended (rows st) (rows st').
Proof.
  unfold dispose. intros H.
  destruct (_get_pro_rata_amt _ _ _ _ _) as [[[amount days] months]|];
    [|discriminate].
  cbn in H. inversion H. cbn [rows].
  destruct (Qltb 0 amount); [apply appended_add|apply appended_refl].
Qed.

Lemma loop_body_appended (E : LoopEnv) (n : Z) (st st' : Locals) (c : control) :
  loop_body E n st = Ok (c, st') -> appended (rows st) (rows st').
Proof.
  unfold loop_body. intros H.
  destruct (skip_row st). { inversion H. apply appended_refl. }
  destruct (get_depreciation_amount _ _ _ _ _ _ _) as [amount|]; [|discriminate].
  cbn [bind] in H.
  destruct (date_of_disposal E) as [disposal|].
  - destruct (dispose _ _ _) as [st1|] eqn:Hd; [|discriminate].
    cbn in H. inversion H; subst. apply dispose_appended in Hd. exact Hd.
  - destruct (boundary_pro_rata _ _ _) as [[[amount' a] sd]|]; [|discriminate].
    cbn [bind] in H.
    destruct (append_period _ _ _) as [st1|] eqn:Ha; [|discriminate].
    cbn in H. inversion H; subst. apply append_period_appended in Ha. exact Ha.
Qed.

Lemma run_loop_appended (E : LoopEnv) (ns : list Z) :
  forall st st', run_loop E ns st = Ok st' -> appended (rows st) (rows st').
Proof.
  induction ns as [|n ns IH]; intros st st' H.
  - inversion H. apply appended_refl.
  - cbn [run_loop] in H.
    destruct (loop_body E n st) as [[c st1]|] eqn:Hb; [|discriminate].
    cbn [bind] in H. apply loop_body_appended in Hb.
    destruct c.
    + eapply appended_trans; [exact Hb|]. apply IH. exact H.
    + inversion H; subst. exact Hb.
Qed.

(** [_make_depr_schedule] keeps the rows it is given and appends to them;
    the policy row it leaves carries the value the generation started from. *)
Lemma _make_depr_schedule_appended (w w' : World) (start : Z)
    (disposal : option date) (update : bool) (value : option Q) :
  _make_depr_schedule w start disposal update value = Ok w' ->
  appended (Schedule.depreciation_schedule (w_self w))
           (Schedule.depreciation_schedule (w_self w'))
  /\ Schedule.depreciation_method (w_self w')
     = Schedule.depreciation_method (w_self w)
  /\ exists asset fb,
       validate_asset_finance_books (w_asset w) (w_row w) = Ok (asset, fb)
       /\ w_row w' = FB.set_value_after_depreciation fb
                       (starting_value value asset fb).
Proof.
  unfold _make_depr_schedule. intros H.
  destruct (validate_asset_finance_books _ _) as [[asset fb]|]; [|discriminate].
  cbn [bind] in H.
  destruct (run_loop _ _ _) as [st|] eqn:Hr; [|discriminate].
  cbn in H. inversion H. cbn.
  apply run_loop_appended in Hr. cbn in Hr.
  split; [exact Hr|]. split; [reflexivity|]. eauto.
Qed.

(** [clear_depr_schedule] keeps the leading run of booked rows. *)
Lemma clear_loop_keeps_prefix (rows : list SRow.t) :
  forall (c : Z) (acc pre rest : list SRow.t),
    rows = pre ++ rest ->
    Forall (fun d => is_truthy_str (SRow.journal_entry d) = true) pre ->
    exists t, snd (clear_loop rows c acc) = acc ++ pre ++ t.
Proof.
  induction rows as [|d rows IH]; intros c acc pre rest E Hpre.
  - destruct pre; [|discriminate]. exists []. cbn. rewrite app_nil_r. reflexivity.
  - destruct pre as [|p pre].
    + cbn [app]. cbn [clear_loop].
      destruct (is_truthy_str (SRow.journal_entry d)).
      * destruct (IH (c + 1) (acc ++ [d]) [] rows eq_refl (Forall_nil _))
          as (t & Ht).
        rewrite Ht. exists (d :: t). rewrite <- app_assoc. reflexivity.
      * exists []. cbn. rewrite app_nil_r. reflexivity.
    + cbn in E. inversion E; subst. inversion Hpre as [|? ? Hp Hpre']; subst.
      cbn [clear_loop]. rewrite Hp.
      destruct (IH (c + 1) (acc ++ [p]) pre rest eq_refl Hpre') as (t & Ht).
      rewrite Ht. exists t. rewrite <- app_assoc. reflexivity.
Qed.

(** ** Booked rows under regeneration *)

(** C3 (as the code has it). Regeneration keeps, at its position, every row
    of the leading run of booked rows: its number, schedule date and booking
    reference are unchanged, and with [ignore_booked_entry] the row is
    unchanged altogether, its depreciation amount included.  (Booked rows
    that follow an unbooked row are not kept: they are cleared with it.) *)
Theorem leading_booked_rows_are_kept
    (w w' : World) (disposal ret : option date) (value : option Q)
    (ignore : bool) (pre rest : list SRow.t) :
  Schedule.depreciation_schedule (w_self w) = pre ++ rest ->
  Forall (fun d => is_truthy_str (SRow.journal_entry d) = true) pre ->
  regenerate w disposal ret value ignore = Ok w' ->
  forall j d, nth_error pre j = Some d ->
    exists d',
      nth_error (Schedule.depreciation_schedule (w_self w')) j = Some d'
      /\ SRow.idx d' = SRow.idx d
      /\ SRow.schedule_date d' = SRow.schedule_date d
      /\ SRow.journal_entry d' = SRow.journal_entry d
      /\ (ignore = true -> d' = d).
Proof.
  intros Hrows Hpre H j d Hj.
  unfold regenerate in H.
  destruct (make_depr_schedule w disposal true value) as [w1|] eqn:Hm;
    [|discriminate].
  cbn [bind] in H.
  assert (Hkeep : exists t, Schedule.depreciation_schedule (w_self w1) = pre ++ t).
  { unfold make_depr_schedule in Hm.
    destruct (Asset.available_for_use_date (w_asset w)).
    - unfold clear_depr_schedule in Hm.
      destruct (clear_loop (Schedule.depreciation_schedule (w_self w)) 0 [])
        as [start kept] eqn:Hc.
      apply _make_depr_schedule_appended in Hm.
      destruct Hm as ((extra & Hx & _) & _). cbn in Hx.
      destruct (clear_loop_keeps_prefix _ 0 [] pre rest Hrows Hpre) as (t & Ht).
      rewrite Hc in Ht. cbn in Ht. subst kept.
      exists (t ++ extra). rewrite Hx. symmetry. apply app_assoc.
    - inversion Hm; subst. eauto. }
  destruct Hkeep as (t & Hk).
  unfold set_accumulated_depreciation in H.
  destruct (reconcile_loop _ _ _ _ _ _) as [out|] eqn:Hr; [|discriminate].
  cbn in H. inversion H. cbn.
  destruct (reconcile_loop_shape _ _ _ _ _ _ _ Hr) as (todo' & -> & HF).
  cbn [app].
  assert (Hj1 : nth_error (Schedule.depreciation_schedule (w_self w1)) j = Some d).
  { rewrite Hk. rewrite nth_error_app1; [exact Hj|].
    apply nth_error_Some. congruence. }
  destruct (Forall2_nth_error_l _ _ _ HF j d Hj1) as (d' & Hd' & Hi & Hs & He & Hskip).
  exists d'. repeat split; try assumption.
  intros ->. apply Hskip. unfold skipped. cbn.
  rewrite Forall_forall in Hpre. apply Hpre. eapply nth_error_In; eauto.
Qed.

(** ** The adjustment to the expected value after useful life *)

Lemma run_loop_skipping (E : LoopEnv) (ns : list Z) (st : Locals) :
  skip_row st = true -> run_loop E ns st = Ok st.
Proof.
  intros Hs. induction ns as [|n ns IH]; [reflexivity|].
  cbn [run_loop]. unfold loop_body. rewrite Hs. cbn [bind]. exact IH.
Qed.

(** C4 (as the code has it). In a generation without a disposal date, take
    a period of the loop whose amount, after the boundary pro-rata, is not
    zero.  When the policy's expected value after useful life is not zero and
    the rounded amount takes the running value below it, the amount is
    reduced by the shortfall: the value before the period less the adjusted
    amount is the expected value, up to what rounding changed in the
    unadjusted amount.  The period is appended with the adjusted amount if
    that rounds to a positive value, and it is the last one: whatever
    iterations remain append nothing.  When the expected value after useful
    life is zero, the amount is left as it is, however low the running value
    falls, and the loop goes on. *)
Theorem shortfall_is_taken_from_the_amount_and_ends_the_loop
    (E : LoopEnv) (n : Z) (st : Locals) (computed amount : Q)
    (asset : Asset.t) (sd : date) :
  let expected := FB.expected_value_after_useful_life (row E) in
  let value :=
    (value_after_depreciation st - rounded amount gross_precision)%Q in
  let adjusted := (amount + (value - expected))%Q in
  let row_of a :=
    if Qltb 0 (rounded a gross_precision)
    then [SRow.mk (Z.of_nat (List.length (rows st)) + 1) sd a None None]
    else [] in
  date_of_disposal E = None ->
  skip_row st = false ->
  get_depreciation_amount (asset_doc st) (value_after_depreciation st) (row E)
    n (prev_depreciation_amount n (rows st))
    (has_wdv_or_dd_non_yearly_pro_rata E)
    (number_of_pending_depreciations E) = Ok computed ->
  boundary_pro_rata E n
    (mkLocals (rows st) (asset_doc st) (value_after_depreciation st) false
              computed (nominal_schedule_date E n (schedule_date st)))
  = Ok (amount, asset, Some sd) ->
  truthy amount = true ->
  (truthy expected = true ->
   (value < expected)%Q ->
   exists st',
     loop_body E n st = Ok (Next, st')
     /\ (adjusted < amount)%Q
     /\ (value_after_depreciation st - adjusted
         == expected + (rounded amount gross_precision - amount))%Q
     /\ value_after_depreciation st' = value
     /\ rows st' = rows st ++ row_of adjusted
     /\ skip_row st' = true
     /\ forall ns, run_loop E ns st' = Ok st')
  /\ (truthy expected = false ->
      exists st',
        loop_body E n st = Ok (Next, st')
        /\ value_after_depreciation st' = value
        /\ rows st' = rows st ++ row_of amount
        /\ skip_row st' = false).
Proof.
  intros expected value adjusted row_of Hd Hs Hc Hb Ha.
  rewrite (loop_body_without_disposal E n st computed amount asset (Some sd)
             Hd Hs Hc Hb).
  rewrite (append_period_assigns E n _ sd); [|exact Ha|reflexivity].
  cbn [bind depreciation_amount value_after_depreciation rows skip_row].
  fold expected value. split.
  - intros He Hlt.
    assert (Hq : Qltb value expected = true).
    { unfold Qltb. destruct (Qle_bool expected value) eqn:Hle; [|reflexivity].
      apply Qle_bool_iff in Hle. lra. }
    rewrite He, Hq, orb_true_r. cbn [andb]. fold adjusted.
    eexists. split; [reflexivity|].
    cbn [value_after_depreciation rows skip_row].
    split; [unfold adjusted; lra|].
    split; [unfold adjusted, value; ring|].
    repeat split. intros ns. apply run_loop_skipping. reflexivity.
  - intros He. rewrite He. cbn [andb].
    eexists. split; [reflexivity|].
    cbn [value_after_depreciation rows skip_row]. repeat split.
Qed.

End Properties.

(** ** Uniqueness of the non-cancelled schedule *)

Module LifecycleFacts.
Import Lifecycle.

Lemma pair_filters_spec (self doc : Schedule.t) :
  forallb (satisfies doc) (pair_filters self) = true <-> matches self doc.
Proof.
  unfold pair_filters, matches. cbn [forallb].
  rewrite !andb_true_iff.
  assert (A : satisfies doc ("asset"%string, OpEq (Schedule.asset self)) = true
              <-> Schedule.asset doc = Schedule.asset self)
    by (cbn; apply String.eqb_eq).
  assert (D : satisfies doc ("docstatus"%string, OpLt 2) = true
              <-> Schedule.docstatus doc < 2)
    by (cbn; apply Z.ltb_lt).
  rewrite A, D.
  destruct (String.eqb (Schedule.finance_book self) "") eqn:Ef; cbn [negb].
  - apply String.eqb_eq in Ef. rewrite Ef.
    assert (B : satisfies doc ("finance_book"%string, OpIsNotSet) = true
                <-> Schedule.finance_book doc = ""%string)
      by (cbn; apply String.eqb_eq).
    rewrite B. tauto.
  - assert (B : satisfies doc
                  ("finance_book"%string, OpEq (Schedule.finance_book self))
                = true
                <-> Schedule.finance_book doc = Schedule.finance_book self)
      by (cbn; apply String.eqb_eq).
    rewrite B. tauto.
Qed.

Lemma db_exists_found (db : store) (self : Schedule.t) :
  match db_exists db (pair_filters self) with
  | Some found =>
      exists doc, In doc db /\ matches self doc /\ Schedule.name doc = found
  | None => forall doc, In doc db -> ~ matches self doc
  end.
Proof.
  unfold db_exists.
  destruct (List.filter _ db) as [|doc l] eqn:Ef.
  - intros doc Hin Hm. apply pair_filters_spec in Hm.
    assert (Hi : In doc (List.filter
                           (fun doc => forallb (satisfies doc) (pair_filters self))
                           db))
      by (apply filter_In; auto).
    rewrite Ef in Hi. contradiction.
  - assert (Hi : In doc (List.filter
                           (fun doc => forallb (satisfies doc) (pair_filters self))
                           db))
      by (rewrite Ef; left; reflexivity).
    apply filter_In in Hi. destruct Hi as [Hin Hs].
    exists doc. repeat split; try assumption.
    + apply pair_filters_spec in Hs. apply Hs.
    + apply pair_filters_spec in Hs. apply Hs.
    + apply pair_filters_spec in Hs. apply Hs.
Qed.

(** Validation passes only if every stored non-cancelled schedule of the
    pair is the validated document itself. *)
Lemma validate_Ok (db : store) (self : Schedule.t) :
  unique db -> named db ->
  validate db self = Ok tt ->
  forall doc, In doc db -> matches self doc ->
              Schedule.name doc = Schedule.name self.
Proof.
  intros Hu Hn Hv doc Hin Hm.
  unfold validate, validate_another_asset_depr_schedule_does_not_exist in Hv.
  change (db_exists db _) with (db_exists db (pair_filters self)) in Hv.
  pose proof (db_exists_found db self) as Hf.
  destruct (db_exists db (pair_filters self)) as [found|].
  - destruct Hf as (first & Hfin & Hfm & Hfn).
    assert (Hsame : Schedule.name first = Schedule.name doc).
    { apply Hu; try assumption; try apply Hfm; try apply Hm.
      split; [destruct Hfm as (A & _), Hm as (A' & _); congruence
             |destruct Hfm as (_ & B & _), Hm as (_ & B' & _); congruence]. }
    destruct (String.eqb found "") eqn:E1.
    { apply String.eqb_eq in E1. exfalso. apply (Hn first Hfin). congruence. }
    destruct (String.eqb found (Schedule.name self)) eqn:E2.
    { apply String.eqb_eq in E2. congruence. }
    cbn in Hv. destruct (negb _); discriminate.
  - exfalso. exact (Hf doc Hin Hm).
Qed.

(** Validation raises when another non-cancelled schedule of the pair is
    stored. *)
Lemma validate_raises (db : store) (self other : Schedule.t) :
  unique db -> named db ->
  In other db -> matches self other ->
  Schedule.name other <> Schedule.name self ->
  is_duplicate_error (validate db self).
Proof.
  intros Hu Hn Hin Hm Hne.
  destruct (validate db self) as [[]|e] eqn:Hv.
  - exfalso. apply Hne. eapply validate_Ok; eauto.
  - unfold validate, validate_another_asset_depr_schedule_does_not_exist in Hv.
    destruct (db_exists _ _); [|discriminate].
    destruct (_ && _); [|discriminate].
    destruct (negb _); inversion Hv; do 2 eexists; reflexivity.
Qed.

Lemma in_db_update (db : store) (self doc : Schedule.t) :
  In doc (db_update db self) ->
  (In doc db /\ Schedule.name doc <> Schedule.name self)
  \/ (doc = self /\ stored db (Schedule.name self)).
Proof.
  unfold db_update. intros H. apply in_map_iff in H.
  destruct H as (old & Ho & Hin).
  destruct (String.eqb (Schedule.name old) (Schedule.name self)) eqn:E.
  - right. split; [congruence|]. apply String.eqb_eq in E. exists old. auto.
  - left. apply String.eqb_neq in E. subst doc. auto.
Qed.

Lemma matches_set_docstatus (self doc : Schedule.t) (n : Z) :
  matches (set_docstatus self n) doc <-> matches self doc.
Proof. unfold matches. cbn. tauto. Qed.

Lemma validated_update_unique (db : store) (self : Schedule.t) (n : Z) :
  unique db -> named db ->
  (n < 2 -> validate db self = Ok tt) ->
  unique (db_update db (set_docstatus self n))
  /\ named (db_update db (set_docstatus self n)).
Proof.
  intros Hu Hn Hv. split.
  - intros a b Ha Hb Na Nb Hp.
    apply in_db_update in Ha, Hb.
    destruct Ha as [[Ha Hna]|[-> _]], Hb as [[Hb Hnb]|[-> _]].
    + apply Hu; assumption.
    + exfalso. apply Hna. cbn.
      assert (Hlt : n < 2) by exact Nb.
      apply (validate_Ok db self Hu Hn (Hv Hlt) a Ha).
      destruct Hp as [P1 P2]. cbn in P1, P2. repeat split; assumption.
    + exfalso. apply Hnb. cbn.
      assert (Hlt : n < 2) by exact Na.
      apply (validate_Ok db self Hu Hn (Hv Hlt) b Hb).
      destruct Hp as [P1 P2]. cbn in P1, P2. repeat split; congruence || exact Nb.
    + reflexivity.
  - intros doc Hd. apply in_db_update in Hd.
    destruct Hd as [[Hd _]|[-> (old & Ho & Hname)]].
    + apply Hn. exact Hd.
    + cbn in Hname |- *. rewrite <- Hname. apply Hn. exact Ho.
Qed.

Lemma reachable_invariant (db : store) :
  reachable db -> unique db /\ named db.
Proof.
  induction 1 as [|db self db' Hr [Hu Hn] Hname Hfresh Hi
                  |db self db' Hr [Hu Hn] Hs
                  |db self db' Hr [Hu Hn] Hs
                  |db self Hr [Hu Hn]].
  - split; intros a; intros; contradiction.
  - unfold insert in Hi.
    destruct (validate db self) as [[]|] eqn:Hv; [|discriminate].
    cbn in Hi. inversion Hi; subst db'. clear Hi.
    assert (Hnew : forall a, In a db -> non_cancelled a ->
                             same_pair a (set_docstatus self 0) -> False).
    { intros a Ha Na [P1 P2]. apply Hfresh. exists a. split; [exact Ha|].
      apply (validate_Ok db self Hu Hn Hv a Ha).
      cbn in P1, P2. repeat split; assumption. }
    split.
    + intros a b Ha Hb Na Nb Hp.
      apply in_app_iff in Ha, Hb. cbn in Ha, Hb.
      destruct Ha as [Ha|[<-|[]]], Hb as [Hb|[<-|[]]].
      * apply Hu; assumption.
      * exfalso. eapply Hnew; eauto.
      * exfalso. apply (Hnew b Hb Nb). destruct Hp. split; congruence.
      * reflexivity.
    + intros doc Hd. apply in_app_iff in Hd. cbn in Hd.
      destruct Hd as [Hd|[<-|[]]]; [apply Hn; exact Hd|exact Hname].
  - unfold save in Hs.
    destruct (validate db self) as [[]|] eqn:Hv; [|discriminate].
    cbn in Hs. inversion Hs; subst db'.
    apply validated_update_unique; auto.
  - unfold submit in Hs.
    destruct (validate db self) as [[]|] eqn:Hv; [|discriminate].
    cbn in Hs. inversion Hs; subst db'.
    apply validated_update_unique; auto.
  - unfold cancel. apply validated_update_unique; auto. lia.
Qed.

(** C9. In every store the lifecycle operations can produce, at most one
    non-cancelled schedule exists for an (asset, finance-book) pair; and
    there, validating a schedule raises the duplicate-schedule error whenever
    another non-cancelled schedule is stored for its pair, so that inserting
    it raises before anything is written. *)
Theorem one_non_cancelled_schedule_per_pair (db : store) :
  reachable db ->
  unique db
  /\ forall self other : Schedule.t,
       In other db -> non_cancelled other -> same_pair other self ->
       Schedule.name other <> Schedule.name self ->
       is_duplicate_error
         (validate_another_asset_depr_schedule_does_not_exist db self)
       /\ exists template args,
            insert db self = Raise (ValidationError template args).
Proof.
  intros Hr. destruct (reachable_invariant db Hr) as [Hu Hn].
  split; [exact Hu|].
  intros self other Hin Hnc [P1 P2] Hne.
  assert (He : is_duplicate_error (validate db self)).
  { apply (validate_raises db self other); try assumption.
    repeat split; assumption. }
  split; [exact He|].
  destruct He as (template & args & He). exists template, args.
  unfold insert. rewrite He. reflexivity.
Qed.

End LifecycleFacts.

(** * Further properties of the engine *)

Section Further.
Context {F : Frappe}.

(** ** Clearing the schedule *)

Lemma clear_loop_leading_booked (rows : list SRow.t) :
  forall (c : Z) (acc : list SRow.t),
    clear_loop rows c acc
    = ((if (List.length (leading_booked rows) =? List.length rows)%nat
        then 0 else c + Z.of_nat (List.length (leading_booked rows))),
       acc ++ leading_booked rows).
Proof.
  induction rows as [|d rest IH]; intros c acc.
  - cbn. rewrite app_nil_r. reflexivity.
  - cbn [clear_loop leading_booked].
    destruct (is_truthy_str (SRow.journal_entry d)).
    + rewrite IH. cbn [List.length Nat.eqb]. rewrite <- app_assoc. cbn [app].
      destruct (List.length (leading_booked rest) =? List.length rest)%nat;
        [reflexivity|]. f_equal. lia.
    + cbn. rewrite app_nil_r. f_equal. lia.
Qed.

Lemma leading_booked_prefix (rows : list SRow.t) :
  Forall (fun d => is_truthy_str (SRow.journal_entry d) = true)
         (leading_booked rows)
  /\ exists rest,
       rows = leading_booked rows ++ rest
       /\ match rest with
          | d :: _ => is_truthy_str (SRow.journal_entry d) = false
          | [] => True
          end.
Proof.
  induction rows as [|d rest [IH1 (tl & IH2 & IH3)]].
  - split; [constructor|]. exists []. split; [reflexivity|exact I].
  - cbn [leading_booked].
    destruct (is_truthy_str (SRow.journal_entry d)) eqn:Ed.
    + split; [constructor; assumption|].
      exists tl. split; [cbn; f_equal; exact IH2|exact IH3].
    + split; [constructor|]. exists (d :: rest). split; [reflexivity|exact Ed].
Qed.

(** X1. [clear_depr_schedule] keeps exactly the leading run of booked rows
    and drops every row from the first unbooked one on.  The start index it
    returns is the number of rows kept when an unbooked row follows them, and
    0 when every row of the schedule is booked (or there is none). *)
Theorem clear_depr_schedule_keeps_leading_booked_rows (doc : Schedule.t) :
  let rows := Schedule.depreciation_schedule doc in
  let kept := leading_booked rows in
  clear_depr_schedule doc
  = ((if (List.length kept =? List.length rows)%nat
      then 0 else Z.of_nat (List.length kept)),
     Schedule.set_depreciation_schedule doc kept)
  /\ Forall (fun d => is_truthy_str (SRow.journal_entry d) = true) kept
  /\ exists rest,
       rows = kept ++ rest
       /\ match rest with
          | d :: _ => is_truthy_str (SRow.journal_entry d) = false
          | [] => True
          end.
Proof.
  intros rows kept. split; [|apply leading_booked_prefix].
  unfold clear_depr_schedule. fold rows.
  rewrite clear_loop_leading_booked. reflexivity.
Qed.

(** ** The adjusted amount of the last period *)

(** X3. [get_adjusted_depreciation_amount]: without opening accumulated
    depreciation, the amount it returns for the last row and the amount of
    the first row of the schedule add up to the unprorated amount, and it
    raises IndexError when the schedule has no row; with opening accumulated
    depreciation it returns the amount of the last row as it is. *)
Theorem adjusted_last_amount_completes_the_first_row
    (doc : Schedule.t) (rows : list SRow.t) (without_pro_rata last : Q) :
  (truthy (Schedule.opening_accumulated_depreciation doc) = false ->
   match rows with
   | first :: _ =>
       exists a,
         get_adjusted_depreciation_amount doc rows without_pro_rata last = Ok a
         /\ (SRow.depreciation_amount first + a == without_pro_rata)%Q
   | [] =>
       get_adjusted_depreciation_amount doc rows without_pro_rata last
       = Raise IndexError
   end)
  /\ (truthy (Schedule.opening_accumulated_depreciation doc) = true ->
      get_adjusted_depreciation_amount doc rows without_pro_rata last = Ok last).
Proof.
  unfold get_adjusted_depreciation_amount. split; intros ->; cbn [negb].
  - destruct rows as [|first rest]; [reflexivity|]. cbn [bind
      get_depreciation_amount_for_first_row].
    destruct (Qeq_bool _ _) eqn:E; cbn [negb].
    + eexists. split; [reflexivity|]. apply Qeq_bool_iff. exact E.
    + eexists. split; [reflexivity|]. ring.
  - reflexivity.
Qed.

(** ** The reconciler *)

Ltac reconcile_case H :=
  cbn [reconcile_loop] in H;
  match type of H with
  | (if ?c then _ else _) = Ok _ => destruct c eqn:?
  end;
  [|match type of H with
    | match ?x with Some _ => _ | None => _ end = Ok _ =>
        destruct x eqn:?; [|discriminate H]
    end].

Lemma reconcile_loop_visited (R : ReconcileEnv) (todo : list SRow.t) :
  forall (i : Z) (done : list SRow.t) (acc : option Q) (v : Q)
         (out : list SRow.t),
    reconcile_loop R i done todo acc v = Ok out ->
    exists todo',
      out = done ++ todo'
      /\ Forall2 (fun d d' =>
                    skipped R d = false ->
                    SRow.accumulated_depreciation_amount d' <> None)
                 todo todo'.
Proof.
  induction todo as [|d rest IH]; intros i done acc v out H.
  - cbn in H. inversion H. exists []. split; [symmetry; apply app_nil_r|].
    constructor.
  - reconcile_case H.
    + apply IH in H. destruct H as (todo' & -> & HF).
      exists (d :: todo'). rewrite <- app_assoc. split; [reflexivity|].
      constructor; [|exact HF]. unfold skipped. intros E. congruence.
    + apply IH in H. destruct H as (todo' & -> & HF).
      eexists (_ :: todo'). rewrite <- app_assoc. split; [reflexivity|].
      constructor; [|exact HF]. intros _. discriminate.
Qed.

(** X5. [set_accumulated_depreciation] changes neither the asset nor the
    policy row, and in the schedule only amounts: the rows stay in place with
    their number, schedule date and booking reference; a booked row passed
    over with [ignore_booked_entry] is left exactly as it was, and every
    other row comes out with an accumulated amount. *)
Theorem reconciler_keeps_the_rows_in_place
    (w w' : World) (disposal ret : option date) (ignore : bool) :
  set_accumulated_depreciation w disposal ret ignore = Ok w' ->
  w_asset w' = w_asset w
  /\ w_row w' = w_row w
  /\ List.length (Schedule.depreciation_schedule (w_self w'))
     = List.length (Schedule.depreciation_schedule (w_self w))
  /\ forall j d,
       nth_error (Schedule.depreciation_schedule (w_self w)) j = Some d ->
       exists d',
         nth_error (Schedule.depreciation_schedule (w_self w')) j = Some d'
         /\ SRow.idx d' = SRow.idx d
         /\ SRow.schedule_date d' = SRow.schedule_date d
         /\ SRow.journal_entry d' = SRow.journal_entry d
         /\ (ignore && is_truthy_str (SRow.journal_entry d) = true -> d' = d)
         /\ (ignore && is_truthy_str (SRow.journal_entry d) = false ->
             SRow.accumulated_depreciation_amount d' <> None).
Proof.
  unfold set_accumulated_depreciation. intros H.
  destruct (reconcile_loop _ _ _ _ _ _) as [out|] eqn:Hr; [|discriminate].
  cbn in H. inversion H. subst w'. cbn.
  destruct (reconcile_loop_shape _ _ _ _ _ _ _ Hr) as (t1 & E1 & F1).
  destruct (reconcile_loop_visited _ _ _ _ _ _ _ Hr) as (t2 & E2 & F2).
  cbn [app] in E1, E2. subst out. subst t2.
  repeat split.
  - symmetry. eapply Forall2_length. exact F1.
  - intros j d Hj.
    destruct (Forall2_nth_error_l _ _ _ F1 j d Hj) as (d' & Hd' & A & B & C & D).
    destruct (Forall2_nth_error_l _ _ _ F2 j d Hj) as (d2 & Hd2 & V).
    rewrite Hd' in Hd2. inversion Hd2; subst d2.
    exists d'. repeat split; assumption.
Qed.

(** X6. [set_accumulated_depreciation] returns whenever it visits every
    row, in particular whenever [ignore_booked_entry] is not passed. *)
Theorem reconciler_returns_when_no_row_is_skipped
    (w : World) (disposal ret : option date) (ignore : bool) :
  Forall (fun d => ignore && is_truthy_str (SRow.journal_entry d) = false)
         (Schedule.depreciation_schedule (w_self w)) ->
  exists w', set_accumulated_depreciation w disposal ret ignore = Ok w'.
Proof.
  intros Hvis. unfold set_accumulated_depreciation.
  set (R := make_reconcile_env _ _ _ _ _ _).
  destruct (reconcile_loop_total R _ Hvis 0 [] None
              (flt (FB.value_after_depreciation (w_row w)) None) eq_refl
              (Forall_nil _)) as (out & Hout).
  rewrite Hout. eexists. reflexivity.
Qed.


(** X8. With [ignore_booked_entry] and the decrease-in-asset-value flag, the
    running total is taken from the last booked row passed over; when that
    row has no accumulated amount, the reconciler raises TypeError at the
    first row it visits. *)
Theorem reconciler_raises_on_unset_accumulated_amount
    (w : World) (disposal ret : option date)
    (pre : list SRow.t) (last d : SRow.t) (rest : list SRow.t) :
  Schedule.depreciation_schedule (w_self w) = (pre ++ [last]) ++ d :: rest ->
  Forall (fun x => is_truthy_str (SRow.journal_entry x) = true) (pre ++ [last]) ->
  is_truthy_str (SRow.journal_entry d) = false ->
  Flags.decrease_in_asset_value_due_to_value_adjustment
    (Asset.flags (w_asset w)) = true ->
  SRow.accumulated_depreciation_amount last = None ->
  set_accumulated_depreciation w disposal ret true = Raise TypeError.
Proof.
  intros Hrows Hpre Hd Hflag Hacc. unfold set_accumulated_depreciation.
  set (R := make_reconcile_env _ _ _ _ _ _).
  rewrite Hrows.
  rewrite (reconcile_loop_skip R (pre ++ [last])) by exact Hpre.
  cbn [reconcile_loop].
  replace (r_ignore_booked_entry R) with true by reflexivity.
  rewrite Hd. cbn [andb not_accumulated].
  replace (r_decrease_flag R) with true by (symmetry; exact Hflag).
  rewrite length_app. cbn [List.length app Z.add].
  replace (0 <? Z.of_nat (List.length pre + 1)) with true
    by (symmetry; apply Z.ltb_lt; lia).
  cbn [andb].
  replace (Z.to_nat (Z.of_nat (List.length pre + 1) - 1))
    with (List.length pre + 0)%nat by lia.
  rewrite nth_error_app_shift. cbn [nth_error]. rewrite Hacc. reflexivity.
Qed.

(** X9. For a Straight Line or Manual schedule with rows numbered from 1,
    reconciled with no disposal and no return date and every row visited,
    the amounts after reconciliation add up to the policy row's value after
    depreciation less its expected value after useful life, up to the error
    [u] of one rounding: whatever the amounts were before, the last row
    takes the difference. *)
Theorem reconciled_straight_line_amounts_add_up
    (w : World) (ignore : bool) (u : Q) :
  (forall x, Qabs (rounded x amount_precision - x) <= u)%Q ->
  is_sl_or_manual (Schedule.depreciation_method (w_self w)) = true ->
  numbered (Schedule.depreciation_schedule (w_self w)) ->
  Schedule.depreciation_schedule (w_self w) <> [] ->
  Forall (fun d => ignore && is_truthy_str (SRow.journal_entry d) = false)
         (Schedule.depreciation_schedule (w_self w)) ->
  exists w',
    set_accumulated_depreciation w None None ignore = Ok w'
    /\ (Qabs (sum_amounts (Schedule.depreciation_schedule (w_self w'))
              - (FB.value_after_depreciation (w_row w)
                 - FB.expected_value_after_useful_life (w_row w))) <= u)%Q.
Proof.
  intros Hu Hsl Hnum Hne Hvis. unfold set_accumulated_depreciation.
  set (R := make_reconcile_env _ _ _ _ _ _).
  set (rows0 := Schedule.depreciation_schedule (w_self w)) in *.
  destruct (reconcile_loop_total R _ Hvis 0 [] None
              (flt (FB.value_after_depreciation (w_row w)) None) eq_refl
              (Forall_nil _)) as (out & Hout).
  rewrite Hout. eexists. split; [reflexivity|].
  cbn [w_self Schedule.set_depreciation_schedule Schedule.depreciation_schedule].
  assert (Hk : r_adjusted_index R
               = Some (0 + Z.of_nat (List.length rows0) - 1)).
  { unfold R, make_reconcile_env, straight_line_idx. cbn [r_adjusted_index].
    rewrite Hsl. fold rows0.
    destruct rows0 as [|d0 rows1] eqn:Er; [contradiction|].
    cbn [map is_none andb]. f_equal.
    change (SRow.idx d0 :: map SRow.idx rows1)
      with (map SRow.idx (d0 :: rows1)).
    rewrite list_max_numbered; [lia|exact Hnum|discriminate]. }
  pose proof (reconcile_loop_sum R u rows0 Hu 0 [] None _ out Hout Hvis Hne Hk)
    as Hsum.
  replace (r_expected R) with (FB.expected_value_after_useful_life (w_row w))
    in Hsum by reflexivity.
  cbn [flt] in Hsum.
  apply Qabs_Qle_condition in Hsum. apply Qabs_Qle_condition.
  unfold sum_amounts in *. cbn [running_total fold_left] in Hsum.
  lra.
Qed.

(** ** What the generator appends *)

Lemma Qltb_lt (x y : Q) : Qltb x y = true -> (x < y)%Q.
Proof.
  unfold Qltb. intros H. destruct (Qle_bool y x) eqn:E; [discriminate|].
  apply Qnot_le_lt. intros L. apply Qle_bool_iff in L. congruence.
Qed.

Lemma lt_Qltb (x y : Q) : (x < y)%Q -> Qltb x y = true.
Proof.
  unfold Qltb. intros H. destruct (Qle_bool y x) eqn:E; [|reflexivity].
  apply Qle_bool_iff in E. lra.
Qed.

Lemma grown_refl (E : LoopEnv) (k : nat) (rows : list SRow.t) :
  grown E k rows rows.
Proof.
  exists []. split; [symmetry; apply app_nil_r|]. split; [cbn; lia|constructor].
Qed.

Lemma grown_trans (E : LoopEnv) (k1 k2 : nat) (r1 r2 r3 : list SRow.t) :
  grown E k1 r1 r2 -> grown E k2 r2 r3 -> grown E (k1 + k2) r1 r3.
Proof.
  intros (e1 & -> & L1 & G1) (e2 & -> & L2 & G2). exists (e1 ++ e2).
  split; [symmetry; apply app_assoc|]. split.
  - rewrite length_app. lia.
  - apply Forall_app. split; assumption.
Qed.

Lemma grown_weaken (E : LoopEnv) (k k' : nat) (r r' : list SRow.t) :
  (k <= k')%nat -> grown E k r r' -> grown E k' r r'.
Proof.
  intros Hk (e & -> & L & G). exists e. repeat split; try assumption. lia.
Qed.

Lemma append_period_grown (E : LoopEnv) (n : Z) (st st' : Locals) :
  date_of_disposal E = None ->
  append_period E n st = Ok st' -> grown E 1 (rows st) (rows st').
Proof.
  unfold append_period. intros Hd H.
  destruct (negb (truthy (depreciation_amount st))).
  { inversion H. apply grown_refl. }
  destruct (Qltb 0 _) eqn:Hpos.
  - destruct (read_schedule_date (schedule_date st)); [|discriminate].
    cbn in H. inversion H. cbn [rows]. eexists. split; [reflexivity|].
    split; [cbn; lia|]. constructor; [|constructor].
    unfold generated_row. cbn. rewrite Hd. repeat split.
    apply Qltb_lt. exact Hpos.
  - inversion H. apply grown_refl.
Qed.

Lemma dispose_grown (E : LoopEnv) (disposal : date) (st st' : Locals) :
  date_of_disposal E = Some disposal ->
  dispose E disposal st = Ok st' ->
  grown E 1 (rows st) (rows st') /\ skip_row st' = skip_row st.
Proof.
  unfold dispose. intros Hd H.
  destruct (_get_pro_rata_amt _ _ _ _ _) as [[[amount days] months]|];
    [|discriminate].
  cbn in H. inversion H. cbn [rows skip_row]. split; [|reflexivity].
  destruct (Qltb 0 amount) eqn:Hpos; [|apply grown_refl].
  eexists. split; [reflexivity|]. split; [cbn; lia|].
  constructor; [|constructor].
  unfold generated_row. cbn. rewrite Hd. repeat split.
  apply Qltb_lt. exact Hpos.
Qed.

Lemma loop_body_grown (E : LoopEnv) (n : Z) (st st' : Locals) (c : control) :
  loop_body E n st = Ok (c, st') ->
  grown E 1 (rows st) (rows st')
  /\ (date_of_disposal E <> None -> c = Next -> st' = st).
Proof.
  unfold loop_body. intros H.
  destruct (skip_row st).
  { inversion H. split; [apply grown_refl|reflexivity]. }
  destruct (get_depreciation_amount _ _ _ _ _ _ _) as [amount|]; [|discriminate].
  cbn [bind] in H.
  destruct (date_of_disposal E) as [disposal|] eqn:Hd.
  - destruct (dispose _ _ _) as [st1|] eqn:Hs; [|discriminate].
    cbn in H. inversion H; subst. apply dispose_grown in Hs; [|exact Hd].
    split; [apply Hs|]. intros _ Hc. discriminate.
  - destruct (boundary_pro_rata _ _ _) as [[[amount' a] sd]|]; [|discriminate].
    cbn [bind] in H.
    destruct (append_period _ _ _) as [st1|] eqn:Ha; [|discriminate].
    cbn in H. inversion H; subst. apply append_period_grown in Ha; [|exact Hd].
    split; [exact Ha|]. intros Hne. contradiction.
Qed.

Lemma run_loop_grown (E : LoopEnv) (ns : list Z) :
  forall st st',
    run_loop E ns st = Ok st' ->
    grown E (List.length ns) (rows st) (rows st')
    /\ (date_of_disposal E <> None -> grown E 1 (rows st) (rows st')).
Proof.
  induction ns as [|n ns IH]; intros st st' H.
  - inversion H. split; intros; apply grown_refl.
  - cbn [run_loop] in H.
    destruct (loop_body E n st) as [[c st1]|] eqn:Hb; [|discriminate].
    cbn [bind] in H. apply loop_body_grown in Hb. destruct Hb as [Hg Hnext].
    destruct c.
    + apply IH in H. destruct H as [H1 H2]. split.
      * change (List.length (n :: ns)) with (1 + List.length ns)%nat.
        eapply grown_trans; eassumption.
      * intros Hd. rewrite (Hnext Hd eq_refl) in H2. apply H2. exact Hd.
    + inversion H; subst. split.
      * eapply grown_weaken; [|exact Hg]. cbn. lia.
      * intros _. exact Hg.
Qed.

Lemma range_nil' (start stop : Z) : stop <= start -> range start stop = [].
Proof.
  intros H. unfold range. replace (Z.to_nat (stop - start)) with 0%nat by lia.
  reflexivity.
Qed.

Lemma length_range (start stop : Z) :
  List.length (range start stop) = Z.to_nat (stop - start).
Proof. unfold range. rewrite length_map, length_seq. reflexivity. Qed.

(** X10. [_make_depr_schedule] keeps the rows it is given and only appends
    to them.  Every row it appends is numbered on from the last, carries no
    booking reference and no accumulated amount, and has a positive amount:
    with a disposal date the row is dated at it and its amount is positive,
    otherwise the amount rounded to the precision of the gross purchase
    amount is positive (zero-amount periods are not appended). *)
Theorem generation_appends_unbooked_positive_rows
    (w w' : World) (start : Z) (disposal : option date) (update : bool)
    (value : option Q) :
  _make_depr_schedule w start disposal update value = Ok w' ->
  exists extra,
    Schedule.depreciation_schedule (w_self w')
    = Schedule.depreciation_schedule (w_self w) ++ extra
    /\ forall j d,
         nth_error extra j = Some d ->
         SRow.idx d
         = Z.of_nat (List.length (Schedule.depreciation_schedule (w_self w))
                     + j) + 1
         /\ SRow.journal_entry d = None
         /\ SRow.accumulated_depreciation_amount d = None
         /\ match disposal with
            | Some disposal_date =>
                SRow.schedule_date d = disposal_date
                /\ (0 < SRow.depreciation_amount d)%Q
            | None =>
                (0 < rounded (SRow.depreciation_amount d) gross_precision)%Q
            end.
Proof.
  intros H.
  destruct (_make_depr_schedule_appended _ _ _ _ _ _ H)
    as ((extra & Hx & Hidx) & _ & _).
  unfold _make_depr_schedule in H.
  destruct (validate_asset_finance_books _ _) as [[asset fb]|]; [|discriminate].
  cbn [bind] in H.
  destruct (run_loop _ _ _) as [st|] eqn:Hr; [|discriminate].
  cbn in H. inversion H; subst w'. clear H. cbn in Hx |- *.
  apply run_loop_grown in Hr. destruct Hr as [(extra' & Hx' & _ & Hg) _].
  cbn in Hx'. rewrite Hx in Hx'. apply app_inv_head in Hx'. subst extra'.
  exists extra. split; [exact Hx|].
  intros j d Hj. split; [apply Hidx; exact Hj|].
  rewrite Forall_forall in Hg.
  destruct (Hg d (nth_error_In _ _ Hj)) as (A & B & C).
  repeat split; assumption.
Qed.

(** X11. [_make_depr_schedule] appends at most one row for each period from
    [start] to the final number of depreciations, hence none when [start]
    has reached it, and at most one row in all when a disposal date is
    given. *)
Theorem generation_appends_at_most_one_row_per_period
    (w w' : World) (start : Z) (disposal : option date) (update : bool)
    (value : option Q) (asset : Asset.t) (fb : FB.t) :
  validate_asset_finance_books (w_asset w) (w_row w) = Ok (asset, fb) ->
  _make_depr_schedule w start disposal update value = Ok w' ->
  let E := make_loop_env asset
             (FB.set_value_after_depreciation fb
                (starting_value value asset fb))
             (w_self w) start disposal in
  let added :=
    (List.length (Schedule.depreciation_schedule (w_self w'))
     - List.length (Schedule.depreciation_schedule (w_self w)))%nat in
  (List.length (Schedule.depreciation_schedule (w_self w))
   <= List.length (Schedule.depreciation_schedule (w_self w')))%nat
  /\ (added <= Z.to_nat (final_number_of_depreciations E - start))%nat
  /\ (disposal <> None -> added <= 1)%nat.
Proof.
  intros Hv H E added. unfold _make_depr_schedule in H. rewrite Hv in H.
  cbn [bind] in H. fold E in H.
  destruct (run_loop _ _ _) as [st|] eqn:Hr; [|discriminate].
  cbn in H. inversion H; subst w'. clear H.
  apply run_loop_grown in Hr. destruct Hr as [(e1 & X1 & L1 & _) Hd].
  cbn in X1. rewrite length_range in L1.
  unfold added.
  cbn [w_self Schedule.set_depreciation_schedule Schedule.depreciation_schedule].
  rewrite X1, length_app.
  split; [lia|]. split; [lia|].
  intros Hne. destruct (Hd Hne) as (e2 & X2 & L2 & _).
  cbn in X2. rewrite X1 in X2. apply app_inv_head in X2. subst e2. lia.
Qed.

(** ** What the generator leaves alone *)

Lemma same_but_to_date_refl (a : Asset.t) : same_but_to_date a a.
Proof. repeat split. Qed.

Lemma same_but_to_date_trans (a b c : Asset.t) :
  same_but_to_date a b -> same_but_to_date b c -> same_but_to_date a c.
Proof.
  unfold same_but_to_date. intros H1 H2.
  repeat match goal with H : _ /\ _ |- _ => destruct H end.
  repeat split; congruence.
Qed.

Lemma boundary_pro_rata_asset (E : LoopEnv) (n : Z) (st : Locals) (amount : Q)
    (a : Asset.t) (sd : option date) :
  boundary_pro_rata E n st = Ok (amount, a, sd) ->
  same_but_to_date (asset_doc st) a.
Proof.
  unfold boundary_pro_rata. intros H.
  destruct (_ && negb _).
  { destruct (_get_pro_rata_amt _ _ _ _ _) as [[[x y] z]|]; [|discriminate].
    cbn in H. inversion H. apply same_but_to_date_refl. }
  destruct ((n =? 0) && _ && _).
  { destruct (_get_pro_rata_amt _ _ _ _ _) as [[[x y] z]|]; [|discriminate].
    cbn in H. inversion H. apply same_but_to_date_refl. }
  destruct (has_pro_rata E && _).
  - destruct (read_schedule_date _); [|discriminate]. cbn [bind] in H.
    destruct (_get_pro_rata_amt _ _ _ _ _) as [[[x y] z]|]; [|discriminate].
    cbn [bind] in H.
    destruct (get_adjusted_depreciation_amount _ _ _ _); [|discriminate].
    cbn in H. inversion H.
    destruct (negb _); [repeat split|apply same_but_to_date_refl].
  - inversion H. apply same_but_to_date_refl.
Qed.

Lemma append_period_asset (E : LoopEnv) (n : Z) (st st' : Locals) :
  append_period E n st = Ok st' -> asset_doc st' = asset_doc st.
Proof.
  unfold append_period. intros H.
  destruct (negb _). { inversion H. reflexivity. }
  destruct (Qltb 0 _).
  - destruct (read_schedule_date _); [|discriminate]. cbn in H.
    inversion H. reflexivity.
  - inversion H. reflexivity.
Qed.

Lemma loop_body_asset (E : LoopEnv) (n : Z) (st st' : Locals) (c : control) :
  loop_body E n st = Ok (c, st') ->
  same_but_to_date (asset_doc st) (asset_doc st').
Proof.
  unfold loop_body. intros H.
  destruct (skip_row st). { inversion H. apply same_but_to_date_refl. }
  destruct (get_depreciation_amount _ _ _ _ _ _ _) as [amount|]; [|discriminate].
  cbn [bind] in H.
  destruct (date_of_disposal E) as [disposal|].
  - unfold dispose in H.
    destruct (_get_pro_rata_amt _ _ _ _ _) as [[[x y] z]|]; [|discriminate].
    cbn in H. inversion H. apply same_but_to_date_refl.
  - destruct (boundary_pro_rata _ _ _) as [[[amount' a] sd]|] eqn:Hb;
      [|discriminate].
    cbn [bind] in H.
    destruct (append_period _ _ _) as [st1|] eqn:Ha; [|discriminate].
    cbn in H. inversion H; subst.
    apply append_period_asset in Ha. rewrite Ha. cbn [asset_doc].
    apply boundary_pro_rata_asset in Hb. exact Hb.
Qed.

Lemma run_loop_asset (E : LoopEnv) (ns : list Z) :
  forall st st',
    run_loop E ns st = Ok st' ->
    same_but_to_date (asset_doc st) (asset_doc st').
Proof.
  induction ns as [|n ns IH]; intros st st' H.
  - inversion H. apply same_but_to_date_refl.
  - cbn [run_loop] in H.
    destruct (loop_body E n st) as [[c st1]|] eqn:Hb; [|discriminate].
    cbn [bind] in H. apply loop_body_asset in Hb.
    destruct c.
    + eapply same_but_to_date_trans; [exact Hb|]. apply IH. exact H.
    + inversion H; subst. exact Hb.
Qed.

(** X12. Apart from the rows it appends, [_make_depr_schedule] changes two
    things in the documents that validation hands it: the asset's [to_date]
    and the policy row's value after depreciation, which is set to the value
    the generation starts from.  Every other field of the asset, of the
    policy row and of the schedule is as it was. *)
Theorem generation_changes_to_date_and_starting_value_only
    (w w' : World) (start : Z) (disposal : option date) (update : bool)
    (value : option Q) (asset : Asset.t) (fb : FB.t) :
  validate_asset_finance_books (w_asset w) (w_row w) = Ok (asset, fb) ->
  _make_depr_schedule w start disposal update value = Ok w' ->
  same_but_to_date asset (w_asset w')
  /\ w_row w' = FB.set_value_after_depreciation fb
                  (starting_value value asset fb)
  /\ w_self w'
     = Schedule.set_depreciation_schedule (w_self w)
         (Schedule.depreciation_schedule (w_self w')).
Proof.
  intros Hv H. unfold _make_depr_schedule in H. rewrite Hv in H.
  cbn [bind] in H.
  destruct (run_loop _ _ _) as [st|] eqn:Hr; [|discriminate].
  cbn in H. inversion H; subst w'. clear H. cbn.
  apply run_loop_asset in Hr. cbn in Hr. repeat split; apply Hr.
Qed.

(** ** Exceptions of the generator *)

(** X13. When the only period left to generate is the partial period added
    for pro-rata ([start] is the final number of depreciations less one, not
    zero, and that number is not 2) and no disposal date is given, the loop
    reads [schedule_date] before any iteration has assigned it:
    [_make_depr_schedule] raises UnboundLocalError (once the period amount
    has been computed). *)
Theorem generation_of_the_last_partial_period_alone_fails
    (w : World) (start : Z) (update : bool) (value : option Q)
    (asset : Asset.t) (fb : FB.t) (amount : Q) :
  validate_asset_finance_books (w_asset w) (w_row w) = Ok (asset, fb) ->
  let value0 := starting_value value asset fb in
  let fb_row := FB.set_value_after_depreciation fb value0 in
  let E := make_loop_env asset fb_row (w_self w) start None in
  has_pro_rata E = true ->
  start = final_number_of_depreciations E - 1 ->
  0 < start ->
  final_number_of_depreciations E <> 2 ->
  get_depreciation_amount asset value0 fb_row start
    (prev_depreciation_amount start
       (Schedule.depreciation_schedule (w_self w)))
    (has_wdv_or_dd_non_yearly_pro_rata E)
    (number_of_pending_depreciations E) = Ok amount ->
  _make_depr_schedule w start None update value = Raise UnboundLocalError.
Proof.
  intros Hv value0 fb_row E Hp Hs Hpos Hf2 Ha.
  unfold _make_depr_schedule. rewrite Hv. cbn [bind].
  fold value0 fb_row E.
  rewrite range_cons by lia. cbn [run_loop].
  unfold loop_body. cbn [skip_row asset_doc value_after_depreciation rows].
  replace (row E) with fb_row by reflexivity.
  rewrite Ha. cbn [bind].
  replace (date_of_disposal E) with (@None date) by reflexivity.
  unfold nominal_schedule_date. rewrite Hp. cbn [negb orb schedule_date].
  replace (start <? final_number_of_depreciations E - 1) with false
    by (symmetry; apply Z.ltb_ge; lia).
  replace (final_number_of_depreciations E =? 2) with false
    by (symmetry; apply Z.eqb_neq; exact Hf2).
  cbn [orb].
  unfold boundary_pro_rata. cbn [schedule_date asset_doc depreciation_amount].
  replace (start =? 0) with false by (symmetry; apply Z.eqb_neq; lia).
  cbn [andb]. rewrite Hp.
  replace (start =? final_number_of_depreciations E - 1) with true
    by (symmetry; apply Z.eqb_eq; exact Hs).
  reflexivity.
Qed.

(** X14. A generation call with a disposal date that does not come after
    the date it is counted from (the schedule date of the last existing row,
    or the shifted available-for-use date) appends nothing and raises
    nothing: the schedule is returned with the rows it had. *)
Theorem disposal_not_after_the_last_row_appends_nothing
    (w : World) (start : Z) (disposal : date) (update : bool)
    (value : option Q) (asset : Asset.t) (fb : FB.t) (amount : Q) :
  validate_asset_finance_books (w_asset w) (w_row w) = Ok (asset, fb) ->
  let value0 := starting_value value asset fb in
  let fb_row := FB.set_value_after_depreciation fb value0 in
  let E := make_loop_env asset fb_row (w_self w) start (Some disposal) in
  let rows0 := Schedule.depreciation_schedule (w_self w) in
  let from_date :=
    match rev rows0 with
    | last :: _ => SRow.schedule_date last
    | [] => add_months (getdate (Asset.available_for_use_date asset))
              (Asset.number_of_depreciations_booked asset
               * FB.frequency_of_depreciation fb)
    end in
  start < final_number_of_depreciations E ->
  get_depreciation_amount asset value0 fb_row start
    (prev_depreciation_amount start rows0)
    (has_wdv_or_dd_non_yearly_pro_rata E)
    (number_of_pending_depreciations E) = Ok amount ->
  (0 <= amount)%Q ->
  0 < get_total_days disposal (FB.frequency_of_depreciation fb) ->
  date_diff disposal from_date <= 0 ->
  exists w',
    _make_depr_schedule w start (Some disposal) update value = Ok w'
    /\ Schedule.depreciation_schedule (w_self w') = rows0.
Proof.
  intros Hv value0 fb_row E rows0 from_date Hlt Ha Hamt Ht Hd.
  unfold _make_depr_schedule. rewrite Hv. cbn [bind].
  fold value0 fb_row E rows0.
  rewrite (range_cons _ _ Hlt). cbn [run_loop].
  unfold loop_body. cbn [skip_row asset_doc value_after_depreciation rows].
  replace (row E) with fb_row by reflexivity.
  rewrite Ha. cbn [bind].
  replace (date_of_disposal E) with (Some disposal) by reflexivity.
  unfold dispose, _get_pro_rata_amt, disposal_from_date.
  cbn [rows depreciation_amount asset_doc].
  replace (row E) with fb_row by reflexivity.
  replace (FB.frequency_of_depreciation fb_row)
    with (FB.frequency_of_depreciation fb) by reflexivity.
  fold from_date.
  set (total := get_total_days disposal (FB.frequency_of_depreciation fb)) in *.
  set (days := date_diff disposal from_date) in *.
  assert (Htq : (0 < inject_Z total)%Q)
    by (change 0%Q with (inject_Z 0); rewrite <- Zlt_Qlt; exact Ht).
  assert (Hdq : (inject_Z days <= 0)%Q)
    by (change 0%Q with (inject_Z 0); rewrite <- Zle_Qle; exact Hd).
  unfold py_div.
  destruct (Qeq_bool (inject_Z total) 0) eqn:Ez.
  { apply Qeq_bool_iff in Ez. lra. }
  cbn [bind].
  assert (Hshare : Qltb 0 (amount * inject_Z days / inject_Z total) = false).
  { unfold Qltb. apply negb_false_iff. apply Qle_bool_iff.
    apply Qle_shift_div_r; [exact Htq|]. nra. }
  rewrite Hshare. eexists. split; reflexivity.
Qed.

(** ** The straight-line schedule without a partial period *)




(** ** The daily pro-rata mode *)

Lemma daily_period_days_between_ends (fb : FB.t) (idx : Z) :
  (forall a b, date_diff a (add_days b 1) = date_diff a b - 1) ->
  daily_period_days fb idx
  = date_diff (period_end fb idx) (period_end fb (idx - 1)).
Proof.
  intros H1. unfold daily_period_days, period_end. cbv zeta.
  rewrite H1. lia.
Qed.

Lemma daily_days_telescope (fb : FB.t) (k : nat) :
  (forall a b, date_diff a (add_days b 1) = date_diff a b - 1) ->
  (forall a b c, date_diff a c = date_diff a b + date_diff b c) ->
  forall s,
    fold_right Z.add 0 (map (daily_period_days fb) (range s (s + Z.of_nat k)))
    = date_diff (period_end fb (s + Z.of_nat k - 1)) (period_end fb (s - 1)).
Proof.
  intros H1 H2. induction k as [|k IH]; intros s.
  - rewrite range_nil' by lia. cbn.
    replace (s + 0 - 1) with (s - 1) by lia.
    pose proof (H2 (period_end fb (s - 1)) (period_end fb (s - 1))
                   (period_end fb (s - 1))). lia.
  - rewrite range_cons by lia. cbn [map fold_right].
    replace (s + Z.of_nat (S k)) with (s + 1 + Z.of_nat k) by lia.
    rewrite IH, daily_period_days_between_ends by exact H1.
    replace (s + 1 - 1) with s by lia.
    rewrite (H2 (period_end fb (s + 1 + Z.of_nat k - 1)) (period_end fb s)
                (period_end fb (s - 1))). lia.
Qed.

Lemma Qsum_scaled (c : Q) (f : Z -> Z) (l : list Z) :
  (Qsum (map (fun n => c * inject_Z (f n)) l)
   == c * inject_Z (fold_right Z.add 0%Z (map f l)))%Q.
Proof.
  induction l as [|n l IH]; cbn [map fold_right Qsum].
  - change (inject_Z 0) with 0%Q. ring.
  - change (fold_right Qplus 0 (map (fun n => c * inject_Z (f n)) l))%Q
      with (Qsum (map (fun n => c * inject_Z (f n)) l))%Q.
    rewrite IH, inject_Z_plus. ring.
Qed.

(** X18. In the daily pro-rata mode of a first preparation, the amount of a
    period is the daily amount times the days from the end of the previous
    period to the end of the period.  The daily amount divides the amount to
    depreciate by the days from the day after the end of period -1 to the end
    of the last period, which is one day less than the days the periods add
    up to: with [D] the days from the end of period -1 to the end of the last
    period, the amounts of all periods add up to the amount to depreciate
    times [D / (D - 1)].  (Stated for a calendar in which day differences add
    up and the next day is one day further.) *)
Theorem daily_pro_rata_amounts_add_up_to_one_day_more
    (asset : Asset.t) (fb : FB.t) (pending : Z) :
  (forall a b, date_diff a (add_days b 1) = date_diff a b - 1) ->
  (forall a b c, date_diff a c = date_diff a b + date_diff b c) ->
  Asset.flags asset = Flags.mk false false false ->
  FB.daily_prorata_based fb = true ->
  let periods :=
    FB.total_number_of_depreciations fb
    - Asset.number_of_depreciations_booked asset in
  let days := date_diff (period_end fb (periods - 1)) (period_end fb (-1)) in
  let to_depreciate :=
    (Asset.gross_purchase_amount asset
     - Asset.opening_accumulated_depreciation asset
     - FB.expected_value_after_useful_life fb)%Q in
  0 <= periods ->
  days - 1 <> 0 ->
  exists amounts,
    Forall2 (fun idx a =>
               get_straight_line_or_manual_depr_amount asset fb idx pending
               = Ok a)
            (range 0 periods) amounts
    /\ (Qsum amounts * inject_Z (days - 1) == to_depreciate * inject_Z days)%Q.
Proof.
  intros H1 H2 Hfl Hdaily periods days to_depreciate Hper Hdays.
  set (daily := (to_depreciate / inject_Z (days - 1))%Q).
  assert (Hq : ~ (inject_Z (days - 1) == 0)%Q).
  { intros E. apply Hdays.
    apply (proj1 (inject_Z_injective (days - 1) 0)). exact E. }
  assert (Hamount : forall idx,
             get_straight_line_or_manual_depr_amount asset fb idx pending
             = Ok (daily * inject_Z (daily_period_days fb idx))%Q).
  { intros idx. unfold get_straight_line_or_manual_depr_amount. cbv zeta.
    rewrite Hfl. cbn [Flags.increase_in_asset_life
                      Flags.increase_in_asset_value_due_to_repair
                      Flags.decrease_in_asset_value_due_to_value_adjustment].
    rewrite Hdaily, H1.
    change (get_last_day
              (add_months (FB.depreciation_start_date fb)
                 ((FB.total_number_of_depreciations fb
                   - Asset.number_of_depreciations_booked asset - 1)
                  * FB.frequency_of_depreciation fb)))
      with (period_end fb (periods - 1)).
    change (get_last_day
              (add_months (FB.depreciation_start_date fb)
                 (-1 * FB.frequency_of_depreciation fb)))
      with (period_end fb (-1)).
    fold days. unfold py_div.
    destruct (Qeq_bool (inject_Z (days - 1)) 0) eqn:Ez.
    { apply Qeq_bool_iff in Ez. contradiction. }
    reflexivity. }
  exists (map (fun idx => (daily * inject_Z (daily_period_days fb idx))%Q)
              (range 0 periods)).
  split.
  - induction (range 0 periods) as [|n l IH]; cbn [map]; constructor;
      [apply Hamount|exact IH].
  - rewrite Qsum_scaled.
    assert (Hr : range 0 periods = range 0 (0 + Z.of_nat (Z.to_nat periods))).
    { unfold range. f_equal. f_equal. lia. }
    rewrite Hr, (daily_days_telescope fb _ H1 H2).
    replace (0 + Z.of_nat (Z.to_nat periods) - 1) with (periods - 1) by lia.
    change (0 - 1) with (-1). fold days.
    unfold daily. field. exact Hq.
Qed.

(** ** Regeneration after the booked rows *)

(** X19. When the asset has an available-for-use date, [make_depr_schedule]
    returns a schedule that begins with the leading booked rows of the
    schedule it was given, exactly as they were, and continues with rows it
    generated: whatever followed the first unbooked row is replaced. *)
Theorem regeneration_replaces_what_follows_the_booked_rows
    (w w' : World) (disposal : option date) (update : bool) (value : option Q)
    (available : date) :
  Asset.available_for_use_date (w_asset w) = Some available ->
  make_depr_schedule w disposal update value = Ok w' ->
  exists extra,
    Schedule.depreciation_schedule (w_self w')
    = leading_booked (Schedule.depreciation_schedule (w_self w)) ++ extra
    /\ Forall (fun d => SRow.journal_entry d = None
                        /\ SRow.accumulated_depreciation_amount d = None)
              extra.
Proof.
  intros Ha H. unfold make_depr_schedule in H. rewrite Ha in H.
  unfold clear_depr_schedule in H. rewrite clear_loop_leading_booked in H.
  cbn [app] in H.
  unfold _make_depr_schedule in H. cbn [w_asset w_row w_self] in H.
  destruct (validate_asset_finance_books _ _) as [[asset fb]|]; [|discriminate].
  cbn [bind] in H.
  destruct (run_loop _ _ _) as [st|] eqn:Hr; [|discriminate].
  cbn in H. inversion H; subst w'. clear H. cbn.
  apply run_loop_grown in Hr. destruct Hr as [(extra & Hx & _ & Hg) _].
  cbn in Hx. exists extra. split; [exact Hx|].
  eapply Forall_impl; [|exact Hg].
  intros d (A & B & _). split; assumption.
Qed.

(** ** The reducing-balance schedule booked once a year *)

Lemma reducing_rows_loop (E : LoopEnv) (asset : Asset.t) (rate : Q -> Q)
    (k : nat) :
  date_of_disposal E = None ->
  has_pro_rata E = false ->
  has_wdv_or_dd_non_yearly_pro_rata E = false ->
  truthy (FB.expected_value_after_useful_life (row E)) = false ->
  should_get_last_day E
  = is_last_day_of_the_month (FB.depreciation_start_date (row E)) ->
  (forall v n prev,
      get_depreciation_amount asset v (row E) n prev false
        (number_of_pending_depreciations E) = Ok (v * (rate v / 100))%Q) ->
  forall (s : Z) (st : Locals),
    skip_row st = false ->
    asset_doc st = asset ->
    Z.of_nat (List.length (rows st)) = s ->
    reducing_amounts_positive rate (value_after_depreciation st) k ->
    exists st',
      run_loop E (range s (s + Z.of_nat k)) st = Ok st'
      /\ rows st'
         = rows st
           ++ reducing_rows (row E) rate (value_after_depreciation st) s k.
Proof.
  intros Hd Hp Hw He Hl Ha.
  induction k as [|k IH]; intros s st Hs Hasset Hlen Hpos.
  - rewrite range_nil' by lia. eexists. split; [reflexivity|].
    cbn. symmetry. apply app_nil_r.
  - cbn [reducing_amounts_positive] in Hpos. destruct Hpos as (Ht & Hr & Hrest).
    rewrite range_cons by lia. cbn [run_loop reducing_rows].
    unfold loop_body. rewrite Hs, Hasset, Hw, Ha. cbn [bind].
    rewrite Hd.
    unfold boundary_pro_rata.
    cbn [asset_doc depreciation_amount schedule_date rows].
    rewrite Hp, Hw. cbn [orb andb]. rewrite !andb_false_r. cbn [andb bind].
    unfold append_period.
    cbn [depreciation_amount value_after_depreciation rows asset_doc
         skip_row schedule_date].
    rewrite Ht. cbn [negb]. rewrite He. cbn [andb flt].
    rewrite (lt_Qltb _ _ Hr).
    unfold nominal_schedule_date. rewrite Hp. cbn [negb orb].
    cbn [read_schedule_date bind].
    match goal with
    | |- exists st', run_loop E _ ?st1 = Ok st' /\ _ =>
        destruct (IH (s + 1) st1) as (st' & Hrun & Hrows)
    end.
    + reflexivity.
    + reflexivity.
    + cbn [rows]. unfold add_depr_schedule_row. rewrite length_app. cbn. lia.
    + exact Hrest.
    + exists st'. replace (s + Z.of_nat (S k)) with (s + 1 + Z.of_nat k) by lia.
      split; [exact Hrun|]. rewrite Hrows. cbn [rows value_after_depreciation].
      unfold add_depr_schedule_row. rewrite <- app_assoc. cbn [app].
      rewrite Hlen. unfold nominal_date. rewrite Hl. reflexivity.
Qed.

Lemma reducing_rows_policy (fb fb' : FB.t) (rate : Q -> Q) (k : nat) :
  FB.depreciation_start_date fb' = FB.depreciation_start_date fb ->
  FB.frequency_of_depreciation fb' = FB.frequency_of_depreciation fb ->
  forall v n, reducing_rows fb' rate v n k = reducing_rows fb rate v n k.
Proof.
  intros Hs Hf. induction k as [|k IH]; intros v n; [reflexivity|].
  cbn [reducing_rows]. rewrite IH. unfold nominal_date. rewrite Hs, Hf.
  reflexivity.
Qed.

(** X20. A schedule whose method is neither Straight Line nor Manual, booked
    once a year (frequency 12), generated from no rows with no partial first
    period, no disposal date and no expected value after useful life, is a
    reducing balance: when every amount is nonzero and rounds to a positive
    value, there is one row for every period, and the amount of each row is
    the rate, in percent, of the value that the rounded amounts of the rows
    before it have left of the starting value. *)
Theorem yearly_written_down_schedule_is_a_reducing_balance
    (w : World) (update : bool) (value : option Q)
    (asset : Asset.t) (fb : FB.t) :
  validate_asset_finance_books (w_asset w) (w_row w) = Ok (asset, fb) ->
  Schedule.depreciation_schedule (w_self w) = [] ->
  is_sl_or_manual (FB.depreciation_method fb) = false ->
  FB.frequency_of_depreciation fb = 12 ->
  truthy (FB.expected_value_after_useful_life fb) = false ->
  let value0 := starting_value value asset fb in
  let fb_row := FB.set_value_after_depreciation fb value0 in
  let E := make_loop_env asset fb_row (w_self w) 0 None in
  let rate v := get_updated_rate_of_depreciation_for_wdv_and_dd asset v fb_row in
  let periods := Z.to_nat (final_number_of_depreciations E) in
  has_pro_rata E = false ->
  reducing_amounts_positive rate value0 periods ->
  exists w',
    _make_depr_schedule w 0 None update value = Ok w'
    /\ Schedule.depreciation_schedule (w_self w')
       = reducing_rows fb rate value0 0 periods.
Proof.
  intros Hv Hrows Hsl Hfreq He value0 fb_row E rate periods Hp Hpos.
  unfold _make_depr_schedule. rewrite Hv. cbn [bind]. fold value0 fb_row E.
  assert (Hw : has_wdv_or_dd_non_yearly_pro_rata E = false).
  { unfold E, make_loop_env. cbn [has_wdv_or_dd_non_yearly_pro_rata].
    replace (FB.frequency_of_depreciation fb_row) with 12
      by (symmetry; exact Hfreq).
    cbn. rewrite andb_false_r. reflexivity. }
  assert (Ha : forall v n prev,
             get_depreciation_amount asset v (row E) n prev false
               (number_of_pending_depreciations E)
             = Ok (v * (rate v / 100))%Q).
  { intros v n prev. unfold get_depreciation_amount.
    replace (FB.depreciation_method (row E)) with (FB.depreciation_method fb)
      by reflexivity.
    rewrite Hsl. unfold get_wdv_or_dd_depr_amount.
    replace (FB.frequency_of_depreciation (row E)) with 12
      by (symmetry; exact Hfreq).
    reflexivity. }
  set (final := final_number_of_depreciations E) in *.
  assert (Hrange : range 0 final = range 0 (0 + Z.of_nat periods)).
  { unfold range, periods. f_equal. f_equal. lia. }
  rewrite Hrange.
  destruct (reducing_rows_loop E asset rate periods eq_refl Hp Hw He eq_refl Ha
              0
              (mkLocals (Schedule.depreciation_schedule (w_self w)) asset
                        value0 false 0%Q None))
    as (st' & Hrun & Hst).
  - reflexivity.
  - reflexivity.
  - cbn [rows]. rewrite Hrows. reflexivity.
  - exact Hpos.
  - rewrite Hrun. cbn [bind]. eexists. split; [reflexivity|].
    cbn [w_self Schedule.set_depreciation_schedule
         Schedule.depreciation_schedule].
    rewrite Hst. cbn [rows value_after_depreciation]. rewrite Hrows.
    cbn [app]. apply reducing_rows_policy; reflexivity.
Qed.

(** ** Generating twice *)

Ltac same_fields H :=
  destruct H as (?Hname & ?Hdoc & ?Hgross & ?Hopening & ?Hbooked & ?Havail
                 & ?Hflags).

Lemma get_depreciation_amount_same (a a' : Asset.t) (v : Q) (fb : FB.t)
    (n : Z) (prev : Q) (flag : bool) (pending : Z) :
  regional_rate_of_depreciation = None ->
  Flags.increase_in_asset_life (Asset.flags a) = false ->
  same_but_to_date a a' ->
  get_depreciation_amount a' v fb n prev flag pending
  = get_depreciation_amount a v fb n prev flag pending.
Proof.
  intros Hreg Hlife Hs. same_fields Hs.
  unfold get_depreciation_amount,
    get_updated_rate_of_depreciation_for_wdv_and_dd,
    get_straight_line_or_manual_depr_amount.
  rewrite Hreg. cbv zeta. rewrite Hflags, Hlife, Hgross, Hopening, Hbooked.
  reflexivity.
Qed.

Lemma _check_is_pro_rata_same (a a' : Asset.t) (fb : FB.t) (b : bool) :
  same_but_to_date a a' ->
  _check_is_pro_rata a' fb b = _check_is_pro_rata a fb b.
Proof.
  intros Hs. same_fields Hs.
  unfold _check_is_pro_rata, _get_modified_available_for_use_date.
  rewrite Havail, Hbooked. reflexivity.
Qed.

Lemma make_loop_env_same (a a' : Asset.t) (fb : FB.t) (doc : Schedule.t)
    (start : Z) (disposal : option date) :
  same_but_to_date a a' ->
  make_loop_env a' fb doc start disposal = make_loop_env a fb doc start disposal.
Proof.
  intros Hs. unfold make_loop_env.
  rewrite !(_check_is_pro_rata_same a a') by exact Hs. reflexivity.
Qed.

Lemma boundary_pro_rata_same (E : LoopEnv) (n : Z) (st : Locals)
    (a' : Asset.t) (amount : Q) (a1 : Asset.t) (sd : option date) :
  Flags.increase_in_asset_life (Asset.flags (asset_doc st)) = false ->
  same_but_to_date (asset_doc st) a' ->
  boundary_pro_rata E n st = Ok (amount, a1, sd) ->
  exists a1',
    boundary_pro_rata E n (with_asset st a') = Ok (amount, a1', sd)
    /\ same_but_to_date a1 a1'.
Proof.
  intros Hlife Hs H. pose proof Hs as Hs'. same_fields Hs.
  unfold boundary_pro_rata in *.
  cbn [with_asset asset_doc depreciation_amount schedule_date rows].
  rewrite Havail, Hflags, Hlife. rewrite Hlife in H. cbn [negb] in *.
  destruct (_ && negb _).
  { destruct (_get_pro_rata_amt _ _ _ _ _) as [[[x y] z]|]; [|discriminate].
    cbn in H |- *. inversion H; subst. eexists. split; [reflexivity|].
    exact Hs'. }
  destruct ((n =? 0) && _ && _).
  { destruct (_get_pro_rata_amt _ _ _ _ _) as [[[x y] z]|]; [|discriminate].
    cbn in H |- *. inversion H; subst. eexists. split; [reflexivity|].
    exact Hs'. }
  destruct (has_pro_rata E && _).
  - destruct (read_schedule_date _); [|discriminate]. cbn [bind] in H |- *.
    cbn [Asset.to_date Asset.set_to_date] in H |- *.
    destruct (_get_pro_rata_amt _ _ _ _ _) as [[[x y] z]|]; [|discriminate].
    cbn [bind] in H |- *.
    destruct (get_adjusted_depreciation_amount _ _ _ _); [|discriminate].
    cbn in H |- *. inversion H; subst. eexists. split; [reflexivity|].
    repeat split; cbn; assumption.
  - inversion H; subst. eexists. split; [reflexivity|]. exact Hs'.
Qed.

Lemma append_period_same (E : LoopEnv) (n : Z) (st st1 : Locals) (a' : Asset.t) :
  append_period E n st = Ok st1 ->
  append_period E n (with_asset st a') = Ok (with_asset st1 a').
Proof.
  unfold append_period.
  cbn [with_asset depreciation_amount value_after_depreciation rows skip_row
       schedule_date asset_doc].
  intros H.
  destruct (negb _). { inversion H. reflexivity. }
  destruct (Qltb 0 _).
  - destruct (read_schedule_date _); [|discriminate]. cbn in H |- *.
    inversion H. reflexivity.
  - inversion H. reflexivity.
Qed.

Lemma loop_body_same (E : LoopEnv) (n : Z) (st st1 : Locals) (c : control)
    (a' : Asset.t) :
  regional_rate_of_depreciation = None ->
  Flags.increase_in_asset_life (Asset.flags (asset_doc st)) = false ->
  same_but_to_date (asset_doc st) a' ->
  loop_body E n st = Ok (c, st1) ->
  exists a1',
    loop_body E n (with_asset st a') = Ok (c, with_asset st1 a1')
    /\ same_but_to_date (asset_doc st1) a1'.
Proof.
  intros Hreg Hlife Hs H. unfold loop_body in *.
  cbn [with_asset skip_row asset_doc value_after_depreciation rows
       schedule_date].
  destruct (skip_row st) eqn:Hskip.
  { inversion H; subst. exists a'. split; [|exact Hs].
    unfold with_asset. rewrite Hskip. reflexivity. }
  rewrite (get_depreciation_amount_same (asset_doc st) a') by assumption.
  destruct (get_depreciation_amount _ _ _ _ _ _ _) as [amount|]; [|discriminate].
  cbn [bind] in H |- *.
  destruct (date_of_disposal E) as [disposal|].
  - unfold dispose, disposal_from_date in *.
    cbn [rows depreciation_amount asset_doc value_after_depreciation skip_row
         schedule_date] in H |- *.
    pose proof Hs as Hs'. same_fields Hs. rewrite Havail, Hbooked.
    destruct (_get_pro_rata_amt _ _ _ _ _) as [[[x y] z]|]; [|discriminate].
    cbn in H |- *. inversion H; subst. exists a'. split; [|exact Hs'].
    reflexivity.
  - destruct (boundary_pro_rata _ _ _) as [[[amount' a1] sd]|] eqn:Hb;
      [|discriminate].
    cbn [bind] in H.
    destruct (append_period _ _ _) as [st2|] eqn:Ha; [|discriminate].
    cbn in H. inversion H; subst. clear H.
    eapply boundary_pro_rata_same in Hb; [|exact Hlife|exact Hs].
    destruct Hb as (a1' & Hb' & Hs1).
    unfold with_asset in Hb'.
    cbn [rows asset_doc value_after_depreciation skip_row depreciation_amount
         schedule_date] in Hb'.
    rewrite Hb'. cbn [bind].
    pose proof (append_period_asset _ _ _ _ Ha) as Hasset.
    cbn [asset_doc] in Hasset.
    apply (append_period_same _ _ _ _ a1') in Ha.
    unfold with_asset in Ha at 1.
    cbn [rows asset_doc value_after_depreciation skip_row depreciation_amount
         schedule_date] in Ha.
    rewrite Ha. cbn [bind].
    exists a1'. split; [reflexivity|]. rewrite Hasset. exact Hs1.
Qed.

Lemma run_loop_same (E : LoopEnv) (ns : list Z) :
  regional_rate_of_depreciation = None ->
  forall (st st1 : Locals) (a' : Asset.t),
    Flags.increase_in_asset_life (Asset.flags (asset_doc st)) = false ->
    same_but_to_date (asset_doc st) a' ->
    run_loop E ns st = Ok st1 ->
    exists a1',
      run_loop E ns (with_asset st a') = Ok (with_asset st1 a1')
      /\ same_but_to_date (asset_doc st1) a1'.
Proof.
  intros Hreg. induction ns as [|n ns IH]; intros st st1 a' Hlife Hs H.
  - inversion H; subst. exists a'. split; [reflexivity|exact Hs].
  - cbn [run_loop] in H |- *.
    destruct (loop_body E n st) as [[c st2]|] eqn:Hb; [|discriminate].
    cbn [bind] in H.
    pose proof (loop_body_asset _ _ _ _ _ Hb) as Hkeep.
    destruct (loop_body_same _ _ _ _ _ a' Hreg Hlife Hs Hb) as (a2 & Hb' & Hs2).
    rewrite Hb'. cbn [bind].
    destruct c.
    + apply (IH st2 st1 a2); [|exact Hs2|exact H].
      destruct Hkeep as (_ & _ & _ & _ & _ & _ & Hfl). rewrite Hfl. exact Hlife.
    + inversion H; subst. exists a2. split; [reflexivity|exact Hs2].
Qed.

Lemma starting_value_same (value : option Q) (a a1 : Asset.t) (r : FB.t) :
  same_but_to_date a a1 ->
  starting_value value a1
    (FB.set_value_after_depreciation r (starting_value value a r))
  = starting_value value a r.
Proof.
  intros Hs. same_fields Hs.
  unfold starting_value, _get_value_after_depreciation_for_making_schedule.
  destruct (is_truthy_opt value); [reflexivity|].
  cbn [FB.value_after_depreciation FB.set_value_after_depreciation].
  rewrite Hdoc, Hgross, Hopening.
  destruct (Asset.docstatus a =? 1); cbn [andb]; [|reflexivity].
  destruct (truthy (FB.value_after_depreciation r)) eqn:Et; cbv iota.
  - rewrite Et. reflexivity.
  - match goal with |- (if ?b then _ else _) = _ => destruct b end;
      reflexivity.
Qed.

Lemma leading_booked_unbooked (rows : list SRow.t) :
  Forall (fun d => is_truthy_str (SRow.journal_entry d) = false) rows ->
  leading_booked rows = [].
Proof.
  intros H. destruct H as [|d rest Hd _]; [reflexivity|].
  cbn. rewrite Hd. reflexivity.
Qed.

Lemma clear_unbooked (doc : Schedule.t) :
  Forall (fun d => is_truthy_str (SRow.journal_entry d) = false)
         (Schedule.depreciation_schedule doc) ->
  clear_depr_schedule doc = (0, Schedule.set_depreciation_schedule doc []).
Proof.
  intros H. unfold clear_depr_schedule.
  rewrite clear_loop_leading_booked, (leading_booked_unbooked _ H).
  cbn [List.length app]. destruct (0 =? _)%nat; reflexivity.
Qed.

(** X21. Generating and reconciling a schedule that has no booked row, for
    an asset with an available-for-use date and outside the
    increase-in-asset-life flow, then doing it again on the result with the
    same arguments, gives the same schedule and the same policy row: the
    second generation starts from the same value and produces the same rows.
    (With no regional override of the rate, and a validation that leaves the
    documents as they are.) *)
Theorem regenerating_an_unbooked_schedule_twice_changes_nothing
    (w w1 : World) (disposal ret : option date) (value : option Q)
    (ignore : bool) (available : date) :
  regional_rate_of_depreciation = None ->
  Asset.available_for_use_date (w_asset w) = Some available ->
  Flags.increase_in_asset_life (Asset.flags (w_asset w)) = false ->
  Forall (fun d => is_truthy_str (SRow.journal_entry d) = false)
         (Schedule.depreciation_schedule (w_self w)) ->
  validate_asset_finance_books (w_asset w) (w_row w)
  = Ok (w_asset w, w_row w) ->
  regenerate w disposal ret value ignore = Ok w1 ->
  validate_asset_finance_books (w_asset w1) (w_row w1)
  = Ok (w_asset w1, w_row w1) ->
  exists w2,
    regenerate w1 disposal ret value ignore = Ok w2
    /\ w_self w2 = w_self w1
    /\ w_row w2 = w_row w1
    /\ same_but_to_date (w_asset w1) (w_asset w2).
Proof.
  intros Hreg Ha Hlife Hun Hv H Hv1.
  unfold regenerate in H.
  destruct (make_depr_schedule w disposal true value) as [wm|] eqn:Hm;
    [|discriminate].
  cbn [bind] in H.
  unfold make_depr_schedule in Hm. rewrite Ha in Hm.
  rewrite (clear_unbooked _ Hun) in Hm.
  unfold _make_depr_schedule in Hm. cbn [w_asset w_row w_self] in Hm.
  rewrite Hv in Hm. cbn [bind] in Hm.
  set (V0 := starting_value value (w_asset w) (w_row w)) in *.
  set (fb' := FB.set_value_after_depreciation (w_row w) V0) in *.
  set (self0 := Schedule.set_depreciation_schedule (w_self w) []) in *.
  set (E := make_loop_env (w_asset w) fb' self0 0 disposal) in *.
  destruct (run_loop E _ _) as [st|] eqn:Hr; [|discriminate].
  cbn [bind] in Hm. inversion Hm; subst wm. clear Hm.
  pose proof (run_loop_asset _ _ _ _ Hr) as Hkeep. cbn [asset_doc] in Hkeep.
  pose proof (run_loop_grown _ _ _ _ Hr) as [(extra & Hx & _ & Hg) _].
  cbn [rows Schedule.depreciation_schedule self0
       Schedule.set_depreciation_schedule app] in Hx.
  unfold set_accumulated_depreciation in H.
  cbn [w_asset w_row w_self] in H.
  destruct (reconcile_loop _ _ _ _ _ _) as [rows1|] eqn:Hrec; [|discriminate].
  cbn [bind] in H. inversion H; subst w1. clear H.
  cbn [w_asset w_row w_self] in Hv1 |- *.
  (* the reconciled rows are still unbooked *)
  assert (Hun1 : Forall (fun d => is_truthy_str (SRow.journal_entry d) = false)
                        rows1).
  { destruct (reconcile_loop_shape _ _ _ _ _ _ _ Hrec) as (t & Et & HF).
    cbn [app] in Et. subst t.
    cbn [Schedule.depreciation_schedule Schedule.set_depreciation_schedule]
      in HF.
    rewrite Hx in HF. clear - HF Hg.
    revert rows1 HF. induction Hg as [|d extra Hd _ IH]; intros rows1 HF.
    - inversion HF. constructor.
    - inversion HF as [|? d' ? t' Hdd' HF']; subst. constructor.
      + destruct Hdd' as (_ & _ & Hje & _). destruct Hd as (Hn & _).
        rewrite Hje, Hn. reflexivity.
      + apply IH. exact HF'. }
  (* the second generation *)
  unfold regenerate, make_depr_schedule. cbn [w_asset w_self w_row].
  pose proof Hkeep as Hk. same_fields Hk. rewrite Havail, Ha.
  rewrite clear_unbooked
    by (cbn [Schedule.depreciation_schedule Schedule.set_depreciation_schedule];
        exact Hun1).
  unfold _make_depr_schedule. cbn [w_asset w_row w_self].
  rewrite Hv1. cbn [bind].
  assert (HV : starting_value value (asset_doc st) fb' = V0)
    by (apply starting_value_same; exact Hkeep).
  rewrite HV.
  change (FB.set_value_after_depreciation fb' V0) with fb'.
  change (Schedule.set_depreciation_schedule
            (Schedule.set_depreciation_schedule
               (Schedule.set_depreciation_schedule self0 (rows st))
               rows1) [])
    with self0.
  cbn [Schedule.depreciation_schedule Schedule.set_depreciation_schedule] in *.
  rewrite (make_loop_env_same (w_asset w) (asset_doc st)) by exact Hkeep.
  fold E.
  match type of Hr with
  | run_loop _ _ ?s = _ =>
      destruct (run_loop_same E _ Hreg s st (asset_doc st) Hlife Hkeep Hr)
        as (a2 & Hr2 & Hs2)
  end.
  unfold with_asset in Hr2 at 1.
  cbn [rows value_after_depreciation skip_row depreciation_amount
       schedule_date] in Hr2.
  match goal with
  | |- context [run_loop ?e ?l ?s] =>
      assert (Hr3 : run_loop e l s = Ok (with_asset st a2)) by exact Hr2;
      rewrite Hr3
  end.
  cbn [bind].
  unfold set_accumulated_depreciation.
  cbn [w_asset w_row w_self with_asset rows asset_doc
       Schedule.depreciation_schedule Schedule.set_depreciation_schedule].
  assert (HR : make_reconcile_env a2 fb'
                 (Schedule.set_depreciation_schedule self0 (rows st))
                 disposal ret ignore
               = make_reconcile_env (asset_doc st) fb'
                   (Schedule.set_depreciation_schedule self0 (rows st))
                   disposal ret ignore).
  { unfold make_reconcile_env.
    destruct Hs2 as (_ & _ & _ & _ & _ & _ & Hf2). rewrite Hf2. reflexivity. }
  match goal with
  | |- context [reconcile_loop ?R ?i ?acc ?l ?o ?v] =>
      assert (Hrec2 : reconcile_loop R i acc l o v = Ok rows1)
        by (etransitivity; [|exact Hrec]; f_equal; exact HR);
      rewrite Hrec2
  end.
  cbn [bind]. eexists. split; [reflexivity|].
  cbn [w_self w_row w_asset]. repeat split; apply Hs2.
Qed.

(** ** The sum of the amounts of a schedule *)

(** Without an adjusted row the reconciler only rounds: the amounts of the
    rows it visits add up to what its running value lost. *)
Lemma reconcile_loop_rounds (R : ReconcileEnv) (todo : list SRow.t) :
  r_adjusted_index R = None ->
  forall (i : Z) (done : list SRow.t) (acc : option Q) (v : Q)
         (out : list SRow.t),
    reconcile_loop R i done todo acc v = Ok out ->
    Forall (fun d => skipped R d = false) todo ->
    (sum_amounts out == sum_amounts done + (v - running_value v todo))%Q.
Proof.
  intros Hk. induction todo as [|d rest IH]; intros i done acc v out H Hvis.
  - cbn in H. inversion H; subst. cbn. ring.
  - inversion Hvis as [|? ? Hd Hrest]; subst.
    reconcile_case H.
    + unfold skipped in Hd. congruence.
    + rewrite Hk in H. apply IH in H; [|exact Hrest]. rewrite H.
      unfold sum_amounts. rewrite running_total_app.
      cbn [running_total running_value fold_left SRow.set_amounts
           SRow.depreciation_amount flt].
      fold (running_total 0 done).
      change (fold_left _ rest ?x) with (running_value x rest).
      ring.
Qed.

(** An iteration without a disposal date that appends a row: the row
    carries the amount assigned to the period. *)
Lemma loop_body_row (E : LoopEnv) (n : Z) (st st1 : Locals) (c : control) :
  date_of_disposal E = None ->
  skip_row st = false ->
  loop_body E n st = Ok (c, st1) ->
  List.length (rows st1) = S (List.length (rows st)) ->
  exists (a : Q) (e : SRow.t),
    let expected := FB.expected_value_after_useful_life (row E) in
    let value :=
      (value_after_depreciation st - rounded a gross_precision)%Q in
    let shortfall :=
      truthy expected
      && (((n =? final_number_of_depreciations E - 1)
           && negb (Qeq_bool value expected))
          || Qltb value expected) in
    rows st1 = rows st ++ [e]
    /\ SRow.depreciation_amount e
       = (if shortfall then (a + (value - expected))%Q else a)
    /\ value_after_depreciation st1 = value
    /\ skip_row st1 = shortfall.
Proof.
  intros Hd Hs H Hlen. unfold loop_body in H. rewrite Hs in H.
  destruct (get_depreciation_amount _ _ _ _ _ _ _) as [computed|];
    [|discriminate].
  cbn [bind] in H. rewrite Hd in H.
  destruct (boundary_pro_rata _ _ _) as [[[a asset] sd]|]; [|discriminate].
  cbn [bind rows value_after_depreciation skip_row] in H.
  destruct (truthy a) eqn:Ha.
  2:{ unfold append_period in H. cbn [depreciation_amount] in H.
      rewrite Ha in H. cbn in H. inversion H; subst. cbn in Hlen. lia. }
  destruct sd as [sd|].
  2:{ unfold append_period in H. cbn [depreciation_amount schedule_date] in H.
      rewrite Ha in H. cbn [negb] in H.
      destruct (Qltb 0 _); cbn in H; [discriminate|].
      inversion H; subst. cbn in Hlen. lia. }
  rewrite (append_period_assigns E n _ sd) in H; [|exact Ha|reflexivity].
  cbn [bind depreciation_amount value_after_depreciation rows skip_row] in H.
  inversion H; subst. clear H. cbn [rows] in Hlen.
  exists a. destruct (Qltb 0 _).
  - eexists. cbn [rows value_after_depreciation skip_row].
    split; [reflexivity|]. split; [reflexivity|]. split; [reflexivity|].
    destruct (truthy _ && _); reflexivity.
  - rewrite app_nil_r in Hlen. lia.
Qed.

(** The running value of the loop after a row for every period: it has
    reached the expected value after useful life, up to two roundings. *)
Lemma run_loop_reaches_expected (E : LoopEnv) (u : Q) :
  (forall x, Qabs (rounded x amount_precision - x) <= u)%Q ->
  gross_precision = amount_precision ->
  date_of_disposal E = None ->
  truthy (FB.expected_value_after_useful_life (row E)) = true ->
  forall (ns : list Z) (st st' : Locals),
    run_loop E ns st = Ok st' ->
    skip_row st = false ->
    ns <> [] ->
    last ns 0 = final_number_of_depreciations E - 1 ->
    List.length (rows st') = (List.length (rows st) + List.length ns)%nat ->
    exists extra,
      rows st' = rows st ++ extra
      /\ (Qabs (running_value (value_after_depreciation st) extra
                - FB.expected_value_after_useful_life (row E)) <= 2 * u)%Q.
Proof.
  intros Hu Hgp Hd He.
  assert (Hu0 : (0 <= u)%Q).
  { eapply Qle_trans; [apply Qabs_nonneg|apply (Hu 0%Q)]. }
  induction ns as [|n ns IH]; intros st st' H Hs Hne Hlast Hlen;
    [contradiction|].
  cbn [run_loop] in H.
  destruct (loop_body E n st) as [[c st1]|] eqn:Hb; [|discriminate].
  cbn [bind] in H.
  pose proof (loop_body_grown _ _ _ _ _ Hb) as [(x1 & Hx1 & Hl1 & _) _].
  assert (Hc : c = Next).
  { unfold loop_body in Hb. rewrite Hs, Hd in Hb.
    destruct (get_depreciation_amount _ _ _ _ _ _ _); [|discriminate].
    cbn [bind] in Hb.
    destruct (boundary_pro_rata _ _ _) as [[[? ?] ?]|]; [|discriminate].
    cbn [bind] in Hb.
    destruct (append_period _ _ _); [|discriminate].
    cbn in Hb. inversion Hb. reflexivity. }
  subst c.
  pose proof (run_loop_grown _ _ _ _ H) as [(x2 & Hx2 & Hl2 & _) _].
  assert (Hcount : List.length x1 = 1%nat /\ List.length x2 = List.length ns).
  { rewrite Hx2, Hx1, !length_app in Hlen. cbn [List.length] in Hlen. lia. }
  destruct Hcount as [Hc1 Hc2].
  destruct (loop_body_row E n st st1 Next Hd Hs Hb) as (a & e & Hrow).
  { rewrite Hx1, length_app. lia. }
  cbv zeta in Hrow. destruct Hrow as (Hr & Hamt & Hval & Hskip).
  set (expected := FB.expected_value_after_useful_life (row E)) in *.
  set (value := (value_after_depreciation st - rounded a gross_precision)%Q)
    in *.
  destruct ns as [|n' ns'].
  - (* the last period *)
    cbn in H. inversion H; subst st'. cbn in Hlast.
    exists [e]. split; [exact Hr|].
    cbn [running_value fold_left]. rewrite Hamt.
    rewrite Hlast in Hskip, Hamt |- *. rewrite Z.eqb_refl, He in *.
    cbn [andb] in *.
    destruct (negb (Qeq_bool value expected) || Qltb value expected) eqn:Hadj.
    + pose proof (Hu (a + (value - expected))%Q) as U1.
      pose proof (Hu a) as U2. rewrite <- Hgp in U1, U2 |- *.
      apply Qabs_Qle_condition in U1, U2. apply Qabs_Qle_condition.
      unfold value in *. lra.
    + apply orb_false_iff in Hadj. destruct Hadj as [Heq _].
      apply negb_false_iff in Heq. apply Qeq_bool_iff in Heq.
      rewrite <- Hgp. fold value.
      apply Qabs_Qle_condition. lra.
  - (* an earlier period *)
    assert (Hs1 : skip_row st1 = false).
    { destruct (skip_row st1) eqn:Hk; [|reflexivity].
      rewrite (run_loop_skipping E _ st1 Hk) in H. inversion H; subst st'.
      assert (x2 = []).
      { apply (app_inv_head (rows st1)). rewrite app_nil_r. symmetry.
        exact Hx2. }
      subst x2. cbn in Hc2. discriminate. }
    rewrite Hs1 in Hskip. rewrite <- Hskip in Hamt.
    destruct (IH st1 st' H Hs1) as (extra & Hex & Hb2).
    + discriminate.
    + exact Hlast.
    + rewrite Hx2, length_app. lia.
    + exists (e :: extra). split.
      * rewrite Hex, Hr, <- app_assoc. reflexivity.
      * cbn [running_value fold_left].
        change (fold_left _ extra ?x) with (running_value x extra).
        rewrite Hamt, <- Hgp. fold value. rewrite <- Hval. exact Hb2.
Qed.

(** C1 (as the code has it). Take a schedule generated from no rows for an
    asset that is not submitted, with no disposal or return date, and
    reconciled.  The sum of the amounts of its rows is the gross purchase
    amount less the opening accumulated depreciation less the expected value
    after useful life,
    - up to the error [u] of one rounding to the precision of the amount,
      when the method is Straight Line or Manual and there is a row;
    - up to two such roundings, whatever the method, when the expected value
      after useful life is not zero, the precision of the gross purchase
      amount is that of the amount, and the schedule has a row for every one
      of its periods (there is one at least): no period ended the schedule
      early or was left out for a zero amount. *)
Theorem amounts_sum_to_depreciable_value
    (w w' : World) (asset : Asset.t) (fb : FB.t) (u : Q) :
  (forall x, Qabs (rounded x amount_precision - x) <= u)%Q ->
  Schedule.depreciation_schedule (w_self w) = [] ->
  validate_asset_finance_books (w_asset w) (w_row w) = Ok (asset, fb) ->
  Asset.docstatus asset <> 1 ->
  regenerate w None None None false = Ok w' ->
  let rows' := Schedule.depreciation_schedule (w_self w') in
  let depreciable :=
    (Asset.gross_purchase_amount asset
     - Asset.opening_accumulated_depreciation asset
     - FB.expected_value_after_useful_life fb)%Q in
  let E :=
    make_loop_env asset
      (FB.set_value_after_depreciation fb (starting_value None asset fb))
      (w_self w) 0 None in
  (is_sl_or_manual (Schedule.depreciation_method (w_self w)) = true ->
   rows' <> [] ->
   (Qabs (sum_amounts rows' - depreciable) <= u)%Q)
  /\ (is_sl_or_manual (Schedule.depreciation_method (w_self w)) = false ->
      truthy (FB.expected_value_after_useful_life fb) = true ->
      gross_precision = amount_precision ->
      0 < final_number_of_depreciations E ->
      List.length rows' = Z.to_nat (final_number_of_depreciations E) ->
      (Qabs (sum_amounts rows' - depreciable) <= 2 * u)%Q).
Proof.
  intros Hu Hrows Hv Hdoc H rows' depreciable E.
  assert (Hstart : starting_value None asset fb
                   = (Asset.gross_purchase_amount asset
                      - Asset.opening_accumulated_depreciation asset)%Q).
  { unfold starting_value, _get_value_after_depreciation_for_making_schedule.
    cbn [is_truthy_opt].
    replace (Asset.docstatus asset =? 1) with false
      by (symmetry; apply Z.eqb_neq; exact Hdoc).
    reflexivity. }
  split.
  - intros Hsl Hne. unfold rows', depreciable in *. clear rows' depreciable E.
    revert Hu Hsl Hrows Hv Hdoc H Hne. clear Hstart.
    intros Hu Hsl Hrows Hv Hdoc H Hne.
    unfold regenerate in H.
    destruct (make_depr_schedule w None true None) as [w1|] eqn:Hm; [|discriminate].
    cbn [bind] in H.
    unfold set_accumulated_depreciation in H.
    destruct (reconcile_loop _ _ _ _ _ _) as [out|] eqn:Hr; [|discriminate].
    cbn [bind] in H. inversion H; subst w'. clear H.
    cbn [w_self Schedule.set_depreciation_schedule Schedule.depreciation_schedule]
      in Hne |- *.
    unfold make_depr_schedule in Hm.
    destruct (Asset.available_for_use_date (w_asset w)).
    2:{ inversion Hm; subst w1. rewrite Hrows in Hr. cbn in Hr.
        inversion Hr; subst. contradiction. }
    unfold clear_depr_schedule in Hm. rewrite Hrows in Hm. cbn in Hm.
    apply _make_depr_schedule_appended in Hm.
    destruct Hm as (Happ & Hmeth & asset' & fb' & Hv' & Hrow). cbn in Happ, Hmeth, Hv'.
    rewrite Hv in Hv'. inversion Hv'; subst asset' fb'. clear Hv'.
    assert (Hnum : numbered (Schedule.depreciation_schedule (w_self w1))).
    { eapply appended_numbered; [exact Happ|]. intros [|j] d0; discriminate. }
    set (rows1 := Schedule.depreciation_schedule (w_self w1)) in *.
    assert (Hne1 : rows1 <> []).
    { intros E. rewrite E in Hr. cbn in Hr. inversion Hr; subst. contradiction. }
    assert (Hk : r_adjusted_index
                   (make_reconcile_env (w_asset w1) (w_row w1) (w_self w1)
                                       None None false)
                 = Some (0 + Z.of_nat (List.length rows1) - 1)).
    { unfold make_reconcile_env, straight_line_idx. cbn [r_adjusted_index].
      rewrite Hmeth, Hsl. fold rows1.
      destruct rows1 as [|d0 rows0] eqn:Er; [contradiction|].
      cbn [map is_none andb]. f_equal.
      change (SRow.idx d0 :: map SRow.idx rows0)
        with (map SRow.idx (d0 :: rows0)).
      rewrite list_max_numbered; [lia|exact Hnum|discriminate]. }
    pose proof (reconcile_loop_sum _ u rows1 Hu 0 [] None _ out Hr) as Hsum.
    assert (Hvis : Forall (fun d => skipped
                     (make_reconcile_env (w_asset w1) (w_row w1) (w_self w1)
                                         None None false) d = false) rows1).
    { apply Forall_forall. intros x _. reflexivity. }
    specialize (Hsum Hvis Hne1 Hk).
    replace (r_expected _) with (FB.expected_value_after_useful_life (w_row w1))
      in Hsum by reflexivity.
    rewrite Hrow in Hsum. cbn [FB.expected_value_after_useful_life
                               FB.value_after_depreciation
                               FB.set_value_after_depreciation flt] in Hsum.
    unfold starting_value, _get_value_after_depreciation_for_making_schedule in Hsum.
    cbn [is_truthy_opt] in Hsum.
    replace (Asset.docstatus asset =? 1) with false in Hsum
      by (symmetry; apply Z.eqb_neq; exact Hdoc).
    cbn [andb] in Hsum.
    apply Qabs_Qle_condition in Hsum. apply Qabs_Qle_condition.
    unfold sum_amounts in *. cbn [running_total fold_left] in Hsum.
    lra.
  - intros Hsl He Hgp Hpos Hlen. unfold rows' in *.
    unfold regenerate in H.
    destruct (make_depr_schedule w None true None) as [w1|] eqn:Hm;
      [|discriminate].
    cbn [bind] in H.
    unfold set_accumulated_depreciation in H.
    destruct (reconcile_loop _ _ _ _ _ _) as [out|] eqn:Hr; [|discriminate].
    cbn [bind] in H. inversion H; subst w'. clear H.
    cbn [w_self Schedule.set_depreciation_schedule
         Schedule.depreciation_schedule] in Hlen |- *.
    destruct (reconcile_loop_shape _ _ _ _ _ _ _ Hr) as (out' & Eo & HF).
    cbn [app] in Eo. subst out'.
    assert (Hsame : List.length out
                    = List.length (Schedule.depreciation_schedule (w_self w1))).
    { symmetry. eapply Forall2_length. exact HF. }
    unfold make_depr_schedule in Hm.
    destruct (Asset.available_for_use_date (w_asset w)).
    2:{ inversion Hm; subst w1. rewrite Hrows in Hsame. cbn in Hsame. lia. }
    unfold clear_depr_schedule in Hm. rewrite Hrows in Hm.
    cbn [clear_loop] in Hm.
    unfold _make_depr_schedule in Hm. cbn [w_asset w_row w_self] in Hm.
    rewrite Hv in Hm. cbn [bind] in Hm.
    set (V0 := starting_value None asset fb) in *.
    set (fb' := FB.set_value_after_depreciation fb V0) in *.
    set (self0 := Schedule.set_depreciation_schedule (w_self w) []) in *.
    set (E0 := make_loop_env asset fb' self0 0 None) in *.
    assert (Hfin : final_number_of_depreciations E0
                   = final_number_of_depreciations E) by reflexivity.
    destruct (run_loop E0 _ _) as [st|] eqn:Hl; [|discriminate].
    cbn [bind] in Hm. inversion Hm; subst w1. clear Hm.
    cbn [w_asset w_row w_self Schedule.set_depreciation_schedule
         Schedule.depreciation_schedule] in *.
    destruct (run_loop_reaches_expected E0 u Hu Hgp eq_refl He _ _ _ Hl)
      as (extra & Hex & Hb).
    + reflexivity.
    + rewrite Hfin. intros En.
      pose proof (length_range 0 (final_number_of_depreciations E)) as Hz.
      rewrite En in Hz. cbn [List.length] in Hz. lia.
    + rewrite Hfin. unfold range.
      replace (Z.to_nat (final_number_of_depreciations E - 0))
        with (S (Z.to_nat (final_number_of_depreciations E - 1))) by lia.
      rewrite seq_S, map_app. cbn [map]. rewrite last_last. lia.
    + cbn [rows List.length]. rewrite length_range, Hfin, Z.sub_0_r.
      rewrite <- Hsame, Hlen. reflexivity.
    + cbn [rows] in Hex.
      change (Schedule.depreciation_schedule self0) with (@nil SRow.t) in Hex.
      cbn [app] in Hex. cbn [value_after_depreciation] in Hb.
      assert (Hk : r_adjusted_index
                     (make_reconcile_env (asset_doc st) fb'
                        (Schedule.set_depreciation_schedule self0 (rows st))
                        None None false) = None).
      { unfold make_reconcile_env, straight_line_idx.
        cbn [r_adjusted_index Schedule.depreciation_method
             Schedule.set_depreciation_schedule self0].
        rewrite Hsl. reflexivity. }
      pose proof (reconcile_loop_rounds _ _ Hk _ _ _ _ _ Hr) as Hsum.
      assert (Hvis : Forall (fun d => skipped
                       (make_reconcile_env (asset_doc st) fb'
                          (Schedule.set_depreciation_schedule self0 (rows st))
                          None None false) d = false) (rows st)).
      { apply Forall_forall. intros x _. reflexivity. }
      specialize (Hsum Hvis).
      cbn [flt FB.value_after_depreciation fb'
           FB.set_value_after_depreciation] in Hsum.
      rewrite Hex in Hsum.
      replace (FB.expected_value_after_useful_life (row E0))
        with (FB.expected_value_after_useful_life fb) in Hb by reflexivity.
      unfold depreciable. unfold V0 in *. rewrite Hstart in Hsum, Hb.
      unfold sum_amounts in Hsum at 2. cbn [running_total fold_left] in Hsum.
      apply Qabs_Qle_condition in Hb. apply Qabs_Qle_condition.
      rewrite Hsum. lra.
Qed.

End Further.

(** * Further properties of the uniqueness validation *)

Module FurtherLifecycleFacts.
Import Lifecycle LifecycleFacts.

(** X16. The validation raises nothing but the duplicate-schedule error, and
    never without cause: when it raises, the store holds a non-cancelled
    schedule of the same asset and finance book under another name, and the
    error names that schedule and the asset, and the finance book when the
    validated schedule has one. *)
Theorem duplicate_error_names_another_schedule
    (db : store) (self : Schedule.t) (e : exn) :
  validate_another_asset_depr_schedule_does_not_exist db self = Raise e ->
  exists other,
    In other db
    /\ non_cancelled other
    /\ same_pair other self
    /\ Schedule.name other <> Schedule.name self
    /\ e = if negb (String.eqb (Schedule.finance_book self) "")
           then ValidationError duplicate_with_finance_book
                  [Schedule.name other; Schedule.asset self;
                   Schedule.finance_book self]
           else ValidationError duplicate_without_finance_book
                  [Schedule.name other; Schedule.asset self].
Proof.
  unfold validate_another_asset_depr_schedule_does_not_exist. intros H.
  change (db_exists db _) with (db_exists db (pair_filters self)) in H.
  pose proof (db_exists_found db self) as Hf.
  destruct (db_exists db (pair_filters self)) as [found|]; [|discriminate].
  destruct Hf as (other & Hin & (A & B & C) & Hname).
  destruct (negb (String.eqb found "") && negb (String.eqb found (Schedule.name self)))
    eqn:Hc; [|discriminate].
  apply andb_prop in Hc. destruct Hc as [_ Hc].
  apply negb_true_iff in Hc. apply String.eqb_neq in Hc.
  exists other. subst found. repeat split; try assumption.
  destruct (negb (String.eqb (Schedule.finance_book self) ""));
    inversion H; reflexivity.
Qed.

(** X17. Once the stored schedule of an asset and finance book is cancelled,
    validation of another schedule for the same pair passes: in a store with
    at most one non-cancelled schedule for the pair, cancelling that one
    makes room for its replacement. *)
Theorem validation_passes_after_cancelling_the_current_schedule
    (db : store) (old new : Schedule.t) :
  unique db ->
  In old db ->
  non_cancelled old ->
  same_pair old new ->
  validate_another_asset_depr_schedule_does_not_exist (cancel db old) new
  = Ok tt.
Proof.
  intros Hu Hin Hnc [P1 P2].
  unfold validate_another_asset_depr_schedule_does_not_exist.
  change (db_exists (cancel db old) _)
    with (db_exists (cancel db old) (pair_filters new)).
  pose proof (db_exists_found (cancel db old) new) as Hf.
  destruct (db_exists (cancel db old) (pair_filters new)) as [found|];
    [|reflexivity].
  exfalso.
  destruct Hf as (other & Ho & (Q1 & Q2 & Hn) & _).
  unfold cancel in Ho. apply in_db_update in Ho.
  destruct Ho as [[Ho Hne]|[-> _]].
  - apply Hne. cbn. apply Hu; try assumption. split; congruence.
  - cbn in Hn. lia.
Qed.

End FurtherLifecycleFacts.




(** * The worked schedules, checked *)

Module Cases.
Import Shipped Examples.

Ltac q_le := apply Qle_bool_iff; vm_compute; reflexivity.
Ltac q_lt := apply Qlt_alt; vm_compute; reflexivity.

Lemma round_half_even_error (t : Q) :
  (Qabs (inject_Z (round_half_even t) - t) <= 1 # 2)%Q.
Proof.
  unfold round_half_even.
  pose proof (Qfloor_le t) as F1.
  pose proof (Qlt_floor t) as F2.
  rewrite inject_Z_plus in F2. change (inject_Z 1) with 1%Q in F2.
  apply Qabs_Qle_condition.
  destruct (Qcompare_spec (t - inject_Z (Qfloor t)) (1 # 2)) as [E|L|G].
  - destruct (Z.even (Qfloor t)).
    + lra.
    + rewrite inject_Z_plus. change (inject_Z 1) with 1%Q. lra.
  - lra.
  - rewrite inject_Z_plus. change (inject_Z 1) with 1%Q. lra.
Qed.

(** Rounding to two decimal places moves a number by half a cent at most. *)
Lemma rounded_error (x : Q) : (Qabs (rounded x 2 - x) <= 1 # 200)%Q.
Proof.
  unfold rounded. rewrite Qred_correct.
  change (Qpower (inject_Z 10) 2) with (100 # 1)%Q.
  pose proof (round_half_even_error (x * (100 # 1))) as H.
  apply Qabs_Qle_condition in H. apply Qabs_Qle_condition.
  set (z := inject_Z (round_half_even (x * (100 # 1)))) in *.
  assert (E : (z / (100 # 1) - x == (z - x * (100 # 1)) / (100 # 1))%Q) by field.
  rewrite E. unfold Qdiv. change (/ (100 # 1))%Q with (1 # 100)%Q. lra.
Qed.

Lemma numbered3 (a b c : SRow.t) :
  SRow.idx a = 1 -> SRow.idx b = 2 -> SRow.idx c = 3 -> numbered [a; b; c].
Proof.
  intros Ha Hb Hc [|[|[|j]]] d H; cbn in H; inversion H; subst; try assumption.
  destruct j; discriminate.
Qed.

(** ** C1 *)

(** The written-down-value schedule of the specification sums to 80678.40,
    not to 120000. *)
Lemma written_down_value_sum_falls_short :
  amounts (regenerate wdv5 None None None false)
  = Some [24000; 19200; 15360; 12288; 49152 # 5]%Q
  /\ ~ (Qabs (sum_amounts
                (Schedule.depreciation_schedule
                   (w_self (world_of (regenerate wdv5 None None None false)
                                     wdv5)))
              - (Asset.gross_purchase_amount (w_asset wdv5)
                 - Asset.opening_accumulated_depreciation (w_asset wdv5)
                 - FB.expected_value_after_useful_life (w_row wdv5)))
        <= 1 # 100)%Q.
Proof.
  split; [vm_compute; reflexivity|].
  intros H. apply Qle_bool_iff in H. vm_compute in H. discriminate.
Qed.

Lemma schedules_sum_to_the_depreciable_value :
  (Qabs (sum_amounts (Schedule.depreciation_schedule (w_self sl3_reconciled))
         - (1000 - 0 - 0)) <= 1 # 200)%Q
  /\ amounts (Ok wdv3_expected_reconciled) = Some [200; 160; 140]%Q
  /\ (Qabs (sum_amounts
              (Schedule.depreciation_schedule (w_self wdv3_expected_reconciled))
            - (1000 - 0 - 500)) <= 2 * (1 # 200))%Q.
Proof.
  split; [|split; [vm_compute; reflexivity|]].
  - destruct (amounts_sum_to_depreciable_value
                sl3 sl3_reconciled (w_asset sl3) (w_row sl3) (1 # 200))
      as [H _].
    + exact rounded_error.
    + reflexivity.
    + reflexivity.
    + discriminate.
    + vm_compute. reflexivity.
    + apply H; [reflexivity|discriminate].
  - destruct (amounts_sum_to_depreciable_value
                wdv3_expected wdv3_expected_reconciled (w_asset wdv3_expected)
                (w_row wdv3_expected) (1 # 200))
      as [_ H].
    + exact rounded_error.
    + reflexivity.
    + reflexivity.
    + discriminate.
    + vm_compute. reflexivity.
    + apply H.
      * reflexivity.
      * reflexivity.
      * reflexivity.
      * reflexivity.
      * reflexivity.
Defined.

(** ** C2 *)

(** With [ignore_booked_entry] and without the decrease-in-value flag, the
    row after the booked one restarts from the opening value: its
    accumulated amount is 100, not 100 + 100. *)
Lemma accumulation_restarts_after_booked_rows :
  amounts (regenerate (booked_first false) None None None true)
  = Some [100; 100; 100]%Q
  /\ accumulated (regenerate (booked_first false) None None None true)
     = Some [Some 100; Some 100; Some 200]%Q
  /\ ~ (100 == 100 + 100)%Q.
Proof.
  split; [vm_compute; reflexivity|]. split; [vm_compute; reflexivity|].
  intros H. vm_compute in H. discriminate.
Qed.

Lemma accumulation_continues_with_decrease_flag :
  exists post',
    set_accumulated_depreciation booked_first_generated None None true
    = Ok (mkWorld (w_asset booked_first_generated) (w_row booked_first_generated)
            (Schedule.set_depreciation_schedule (w_self booked_first_generated)
               (firstn 1 (Schedule.depreciation_schedule
                            (w_self booked_first_generated)) ++ post')))
    /\ List.length post' = 2%nat
    /\ forall j d', nth_error post' j = Some d' ->
         SRow.accumulated_depreciation_amount d'
         = Some (rounded (running_total 100 (firstn (S j) post')) 2).
Proof.
  destruct (accumulated_is_rounded_running_total booked_first_generated None
              None true
              (firstn 1 (Schedule.depreciation_schedule
                           (w_self booked_first_generated)))
              (skipn 1 (Schedule.depreciation_schedule
                          (w_self booked_first_generated)))
              100%Q) as (post' & H1 & H2 & H3).
  - reflexivity.
  - repeat constructor.
  - repeat constructor.
  - apply numbered3; reflexivity.
  - reflexivity.
  - q_le.
  - repeat constructor; q_lt.
  - exists post'. split; [exact H1|]. split; [exact H2|exact H3].
Defined.

(** ** C3 *)

(** The row booked with JE-2 (2020-02-15, 150) follows an unbooked row: it is
    cleared with it and three new rows are generated. *)
Lemma booked_row_after_unbooked_row_is_dropped :
  dates (regenerate booked_second None None None true)
  = Some [(mkdate 2020 1 31, None); (mkdate 2020 2 29, None);
          (mkdate 2020 3 31, None)]
  /\ amounts (regenerate booked_second None None None true)
     = Some [100; 100; 100]%Q.
Proof. split; vm_compute; reflexivity. Qed.

Lemma first_booked_row_is_kept :
  nth_error (Schedule.depreciation_schedule (w_self booked_first_regenerated)) 0
  = Some (SRow.mk 1 (mkdate 2020 1 31) 100 (Some 100%Q) (Some "JE-1"%string)).
Proof.
  pose proof (leading_booked_rows_are_kept (booked_first true)
                booked_first_regenerated None None None true
                [SRow.mk 1 (mkdate 2020 1 31) 100 (Some 100%Q)
                        (Some "JE-1"%string)]
                [SRow.mk 2 (mkdate 2020 2 29) 100 (Some 200%Q) None;
                 SRow.mk 3 (mkdate 2020 3 31) 100 (Some 300%Q) None]
                eq_refl) as H.
  assert (Hp : Forall (fun d => is_truthy_str (SRow.journal_entry d) = true)
                 [SRow.mk 1 (mkdate 2020 1 31) 100 (Some 100%Q)
                         (Some "JE-1"%string)])
    by (repeat constructor).
  assert (Hr : regenerate (booked_first true) None None None true
               = Ok booked_first_regenerated)
    by (vm_compute; reflexivity).
  destruct (H Hp Hr 0%nat _ eq_refl) as (d' & H1 & _ & _ & _ & H2).
  rewrite H1. f_equal. apply H2. reflexivity.
Defined.

(** ** C4 *)

(** With no expected value after useful life, the single period of a
    double-declining schedule takes 2000 from a value of 1000. *)
Lemma value_goes_below_a_zero_expected_value :
  amounts (regenerate ddb1 None None None false) = Some [2000%Q]
  /\ (Asset.gross_purchase_amount (w_asset ddb1)
      - Asset.opening_accumulated_depreciation (w_asset ddb1) - 2000
      < FB.expected_value_after_useful_life (w_row ddb1))%Q.
Proof. split; [vm_compute; reflexivity|q_lt]. Qed.

Lemma shortfall_of_ten_is_taken :
  exists st',
    loop_body steep_env 2 steep_state = Ok (Next, st')
    /\ skip_row st' = true
    /\ map (fun d => (SRow.schedule_date d, Qred (SRow.depreciation_amount d)))
           (rows st')
       = [(mkdate 2022 12 31, 80%Q)]
    /\ forall ns, run_loop steep_env ns st' = Ok st'.
Proof.
  destruct (shortfall_is_taken_from_the_amount_and_ends_the_loop
              steep_env 2 steep_state (100 * (90 / 100))%Q
              (100 * (90 / 100))%Q (asset_doc steep_state)
              (mkdate 2022 12 31)) as [H _].
  - reflexivity.
  - reflexivity.
  - reflexivity.
  - reflexivity.
  - reflexivity.
  - destruct H as (st' & H1 & _ & _ & _ & H2 & H3 & H4).
    + reflexivity.
    + q_lt.
    + exists st'. split; [exact H1|]. split; [exact H3|].
      split; [rewrite H2; vm_compute; reflexivity|exact H4].
Defined.

(** ** C5 *)

Lemma disposal_in_march :
  exists w',
    _make_depr_schedule sl12 0 (Some (mkdate 2020 3 10)) true None = Ok w'
    /\ map (fun d => (SRow.schedule_date d, Qred (SRow.depreciation_amount d)))
           (Schedule.depreciation_schedule (w_self w'))
       = [(mkdate 2020 3 10, 53000 # 29)].
Proof.
  edestruct (disposal_appends_one_pro_rata_row sl12 0 (mkdate 2020 3 10) true
               None) as (w' & H1 & H2).
  - reflexivity.
  - reflexivity.
  - vm_compute. reflexivity.
  - vm_compute. discriminate.
  - exists w'. split; [exact H1|]. rewrite H2. vm_compute. reflexivity.
Defined.

(** ** C6 *)

(** At five months a period, index 12 is five times 12 / 5: a multiple of
    12 / f.  The float 12 / 5 is a little less than 12 / 5 and leaves a
    remainder: the amount of period 12 is the previous one (77 here), not
    1000 * 5 * 20 / 1200. *)
Lemma five_monthly_amount_is_not_recomputed :
  (inject_Z 12 == inject_Z 5 * (12 / inject_Z 5))%Q
  /\ py_truediv_int 12 5 = Ok (5404319552844595 # 2251799813685248)%Q
  /\ get_wdv_or_dd_depr_amount 1000 20 5 12 77 false = Ok 77%Q
  /\ ~ (77 == 1000 * inject_Z 5 * 20 / 1200)%Q.
Proof.
  split; [vm_compute; reflexivity|].
  split; [vm_compute; reflexivity|].
  split; [vm_compute; reflexivity|].
  intros H. vm_compute in H. discriminate.
Qed.

Lemma quarterly_amount_at_the_year_boundary :
  returns (get_wdv_or_dd_depr_amount 120000 20 3 4 6000 false)
          (120000 * inject_Z 3 * 20 / 1200)%Q.
Proof.
  destruct (wdv_amount_recomputed_once_a_year 120000 20 6000 3 4 4)
    as (_ & H & _).
  - lia.
  - vm_compute. reflexivity.
  - reflexivity.
  - split; [lia|reflexivity].
  - apply H. exists 1. vm_compute. reflexivity.
Defined.

(** ** C7 *)

(** Without an available-for-use date the call returns normally, with no
    row; with an unknown method it produces a written-down-value schedule. *)
Lemma no_error_without_date_or_known_method :
  make_depr_schedule undated None true None = Ok undated
  /\ amounts (regenerate unknown_method None None None false)
     = Some [200; 160]%Q.
Proof. split; vm_compute; reflexivity. Qed.

Lemma undated_generation_returns :
  make_depr_schedule undated None true None = Ok undated.
Proof.
  apply (proj1 generation_without_date_or_known_method). reflexivity.
Defined.

(** ** C8 *)

(** 1000 over three months: the three amounts of 1000/3 are rounded to
    333.33, and the missing cent is added to the last row (333.34), not to
    the row before it. *)
Lemma missing_cent_goes_to_the_last_row :
  amounts (make_depr_schedule sl3 None true None)
  = Some [1000 # 3; 1000 # 3; 1000 # 3]%Q
  /\ amounts (regenerate sl3 None None None false)
     = Some [33333 # 100; 33333 # 100; 16667 # 50]%Q.
Proof. split; vm_compute; reflexivity. Qed.

Lemma three_months_reconciled :
  exists w',
    set_accumulated_depreciation sl3_generated None None false = Ok w'
    /\ List.length (Schedule.depreciation_schedule (w_self w')) = 3%nat.
Proof.
  destruct (residual_is_added_to_the_last_row sl3_generated false)
    as (w' & H1 & H2 & _).
  - reflexivity.
  - apply numbered3; reflexivity.
  - repeat constructor.
  - exists w'. split; [exact H1|exact H2].
Defined.

(** ** C9 *)

Lemma second_draft_is_refused :
  exists template args,
    Lifecycle.insert [stored_draft] second_draft
    = Raise (ValidationError template args).
Proof.
  assert (R : Lifecycle.reachable [stored_draft]).
  { apply (Lifecycle.reach_insert [] stored_draft).
    - constructor.
    - discriminate.
    - intros (d & [] & _).
    - reflexivity. }
  destruct (LifecycleFacts.one_non_cancelled_schedule_per_pair _ R) as [_ H].
  apply (H second_draft stored_draft).
  - left. reflexivity.
  - unfold Lifecycle.non_cancelled. cbn. lia.
  - split; reflexivity.
  - discriminate.
Defined.

(** ** C10 *)

(** Written down at 90% to an expected value of 1000: the calculator gives
    period 0 the amount 1080, unprorated, and the row of period 0 carries
    200. *)
Lemma first_period_is_cut_to_the_expected_value :
  let E := make_loop_env (w_asset opening_steep) (w_row opening_steep)
                         (w_self opening_steep) 0 None in
  has_pro_rata E = true
  /\ has_wdv_or_dd_non_yearly_pro_rata E = false
  /\ truthy (Schedule.opening_accumulated_depreciation (w_self opening_steep))
     = true
  /\ returns (get_depreciation_amount (w_asset opening_steep) 1200
                (w_row opening_steep) 0 0 false
                (number_of_pending_depreciations E)) 1080
  /\ amounts (make_depr_schedule opening_steep None true None)
     = Some [200%Q].
Proof.
  cbv zeta.
  split; [vm_compute; reflexivity|].
  split; [vm_compute; reflexivity|].
  split; [vm_compute; reflexivity|].
  split; [eexists; split; vm_compute; reflexivity|].
  vm_compute. reflexivity.
Qed.

Lemma first_period_of_existing_asset :
  final_number_of_depreciations
    (make_loop_env (w_asset opening_partial) (w_row opening_partial)
                   (w_self opening_partial) 0 None) = 13
  /\ exists st',
       loop_body
         (make_loop_env (w_asset opening_partial) (w_row opening_partial)
                        (w_self opening_partial) 0 None) 0
         (mkLocals [] (w_asset opening_partial) 1200 false 0 None)
       = Ok (Next, st')
       /\ map (fun d => (SRow.idx d, SRow.schedule_date d,
                         Qred (SRow.depreciation_amount d)))
              (rows st')
          = [(1, mkdate 2020 2 29, 100%Q)].
Proof.
  destruct (first_period_unprorated_with_opening
              (w_asset opening_partial) (w_row opening_partial)
              (w_self opening_partial) 0
              (mkLocals [] (w_asset opening_partial) 1200 false 0 None)
              (1200 / inject_Z 12)%Q)
    as (H1 & st' & H2 & _ & _ & H3).
  - reflexivity.
  - reflexivity.
  - reflexivity.
  - reflexivity.
  - reflexivity.
  - reflexivity.
  - reflexivity.
  - split; [exact H1|]. exists st'. split; [exact H2|].
    rewrite H3. vm_compute. reflexivity.
Defined.

End Cases.

(** * Further worked schedules *)

Module FurtherCases.
Import Examples FurtherExamples.
#[local] Existing Instance Shipped.frappe.

Ltac q_le := apply Qle_bool_iff; vm_compute; reflexivity.
Ltac q_lt := apply Qlt_alt; vm_compute; reflexivity.

(** ** The calendar of the shipped environment *)

Lemma days_from_civil_from_days (z : Z) :
  Shipped.days_from_civil (Shipped.civil_from_days z) = z.
Proof.
  unfold Shipped.days_from_civil, Shipped.civil_from_days. cbn [year month day].
  set (z1 := z + 719468).
  set (era := z1 / 146097).
  set (doe := z1 - era * 146097).
  assert (Hdoe : 0 <= doe < 146097)
    by (unfold doe, era;
        pose proof (Z.mod_pos_bound z1 146097 ltac:(lia));
        pose proof (Z.div_mod z1 146097 ltac:(lia)); lia).
  set (yoe := (doe - doe / 1460 + doe / 36524 - doe / 146096) / 365).
  assert (Hyoe : 0 <= yoe <= 399)
    by (unfold yoe; Z.to_euclidean_division_equations; lia).
  set (doy := doe - (365 * yoe + yoe / 4 - yoe / 100)).
  assert (Hdoy : 0 <= doy <= 365)
    by (unfold doy, yoe; Z.to_euclidean_division_equations; lia).
  set (mp := (5 * doy + 2) / 153).
  assert (Hmp : 0 <= mp <= 11)
    by (unfold mp; Z.to_euclidean_division_equations; lia).
  destruct (mp <? 10) eqn:E1.
  - apply Z.ltb_lt in E1.
    replace (mp + 3 <=? 2) with false by (symmetry; apply Z.leb_gt; lia).
    replace (2 <? mp + 3) with true by (symmetry; apply Z.ltb_lt; lia).
    replace ((yoe + era * 400) / 400) with era
      by (Z.to_euclidean_division_equations; lia).
    replace (yoe + era * 400 - era * 400) with yoe by lia.
    replace (mp + 3 - 3) with mp by lia.
    unfold doy, z1 in *. unfold mp. unfold doe in *.
    Z.to_euclidean_division_equations. lia.
  - apply Z.ltb_ge in E1.
    replace (mp - 9 <=? 2) with true by (symmetry; apply Z.leb_le; lia).
    replace (2 <? mp - 9) with false by (symmetry; apply Z.ltb_ge; lia).
    replace ((yoe + era * 400 + 1 - 1) / 400) with era
      by (Z.to_euclidean_division_equations; lia).
    replace (yoe + era * 400 + 1 - 1 - era * 400) with yoe by lia.
    replace (mp - 9 + 9) with mp by lia.
    unfold doy, z1 in *. unfold mp. unfold doe in *.
    Z.to_euclidean_division_equations. lia.
Qed.

(** The next day is one day further. *)
Lemma date_diff_next_day (a b : date) :
  Shipped.date_diff a (Shipped.add_days b 1) = Shipped.date_diff a b - 1.
Proof.
  unfold Shipped.date_diff, Shipped.add_days.
  rewrite days_from_civil_from_days. lia.
Qed.

(** Day differences add up. *)
Lemma date_diff_adds_up (a b c : date) :
  Shipped.date_diff a c = Shipped.date_diff a b + Shipped.date_diff b c.
Proof. unfold Shipped.date_diff. lia. Qed.

(** ** X3 *)

Lemma last_amount_completes_a_first_row_of_40 :
  exists a,
    get_adjusted_depreciation_amount (w_self sl3)
      [SRow.mk 1 (mkdate 2020 1 31) 40 None None] 100 60 = Ok a
    /\ (40 + a == 100)%Q.
Proof.
  destruct (adjusted_last_amount_completes_the_first_row
              (w_self sl3) [SRow.mk 1 (mkdate 2020 1 31) 40 None None] 100 60)
    as [H _].
  apply H. reflexivity.
Defined.

(** ** X5 *)

Lemma reconciling_three_rows_keeps_them_in_place :
  w_asset sl3_reconciled = w_asset sl3_generated
  /\ w_row sl3_reconciled = w_row sl3_generated
  /\ List.length (Schedule.depreciation_schedule (w_self sl3_reconciled))
     = List.length (Schedule.depreciation_schedule (w_self sl3_generated)).
Proof.
  destruct (reconciler_keeps_the_rows_in_place
              sl3_generated sl3_reconciled None None false)
    as (H1 & H2 & H3 & _).
  - vm_compute. reflexivity.
  - split; [exact H1|]. split; [exact H2|exact H3].
Defined.

(** ** X6 *)

Lemma reconciling_three_rows_returns :
  exists w', set_accumulated_depreciation sl3_generated None None false = Ok w'.
Proof.
  apply (reconciler_returns_when_no_row_is_skipped sl3_generated None None
           false).
  repeat constructor.
Defined.

(** ** X7 *)


(** ** X8 *)

Lemma booked_row_without_accumulated_amount_raises :
  set_accumulated_depreciation booked_unset None None true = Raise TypeError.
Proof.
  apply (reconciler_raises_on_unset_accumulated_amount booked_unset None None
           []
           (SRow.mk 1 (mkdate 2020 1 31) 100 None (Some "JE-1"%string))
           (SRow.mk 2 (mkdate 2020 2 29) 100 None None)
           [SRow.mk 3 (mkdate 2020 3 31) 100 None None]).
  - reflexivity.
  - repeat constructor.
  - reflexivity.
  - reflexivity.
  - reflexivity.
Defined.

(** ** X9 *)

Lemma reconciled_three_rows_add_up :
  exists w',
    set_accumulated_depreciation sl3_generated None None false = Ok w'
    /\ (Qabs (sum_amounts (Schedule.depreciation_schedule (w_self w'))
              - (FB.value_after_depreciation (w_row sl3_generated)
                 - FB.expected_value_after_useful_life (w_row sl3_generated)))
        <= 1 # 200)%Q.
Proof.
  apply (reconciled_straight_line_amounts_add_up sl3_generated false (1 # 200)).
  - exact Cases.rounded_error.
  - reflexivity.
  - apply Cases.numbered3; reflexivity.
  - discriminate.
  - repeat constructor.
Defined.

(** ** X10 *)

Lemma three_rows_are_appended_unbooked :
  exists extra,
    Schedule.depreciation_schedule (w_self sl3_generated)
    = Schedule.depreciation_schedule (w_self sl3) ++ extra
    /\ forall j d,
         nth_error extra j = Some d ->
         SRow.idx d
         = Z.of_nat (List.length (Schedule.depreciation_schedule (w_self sl3))
                     + j) + 1
         /\ SRow.journal_entry d = None
         /\ SRow.accumulated_depreciation_amount d = None
         /\ (0 < rounded (SRow.depreciation_amount d) gross_precision)%Q.
Proof.
  apply (generation_appends_unbooked_positive_rows sl3 sl3_generated 0 None
           true None).
  vm_compute. reflexivity.
Defined.

(** ** X11 *)

Lemma at_most_three_rows_are_appended :
  (List.length (Schedule.depreciation_schedule (w_self sl3_generated))
   - List.length (Schedule.depreciation_schedule (w_self sl3))
   <= Z.to_nat 3)%nat.
Proof.
  destruct (generation_appends_at_most_one_row_per_period sl3 sl3_generated 0
              None true None (w_asset sl3) (w_row sl3)) as (_ & H & _).
  - reflexivity.
  - vm_compute. reflexivity.
  - exact H.
Defined.

(** ** X12 *)

Lemma generation_of_three_rows_changes_two_fields :
  same_but_to_date (w_asset sl3) (w_asset sl3_generated)
  /\ w_row sl3_generated
     = FB.set_value_after_depreciation (w_row sl3)
         (starting_value None (w_asset sl3) (w_row sl3))
  /\ w_self sl3_generated
     = Schedule.set_depreciation_schedule (w_self sl3)
         (Schedule.depreciation_schedule (w_self sl3_generated)).
Proof.
  apply (generation_changes_to_date_and_starting_value_only sl3 sl3_generated
           0 None true None (w_asset sl3) (w_row sl3)).
  - reflexivity.
  - vm_compute. reflexivity.
Defined.

(** ** X13 *)

(** Three booked rows of a schedule with a partial first period: the fourth
    period cannot be generated. *)
Lemma fourth_period_alone_fails :
  _make_depr_schedule partial_left 3 None true None = Raise UnboundLocalError.
Proof.
  apply (generation_of_the_last_partial_period_alone_fails partial_left 3 true
           None (w_asset partial_left) (w_row partial_left) (3000 # 3)%Q).
  - reflexivity.
  - reflexivity.
  - reflexivity.
  - reflexivity.
  - discriminate.
  - vm_compute. reflexivity.
Defined.

(** The same through [make_depr_schedule], which clears the unbooked fourth
    row and starts at 3. *)
Lemma regenerating_the_fourth_period_fails :
  make_depr_schedule partial_left_draft None true None
  = Raise UnboundLocalError.
Proof. vm_compute. reflexivity. Qed.

(** ** X14 *)

Lemma disposal_before_the_booked_row_appends_nothing :
  exists w',
    _make_depr_schedule booked_first_cleared 1 (Some (mkdate 2020 1 15)) true
                        None = Ok w'
    /\ Schedule.depreciation_schedule (w_self w')
       = Schedule.depreciation_schedule (w_self booked_first_cleared).
Proof.
  apply (disposal_not_after_the_last_row_appends_nothing booked_first_cleared
           1 (mkdate 2020 1 15) true None (w_asset booked_first_cleared)
           (w_row booked_first_cleared) (300 # 3)%Q).
  - reflexivity.
  - reflexivity.
  - vm_compute. reflexivity.
  - q_le.
  - reflexivity.
  - vm_compute. discriminate.
Defined.

(** ** X15 *)


(** ** X16 *)

Lemma refused_draft_names_the_stored_one :
  exists other,
    In other [stored_draft]
    /\ Lifecycle.non_cancelled other
    /\ Lifecycle.same_pair other second_draft
    /\ Schedule.name other <> Schedule.name second_draft.
Proof.
  destruct (FurtherLifecycleFacts.duplicate_error_names_another_schedule
              [stored_draft] second_draft
              (ValidationError Lifecycle.duplicate_without_finance_book
                 ["ADS-11"%string; "ASSET-11"%string]))
    as (other & H1 & H2 & H3 & H4 & _).
  - vm_compute. reflexivity.
  - exists other. repeat split; try assumption; apply H3.
Defined.

(** ** X17 *)

Lemma draft_passes_once_the_stored_one_is_cancelled :
  Lifecycle.validate_another_asset_depr_schedule_does_not_exist
    (Lifecycle.cancel [stored_draft] stored_draft) second_draft
  = Ok tt.
Proof.
  apply (FurtherLifecycleFacts.validation_passes_after_cancelling_the_current_schedule
           [stored_draft] stored_draft second_draft).
  - intros a b [Ea|[]] [Eb|[]] _ _ _. rewrite <- Ea, <- Eb. reflexivity.
  - left. reflexivity.
  - unfold Lifecycle.non_cancelled. cbn. lia.
  - split; reflexivity.
Defined.

(** ** X18 *)

(** 9100 over the 91 days of the first quarter of 2020: the three monthly
    amounts add up to 9100 * 91 / 90. *)
Lemma daily_amounts_of_a_quarter :
  exists amounts,
    Forall2 (fun idx a =>
               get_straight_line_or_manual_depr_amount
                 (w_asset daily3) (w_row daily3) idx 0 = Ok a)
            (range 0 3) amounts
    /\ (Qsum amounts * inject_Z (91 - 1) == (9100 - 0 - 0) * inject_Z 91)%Q.
Proof.
  destruct (daily_pro_rata_amounts_add_up_to_one_day_more
              (w_asset daily3) (w_row daily3) 0) as (amounts & H1 & H2).
  - exact date_diff_next_day.
  - exact date_diff_adds_up.
  - reflexivity.
  - reflexivity.
  - discriminate.
  - discriminate.
  - exists amounts. split; [exact H1|exact H2].
Defined.

(** ** X19 *)

Lemma regeneration_keeps_the_booked_first_row :
  exists extra,
    Schedule.depreciation_schedule (w_self booked_first_generated)
    = leading_booked (Schedule.depreciation_schedule
                        (w_self (booked_first true))) ++ extra
    /\ Forall (fun d => SRow.journal_entry d = None
                        /\ SRow.accumulated_depreciation_amount d = None)
              extra.
Proof.
  apply (regeneration_replaces_what_follows_the_booked_rows
           (booked_first true) booked_first_generated None true None
           (mkdate 2020 1 1)).
  - reflexivity.
  - vm_compute. reflexivity.
Defined.

(** ** X20 *)

Lemma five_years_of_reducing_balance :
  exists w',
    _make_depr_schedule wdv5 0 None true None = Ok w'
    /\ amounts (Ok w') = Some [24000; 19200; 15360; 12288; 49152 # 5]%Q.
Proof.
  destruct (yearly_written_down_schedule_is_a_reducing_balance wdv5 true None
              (w_asset wdv5) (w_row wdv5)) as (w' & H1 & H2).
  - reflexivity.
  - reflexivity.
  - reflexivity.
  - reflexivity.
  - reflexivity.
  - reflexivity.
  - vm_compute. repeat split; reflexivity.
  - exists w'. split; [exact H1|].
    unfold amounts. rewrite H2. vm_compute. reflexivity.
Defined.

(** ** X21 *)

Lemma regenerating_three_rows_twice :
  exists w2,
    regenerate sl3_reconciled None None None false = Ok w2
    /\ w_self w2 = w_self sl3_reconciled
    /\ w_row w2 = w_row sl3_reconciled
    /\ same_but_to_date (w_asset sl3_reconciled) (w_asset w2).
Proof.
  apply (regenerating_an_unbooked_schedule_twice_changes_nothing sl3
           sl3_reconciled None None None false (mkdate 2020 1 1)).
  - reflexivity.
  - reflexivity.
  - reflexivity.
  - constructor.
  - reflexivity.
  - vm_compute. reflexivity.
  - reflexivity.
Defined.

End FurtherCases.
